(** * The video-inference job runner ([main2.py], function [predict])

    A shallow embedding of the BullMQ handler [predict] and of its helpers
    [extract_frame_data], [update_json_results] and [save_error_json],
    followed by the properties of the job lifecycle: progress reporting,
    persisted results and the outcome handed back to the queue.

    Python values are modelled as the code has them: [int] as [Z], [float]
    as IEEE-754 binary64 (finite values are rationals, every arithmetic
    result is rounded to nearest-even), exceptions as a class and a message,
    the result files as a finite map from paths to JSON documents.  The
    collaborators of the runner (file system, queue, model, video capture)
    are an environment that also schedules their failures.  What [print]
    writes is not part of the state. *)

From Stdlib Require Import ZArith QArith Qround Qpower Qabs Lia Lqa Ascii String SpecFloat.
From stdpp Require Import gmap strings list sorting.

Open Scope Z_scope.

(** ** Python exceptions *)

(** Only subclasses of [Exception] are modelled: these are the ones the
    clause [except Exception as e] of [predict] catches. *)
Inductive ExnClass :=
  | ZeroDivisionError | OverflowError | ValueError | UnboundLocalError
  | AttributeError | IndexError | KeyError | FileNotFoundError | OSError
  | JSONDecodeError | RuntimeError | ConnectionError.

Record PyExn := mkExn { exn_class : ExnClass; exn_msg : string }.

(** [str(e)] *)
Definition str (e : PyExn) : string := exn_msg e.

(** A computation either returns or raises. *)
Inductive Res (A : Type) : Type :=
  | Ok (a : A)
  | Raise (e : PyExn).
Arguments Ok {A} a.
Arguments Raise {A} e.

#[global] Instance Res_ret : MRet Res := @Ok.
#[global] Instance Res_bind : MBind Res := fun A B f m =>
  match m with
  | Ok a => f a
  | Raise e => Raise e
  end.

(** ** Binary64 arithmetic *)

Module Float64.

(** [ilog2 x] is the binary exponent of a positive rational:
    [2 ^ ilog2 x <= x < 2 ^ (ilog2 x + 1)]. *)
Definition ilog2 (x : Q) : Z :=
  let c := Z.log2 (Qnum x) - Z.log2 (Zpos (Qden x)) in
  if Qle_bool (2 ^ c) x then c else c - 1.

(** Nearest integer, ties to even. *)
Definition rne (x : Q) : Z :=
  let f := Qfloor x in
  match (x - inject_Z f ?= 1 # 2)%Q with
  | Lt => f
  | Gt => f + 1
  | Eq => if Z.even f then f else f + 1
  end.

(** Exponent of the last place: 53 significant bits, subnormals below
    [2 ^ -1022]. *)
Definition fexp (x : Q) : Z := Z.max (ilog2 x - 52) (-1074).

Definition round_pos (x : Q) : Q :=
  (inject_Z (rne (x / 2 ^ fexp x)) * 2 ^ fexp x)%Q.

(** Round to nearest-even, exponent unbounded above; the callers check the
    result against [2 ^ 1024]. *)
Definition round (x : Q) : Q :=
  match (x ?= 0)%Q with
  | Gt => Qred (round_pos x)
  | Lt => Qred (- round_pos (- x))
  | Eq => 0%Q
  end.

(** The rounded value is outside the finite range. *)
Definition overflows (r : Q) : bool := Qle_bool (2 ^ 1024) (Qabs r).

End Float64.

(** A Python [float]. *)
Inductive pyfloat :=
  | Fin (q : Q)
  | Inf (negative : bool)
  | NaN.

Definition is_neg (q : Q) : bool := negb (Qle_bool 0 q).

(** Result of an operation whose exact value is [q]. *)
Definition of_exact (q : Q) : pyfloat :=
  let r := Float64.round q in
  if Float64.overflows r then Inf (is_neg r) else Fin r.

(** [a / b] on two [int]s: correctly rounded, raises on a zero divisor and
    on a quotient outside the float range. *)
Definition int_truediv (a b : Z) : Res pyfloat :=
  if b =? 0 then Raise (mkExn ZeroDivisionError "division by zero")
  else
    match of_exact (inject_Z a / inject_Z b) with
    | Fin r => Ok (Fin r)
    | _ => Raise (mkExn OverflowError "integer division result too large for a float")
    end.

(** [float(n)] *)
Definition float_of_int (n : Z) : Res pyfloat :=
  match of_exact (inject_Z n) with
  | Fin r => Ok (Fin r)
  | _ => Raise (mkExn OverflowError "int too large to convert to float")
  end.

Definition is_zero (x : pyfloat) : bool :=
  match x with
  | Fin q => Qeq_bool q 0
  | _ => false
  end.

Definition float_mul (x y : pyfloat) : pyfloat :=
  match x, y with
  | Fin a, Fin b => of_exact (a * b)
  | Fin a, Inf s | Inf s, Fin a =>
      if Qeq_bool a 0 then NaN else Inf (xorb s (is_neg a))
  | Inf s, Inf t => Inf (xorb s t)
  | _, _ => NaN
  end.

(** [x / y] on floats: only a zero divisor raises, overflow gives [inf]. *)
Definition float_div (x y : pyfloat) : Res pyfloat :=
  if is_zero y then Raise (mkExn ZeroDivisionError "float division by zero")
  else
    Ok match x, y with
       | Fin a, Fin b => of_exact (a / b)
       | Fin a, Inf _ => Fin 0
       | Inf s, Fin b => Inf (xorb s (is_neg b))
       | _, _ => NaN
       end.

(** [x > 0] *)
Definition float_pos (x : pyfloat) : bool :=
  match x with
  | Fin q => negb (Qle_bool q 0)
  | Inf s => negb s
  | NaN => false
  end.

(** Truncation toward zero. *)
Definition Qtrunc (q : Q) : Z := if Qle_bool 0 q then Qfloor q else Qceiling q.

(** [int(x)] *)
Definition py_int (x : pyfloat) : Res Z :=
  match x with
  | Fin q => Ok (Qtrunc q)
  | Inf _ => Raise (mkExn OverflowError "cannot convert float infinity to integer")
  | NaN => Raise (mkExn ValueError "cannot convert float NaN to integer")
  end.

(** Line 141: [min(int((processed_frames / total_frames) * 100), 100)]. *)
Definition calc_progress (processed_frames total_frames : Z) : Res Z :=
  q ← int_truediv processed_frames total_frames;
  n ← py_int (float_mul q (Fin 100));
  Ok (Z.min n 100).

(** ** Data model *)

(** One detection of the JSON artifact; [det_confidence] is the key
    ["confidence"]. *)
Record Detection := mkDetection {
  bbox : list pyfloat;
  det_confidence : pyfloat;
  class_id : Z;
  class_name : string;
}.

Record FrameRecord := mkFrame {
  frame_number : Z;
  timestamp : pyfloat;
  detections : list Detection;
}.

Record VideoInfo := mkVideoInfo {
  vi_path : string;
  vi_total_frames : Z;
  vi_fps : pyfloat;
  vi_width : Z;
  vi_height : Z;
}.

Record JobInfo := mkJobInfo {
  ji_id : string;
  ji_model : string;
  ji_confidence : pyfloat;
}.

(** The two documents the runner writes: the metadata header with the frames
    appended so far, and the error record. *)
Inductive Json :=
  | ResultsDoc (video_info : VideoInfo) (job_info : JobInfo) (frames : list FrameRecord)
  | ErrorDoc (message : string) (stamp : option pyfloat).

(** A file holds a complete document, or what is left when [json.dump]
    raised after [open(path, 'w')] had truncated it. *)
Inductive FileContent :=
  | Intact (doc : Json)
  | Torn.

(** The queue's job: [job.id] and [job.data]. *)
Record JobData := mkJobData {
  videoPath : string;
  data_confidence : pyfloat;
  modelRef : string;
}.

Record Job := mkJob {
  job_id : string;
  job_data : JobData;
}.

(** The dictionary [predict] returns. *)
Inductive Outcome :=
  | Success (processed_frames total_frames : Z) (results_json : string)
  | Error (message : string).

(** What the detector yields for one frame.  An attribute is [None] when the
    object does not carry it ([hasattr] is false; for [boxes]: the attribute
    is [None]); arrays may be empty. *)
Record RawBox := mkBox {
  box_xyxy : option (list (list pyfloat));
  box_conf : option (list pyfloat);
  box_cls : option (list pyfloat);
}.

Record RawResult := mkResult {
  res_boxes : option (list RawBox);
  res_names : option (gmap Z string);
}.

(** ** The world around one run *)

(** How a file operation fails: before the file is touched, or after it was
    opened for writing (and so truncated). *)
Inductive IOFault :=
  | OpenFails (e : PyExn)
  | DumpFails (e : PyExn).

Definition fault_exn (f : IOFault) : PyExn :=
  match f with
  | OpenFails e | DumpFails e => e
  end.

(** Everything [predict] reads from outside, faults included: they are
    scheduled by the position of the call.  The capture answers with finite
    numbers (0 for a file it cannot open). *)
Record Env := mkEnv {
  video_exists : bool;                 (* os.path.exists(video_path) *)
  model_load : option PyExn;           (* YOLO(model_path) raises *)
  cap_frame_count : Z;                 (* int(cap.get(CAP_PROP_FRAME_COUNT)) *)
  cap_fps : pyfloat;                   (* cap.get(CAP_PROP_FPS) *)
  cap_width : Z;
  cap_height : Z;
  stream : list RawResult;             (* results yielded by model.predict *)
  stream_fault : option PyExn;         (* raised by the stream after them *)
  push_fault : nat -> option PyExn;    (* the i-th updateProgress raises *)
  io_fault : nat -> option IOFault;    (* the i-th file operation fails *)
  now : pyfloat;                       (* time.time() *)
}.

Record State := mkState {
  fs : gmap string FileContent;        (* the files under temp_results/ *)
  calls : list Z;                      (* values passed to updateProgress *)
  progress : option Z;                 (* the job's progress in the queue *)
  io_ops : nat;                        (* file operations done so far *)
}.

Definition init : State :=
  {| fs := ∅; calls := []; progress := None; io_ops := 0 |}.

(** State and exceptions: the state survives a raise. *)
Definition M (A : Type) : Type := State -> Res A * State.

#[global] Instance M_ret : MRet M := fun A a s => (Ok a, s).
#[global] Instance M_bind : MBind M := fun A B f m s =>
  match m s with
  | (Ok a, s') => f a s'
  | (Raise e, s') => (Raise e, s')
  end.

Definition raise {A} (e : PyExn) : M A := fun s => (Raise e, s).

Definition lift {A} (r : Res A) : M A := fun s => (r, s).

(** [try: m except Exception as e: h e] *)
Definition try_catch {A} (m : M A) (h : PyExn -> M A) : M A := fun s =>
  match m s with
  | (Ok a, s') => (Ok a, s')
  | (Raise e, s') => h e s'
  end.

(** A name that is local to the function, read at a point where its binding
    statement has ([Some]) or has not ([None]) been executed. *)
Definition local_var {A} (name : string) (binding : option A) : M A :=
  match binding with
  | Some v => mret v
  | None =>
      raise (mkExn UnboundLocalError
               ("cannot access local variable '" +:+ name
                +:+ "' where it is not associated with a value"))
  end.

(** ** Paths *)

(** [s.split('/')] *)
Fixpoint split_slash (s : string) : list string :=
  match s with
  | EmptyString => [EmptyString]
  | String c r =>
      if Ascii.eqb c "/"%char then EmptyString :: split_slash r
      else
        match split_slash r with
        | x :: xs => String c x :: xs
        | [] => [String c EmptyString]
        end
  end.

(** A relative [pathlib] path, as its parts.  Every path of the runner is
    built from a string that starts with [./], so none is absolute. *)
Definition Path : Type := list string.

(** [Path(s)] for a string that does not start with a slash: empty parts and
    [.] parts are dropped, [..] parts are kept. *)
Definition Path_of (s : string) : Path :=
  List.filter (fun c => negb (String.eqb c "") && negb (String.eqb c "."))
    (split_slash s).

(** [str(p)] *)
Definition path_str (p : Path) : string :=
  match p with
  | [] => "."
  | c :: cs => fold_left (fun acc x => acc +:+ "/" +:+ x) cs c
  end.

(** The parts left when every [..] has stepped back over the part before
    it; [stack] holds the parts kept so far, last first. *)
Fixpoint resolve (stack : list string) (p : Path) : list string :=
  match p with
  | [] => rev stack
  | c :: p =>
      if String.eqb c ".." then
        match stack with
        | x :: rest => if String.eqb x ".." then resolve (c :: stack) p else resolve rest p
        | [] => resolve [c] p
        end
      else resolve (c :: stack) p
  end.

(** The file a path names, relative to the working directory: the key of
    the file system.  The directories the path goes through are taken to
    exist (the runner creates them before it opens a file) and not to be
    symbolic links. *)
Definition location (p : Path) : string := path_str (resolve [] p).

#[global] Arguments location : simpl never.

(** The list from its first element that does not satisfy [f]. *)
Fixpoint drop_while (f : ascii -> bool) (l : list ascii) : list ascii :=
  match l with
  | [] => []
  | c :: r => if f c then drop_while f r else l
  end.

Definition is_slash (c : ascii) : bool := Ascii.eqb c "/"%char.

(** [os.path.dirname]: the head up to the last slash, without its trailing
    slashes unless it consists of slashes only. *)
Definition dirname (p : string) : string :=
  (* [head = p[:p.rfind('/') + 1]], last character first *)
  let head := drop_while (fun c => negb (is_slash c)) (rev (list_ascii_of_string p)) in
  if forallb is_slash head then string_of_list_ascii (rev head)
  else string_of_list_ascii (rev (drop_while is_slash head)).

(** ** Mapping a raw result to a frame record (lines 67-93) *)

(** [a[0]] on an array *)
Definition index0 {A} (a : list A) : Res A :=
  match a with
  | x :: _ => Ok x
  | [] => Raise (mkExn IndexError "index 0 is out of bounds for axis 0 with size 0")
  end.

(** The body of [for box in boxes] (lines 75-87). *)
Definition extract_detection (names : option (gmap Z string)) (box : RawBox) : Res Detection :=
  xyxy ← match box_xyxy box with
         | Some a => index0 a
         | None => Ok []
         end;
  conf ← match box_conf box with
         | Some a => index0 a
         | None => Ok (Fin 0)
         end;
  cls ← match box_cls box with
        | Some a => c ← index0 a; py_int c
        | None => Ok (-1)
        end;
  let cls_name :=
    match names with
    | Some d => default "unknown" (d !! cls)
    | None => "unknown"
    end in
  Ok {| bbox := xyxy; det_confidence := conf; class_id := cls; class_name := cls_name |}.

(** The loop over the boxes, [detections] being the list built so far. *)
Fixpoint extract_boxes (names : option (gmap Z string)) (boxes : list RawBox)
    (detections : list Detection) : Res (list Detection) :=
  match boxes with
  | [] => Ok detections
  | box :: rest =>
      d ← extract_detection names box;
      extract_boxes names rest (detections ++ [d])
  end.

Definition extract_frame_data (fps : pyfloat) (result : RawResult) (frame_number : Z)
    : Res FrameRecord :=
  boxes ← match res_boxes result with
          | Some b => Ok b
          | None => Raise (mkExn AttributeError "'NoneType' object has no attribute 'cpu'")
          end;
  detections ← extract_boxes (res_names result) boxes [];
  stamp ← (if float_pos fps
           then f ← float_of_int frame_number; float_div f fps
           else Ok (Fin 0));
  Ok {| frame_number := frame_number; timestamp := stamp; detections := detections |}.

(** ** The runner *)

(** Lines 16-18: the inputs of every run. *)
Definition video_path : string := "media/input.mp4".
Definition confidence : pyfloat := Fin (1 # 4).
Definition model_path : string := "src/best.pt".

(** [Path(f"./temp_results/{job_id}")] *)
Definition output_dir (job_id : string) : Path := Path_of ("./temp_results/" +:+ job_id).

(** [output_dir / "results.json"] *)
Definition final_json_path (job_id : string) : Path :=
  output_dir job_id ++ ["results.json"].

(** [Path(f"./temp_results/{job.id}/error.json")] *)
Definition error_json_path (job_id : string) : Path :=
  Path_of ("./temp_results/" +:+ job_id +:+ "/error.json").

(** Line 103: [data["frames"].append(frame_data)] *)
Definition append_frame (data : Json) (frame_data : FrameRecord) : Res Json :=
  match data with
  | ResultsDoc vi ji frames => Ok (ResultsDoc vi ji (frames ++ [frame_data]))
  | ErrorDoc _ _ => Raise (mkExn KeyError "'frames'")
  end.

Section Runner.

Context (env : Env).

(** [await job.updateProgress(p)]: the value is recorded as passed, the
    queue stores it unless the push raises. *)
Definition updateProgress (p : Z) : M unit := fun s =>
  match push_fault env (length (calls s)) with
  | Some e =>
      (Raise e,
       {| fs := fs s; calls := calls s ++ [p]; progress := progress s;
          io_ops := io_ops s |})
  | None =>
      (Ok tt,
       {| fs := fs s; calls := calls s ++ [p]; progress := Some p;
          io_ops := io_ops s |})
  end.

(** One file operation: it takes the next slot of the fault schedule. *)
Definition fs_op {A} (op : option IOFault -> gmap string FileContent ->
                           Res A * gmap string FileContent) : M A := fun s =>
  let (r, files) := op (io_fault env (io_ops s)) (fs s) in
  (r, {| fs := files; calls := calls s; progress := progress s;
         io_ops := S (io_ops s) |}).

(** [mkdir(parents=True, exist_ok=True)], [os.makedirs(.., exist_ok=True)] *)
Definition mkdir (path : string) : M unit :=
  fs_op (fun fault files =>
    match fault with
    | Some f => (Raise (fault_exn f), files)
    | None => (Ok tt, files)
    end).

(** [with open(path, 'w') as f: json.dump(doc, f)] *)
Definition write_json (path : Path) (doc : Json) : M unit :=
  fs_op (fun fault files =>
    match fault with
    | None => (Ok tt, <[location path := Intact doc]> files)
    | Some (OpenFails e) => (Raise e, files)
    | Some (DumpFails e) => (Raise e, <[location path := Torn]> files)
    end).

(** [with open(path, 'r') as f: data = json.load(f)] *)
Definition read_json (path : Path) : M Json :=
  fs_op (fun fault files =>
    match fault with
    | Some f => (Raise (fault_exn f), files)
    | None =>
        match files !! location path with
        | Some (Intact doc) => (Ok doc, files)
        | Some Torn =>
            (Raise (mkExn JSONDecodeError "Expecting value: line 1 column 1 (char 0)"),
             files)
        | None =>
            (Raise (mkExn FileNotFoundError
                      ("[Errno 2] No such file or directory: '" +:+ path_str path +:+ "'")),
             files)
        end
    end).

(** Lines 96-109.  The handler only prints. *)
Definition update_json_results (json_path : Path) (frame_data : FrameRecord) : M unit :=
  try_catch
    (data ← read_json json_path;
     data ← lift (append_frame data frame_data);
     write_json json_path data)
    (fun e => mret tt).

(** Lines 112-121. *)
Definition save_error_json (json_path : Path) (error_message : string) : M unit :=
  let error_data := ErrorDoc error_message (Some (now env)) in
  mkdir (dirname (path_str json_path));;
  write_json json_path error_data.

(** [YOLO(model_path)] *)
Definition load_model : M unit :=
  match model_load env with
  | Some e => raise e
  | None => mret tt
  end.

(** Lines 137-154: the loop over the streamed results; the stream raises
    its fault, if any, when asked for the result after the last one. *)
Fixpoint frame_loop (job_id : string) (total_frames : Z) (fps : pyfloat)
    (results : list RawResult) (processed_frames : Z) : M Z :=
  match results with
  | [] =>
      match stream_fault env with
      | Some e => raise e
      | None => mret processed_frames
      end
  | result :: results =>
      let processed_frames := processed_frames + 1 in
      progress ← lift (calc_progress processed_frames total_frames);
      updateProgress progress;;
      frame_data ← lift (extract_frame_data fps result processed_frames);
      update_json_results (final_json_path job_id) frame_data;;
      frame_loop job_id total_frames fps results processed_frames
  end.

(** Lines 15-168: the body of the [try]. *)
Definition predict_body (job : Job) : M Outcome :=
  let job_id := job_id job in
  mkdir (path_str (output_dir job_id));;
  if String.eqb video_path "" || negb (video_exists env) then
    updateProgress 100;;
    (* line 31: [save_error_json] is a local name of [predict], bound by the
       [def] of line 112, which has not been executed yet *)
    save ← local_var "save_error_json" (None : option (Path -> string -> M unit));
    save (final_json_path job_id) ("Video file not found: " +:+ video_path);;
    mret (Error ("Video file not found: " +:+ video_path))
  else
    load_model;;
    let total_frames := cap_frame_count env in
    let fps := cap_fps env in
    let metadata :=
      ResultsDoc
        {| vi_path := video_path; vi_total_frames := total_frames; vi_fps := fps;
           vi_width := cap_width env; vi_height := cap_height env |}
        {| ji_id := job_id; ji_model := model_path; ji_confidence := confidence |}
        [] in
    write_json (final_json_path job_id) metadata;;
    updateProgress 0;;
    processed_frames ← frame_loop job_id total_frames fps (stream env) 0;
    updateProgress 100;;
    mret (Success processed_frames total_frames (path_str (final_json_path job_id))).

(** Lines 170-183: the [except Exception as e] clause. *)
Definition on_exception (job : Job) (e : PyExn) : M Outcome :=
  updateProgress 100;;
  try_catch
    (mkdir (dirname (path_str (error_json_path (job_id job))));;
     write_json (error_json_path (job_id job)) (ErrorDoc (str e) None))
    (fun _ => mret tt);;
  mret (Error (str e)).

Definition predict (job : Job) : M Outcome :=
  try_catch (predict_body job) (on_exception job).

End Runner.

(** A run of the handler on a fresh job. *)
Definition run (env : Env) (job : Job) : Res Outcome * State := predict env job init.

(** The frames persisted in the job's result document. *)
Definition persisted_frames (s : State) (job : Job) : option (list FrameRecord) :=
  match fs s !! location (final_json_path (job_id job)) with
  | Some (Intact (ResultsDoc _ _ frames)) => Some frames
  | _ => None
  end.

(** The header of the job's result document. *)
Definition persisted_header (s : State) (job : Job) : option (VideoInfo * JobInfo) :=
  match fs s !! location (final_json_path (job_id job)) with
  | Some (Intact (ResultsDoc vi ji _)) => Some (vi, ji)
  | _ => None
  end.

(** The error record persisted for the job, at either location. *)
Definition persisted_error (s : State) (job : Job) : option string :=
  match fs s !! location (error_json_path (job_id job)) with
  | Some (Intact (ErrorDoc msg _)) => Some msg
  | _ =>
      match fs s !! location (final_json_path (job_id job)) with
      | Some (Intact (ErrorDoc msg _)) => Some msg
      | _ => None
      end
  end.

(** ** Specification vocabulary *)

(** Postconditions on the result and the final state of a computation. *)
Definition wp {A} (m : M A) (s : State) (Q : Res A -> State -> Prop) : Prop :=
  Q (m s).1 (m s).2.


(** The values pushed while the loop handles the frames after frame [k]:
    the [i]-th of them is the progress computed for frame [k + 1 + i]. *)
Definition loop_pushes (total_frames k : Z) (l : list Z) : Prop :=
  forall (i : nat) (p : Z),
    l !! i = Some p -> calc_progress (k + 1 + Z.of_nat i) total_frames = Ok p.

(** Every push made so far was delivered; every push but the last one. *)
Definition pushes_ok (env : Env) (s : State) : Prop :=
  forall i : nat, (i < length (calls s))%nat -> push_fault env i = None.

Definition pushes_ok_but_last (env : Env) (s : State) : Prop :=
  forall i : nat, (S i < length (calls s))%nat -> push_fault env i = None.

(** The queue side of the state is unchanged. *)
Definition queue_kept (s s' : State) : Prop :=
  calls s' = calls s /\ progress s' = progress s.

(** The pushes the body of [predict] can have made when it is left: none,
    the 100 of a rejected input, the initial 0 and the loop's pushes, and
    these followed by the final 100. *)
Inductive body_trace (total_frames : Z) : list Z -> Prop :=
  | trace_nothing : body_trace total_frames []
  | trace_rejected : body_trace total_frames [100]
  | trace_loop l : loop_pushes total_frames 0 l -> body_trace total_frames (0 :: l)
  | trace_done l : loop_pushes total_frames 0 l -> body_trace total_frames (0 :: l ++ [100]).

(** Every frame persisted in the job's result document has a number
    below [b]. *)
Definition frames_below (s : State) (id : string) (b : Z) : Prop :=
  forall vi ji frames,
    fs s !! location (final_json_path id) = Some (Intact (ResultsDoc vi ji frames)) ->
    Forall (fun f => frame_number f < b) frames.

(** Between two statements of [predict]: every push was delivered, and
    every persisted frame has had its push (frame [k] is pushed at
    position [k]). *)
Definition settled (env : Env) (id : string) (s : State) : Prop :=
  pushes_ok env s /\ frames_below s id (Z.of_nat (length (calls s))).

(** When an exception travels: only the last push can have failed, and then
    the frame it announced is not persisted, nor any later one. *)
Definition broken (env : Env) (id : string) (s : State) : Prop :=
  pushes_ok_but_last env s /\
  frames_below s id (Z.of_nat (length (calls s))) /\
  forall i : nat,
    S i = length (calls s) -> push_fault env i <> None ->
    frames_below s id (Z.of_nat i).

(** The two as a postcondition, and as what a statement does to a settled
    state. *)
Definition ending (env : Env) (id : string) {A} (r : Res A) (s' : State) : Prop :=
  match r with
  | Ok _ => settled env id s'
  | Raise _ => broken env id s'
  end.

Definition aftermath (env : Env) (id : string) (s : State) {A} (r : Res A)
    (s' : State) : Prop :=
  settled env id s -> ending env id r s'.

(** An attribute that is absent, or present with a first element. *)
Definition field_ok {A} (a : option (list A)) : bool :=
  match a with
  | Some [] => false
  | _ => true
  end.

(** [cls] must moreover hold a finite number for [int] to accept it. *)
Definition cls_ok (a : option (list pyfloat)) : bool :=
  match a with
  | Some (Fin _ :: _) | None => true
  | Some _ => false
  end.

Definition wf_box (b : RawBox) : bool :=
  field_ok (box_xyxy b) && field_ok (box_conf b) && cls_ok (box_cls b).

Definition wf_result (r : RawResult) : bool :=
  match res_boxes r with
  | Some boxes => forallb wf_box boxes
  | None => false
  end.

(** The detection the specification asks for: every field that cannot be
    read degrades to its default. *)
Definition spec_detection (names : option (gmap Z string)) (box : RawBox) : Detection :=
  let cls :=
    match box_cls box with
    | Some (Fin q :: _) => Qtrunc q
    | _ => -1
    end in
  {| bbox := match box_xyxy box with Some (row :: _) => row | _ => [] end;
     det_confidence := match box_conf box with Some (c :: _) => c | _ => Fin 0 end;
     class_id := cls;
     class_name := match names with
                   | Some d => default "unknown" (d !! cls)
                   | None => "unknown"
                   end |}.

(** A run in which nothing outside the runner fails. *)
Record Quiet (env : Env) : Prop := {
  quiet_video : video_exists env = true;
  quiet_model : model_load env = None;
  quiet_push : forall i, push_fault env i = None;
  quiet_io : forall i, io_fault env i = None;
  quiet_frames : Forall (fun r => wf_result r = true) (stream env);
}.

(** [sub in s] on strings *)
Fixpoint contains (s sub : string) : bool :=
  if String.prefix sub s then true
  else
    match s with
    | EmptyString => false
    | String _ rest => contains rest sub
    end.

(** The value behind a successful [calc_progress]: the quotient and the
    product are both rounded before the truncation. *)
Definition progress_value (k t : Z) : Z :=
  Z.min (Qfloor (Float64.round (Float64.round (inject_Z k / inject_Z t) * 100))) 100.

(** The same computation with the operations of the Standard Library's
    IEEE-754 specification ([SpecFloat], 53 bits of precision). *)
Definition SF_value (f : spec_float) : option Q :=
  match f with
  | S754_zero _ => Some 0%Q
  | S754_finite s m e => Some ((if s then -1 else 1) * inject_Z (Zpos m) * 2 ^ e)%Q
  | _ => None
  end.

Definition sf_int (n : positive) : spec_float := S754_finite false n 0.

Definition sf_progress (k t : positive) : option Z :=
  q ← SF_value (SFmul 53 1024 (SFdiv 53 1024 (sf_int k) (sf_int t)) (sf_int 100));
  Some (Z.min (Qfloor q) 100).

Definition same_progress (t k : positive) : bool :=
  match calc_progress (Zpos k) (Zpos t), sf_progress k t with
  | Ok p, Some q => p =? q
  | _, _ => false
  end.

(** ** Scenarios *)

Definition scenario (present : bool) (total : Z) (results : list RawResult)
    (sfault : option PyExn) (pfault : nat -> option PyExn)
    (iofault : nat -> option IOFault) : Env :=
  {| video_exists := present; model_load := None; cap_frame_count := total;
     cap_fps := Fin 25; cap_width := 1280; cap_height := 720;
     stream := results; stream_fault := sfault;
     push_fault := pfault; io_fault := iofault; now := Fin 1700000000 |}.

Definition never {A} : nat -> option A := fun _ => None.

Definition at_call {A} (n : nat) (x : A) : nat -> option A :=
  fun i => if Nat.eqb i n then Some x else None.

(** A frame without detections, and one with a single person. *)
Definition empty_result : RawResult :=
  {| res_boxes := Some []; res_names := Some {[ 0 := "person" ]} |}.

Definition person_box : RawBox :=
  {| box_xyxy := Some [[Fin 10; Fin 20; Fin 110; Fin 220]];
     box_conf := Some [Fin (7 # 8)];
     box_cls := Some [Fin 0] |}.

Definition person_result : RawResult :=
  {| res_boxes := Some [person_box]; res_names := Some {[ 0 := "person" ]} |}.

(** A box that carries none of the three attributes, and one whose
    [conf] is there but empty. *)
Definition bare_box : RawBox :=
  {| box_xyxy := None; box_conf := None; box_cls := None |}.

Definition hollow_box : RawBox :=
  {| box_xyxy := Some [[Fin 10; Fin 20; Fin 110; Fin 220]];
     box_conf := Some [];
     box_cls := Some [Fin 0] |}.

Definition hollow_result : RawResult :=
  {| res_boxes := Some [hollow_box]; res_names := Some {[ 0 := "person" ]} |}.

(** A frame with a bare box and a complete one. *)
Definition mixed_result : RawResult :=
  {| res_boxes := Some [bare_box; person_box]; res_names := Some {[ 0 := "person" ]} |}.

(** Two jobs of the queue with the same id and different parameters. *)
Definition job_a : Job :=
  {| job_id := "42";
     job_data := {| videoPath := "uploads/a.mp4"; data_confidence := Fin (1 # 2);
                    modelRef := "models/a.pt" |} |}.

Definition job_b : Job :=
  {| job_id := "42";
     job_data := {| videoPath := "uploads/b.mp4"; data_confidence := Fin (3 # 4);
                    modelRef := "models/b.pt" |} |}.

(** A job whose id leads into the directory of job 42. *)
Definition job_dotted : Job :=
  {| job_id := "7/../42";
     job_data := {| videoPath := "uploads/a.mp4"; data_confidence := Fin (1 # 2);
                    modelRef := "models/a.pt" |} |}.

Definition cuda_oom : PyExn := mkExn RuntimeError "CUDA out of memory".
Definition broker_down : PyExn := mkExn ConnectionError "Connection refused".
Definition disk_error : PyExn := mkExn OSError "[Errno 5] Input/output error".

(** Three frames, all well. *)
Definition sc_calm : Env :=
  scenario true 3 [person_result; empty_result; person_result] None never never.

(** The source reports no frame and then delivers one. *)
Definition sc_zero_total : Env :=
  scenario true 0 [empty_result] None never never.

(** A hundred frames without detections. *)
Definition sc_hundred : Env :=
  scenario true 100 (replicate 100 empty_result) None never never.

(** [media/input.mp4] is not there. *)
Definition sc_missing_video : Env :=
  scenario false 0 [] None never never.

(** The detector throws on frame 5 of 10. *)
Definition sc_detector_throws : Env :=
  scenario true 10 (replicate 4 empty_result) (Some cuda_oom) never never.

(** The read of the first append fails (file operations: [mkdir], the
    header, then a read and a write per frame). *)
Definition sc_sink_fault : Env :=
  scenario true 2 [person_result; person_result] None never
    (at_call 2 (OpenFails disk_error)).

(** The push of the first frame's progress fails (its position is 1, after
    the initial 0). *)
Definition sc_push_fault : Env :=
  scenario true 2 [person_result; person_result] None (at_call 1 broker_down) never.

(** The broker is unreachable for the whole run. *)
Definition sc_broker_down : Env :=
  scenario true 2 [person_result; person_result] None (fun _ => Some broker_down) never.

(** No file operation succeeds. *)
Definition sc_disk_dead : Env :=
  scenario true 2 [person_result; person_result] None never
    (fun _ => Some (OpenFails disk_error)).

(** The broker goes away after the first push. *)
Definition sc_broker_lost : Env :=
  scenario true 2 [person_result; person_result] None
    (fun i => if Nat.eqb i 0 then None else Some broker_down) never.


(** The capture reports two frames and the detector yields three results. *)
Definition sc_short_count : Env :=
  scenario true 2 [person_result; empty_result; person_result] None never never.

(** The weights file cannot be loaded. *)
Definition sc_model_missing : Env :=
  {| video_exists := true;
     model_load := Some (mkExn FileNotFoundError "No such file: 'src/best.pt'");
     cap_frame_count := 2; cap_fps := Fin 25; cap_width := 1280; cap_height := 720;
     stream := [person_result; person_result]; stream_fault := None;
     push_fault := never; io_fault := never; now := Fin 1700000000 |}.

(** ** Further vocabulary *)

(** [x <= y] on two [float]s. *)
Definition float_le (x y : pyfloat) : bool :=
  match x, y with
  | Fin a, Fin b => Qle_bool a b
  | Fin _, Inf s => negb s
  | Inf s, Fin _ => s
  | Inf s, Inf t => s || negb t
  | _, _ => false
  end.

(** The exceptions the mapping of a raw result can raise. *)
Definition mapping_error (c : ExnClass) : bool :=
  match c with
  | AttributeError | IndexError | OverflowError | ValueError => true
  | _ => false
  end.

(** Frame [fd] is what the mapping gives for the result the detector
    yielded at its number, one of the first [k]. *)
Definition mapped_result (env : Env) (k : Z) (fd : FrameRecord) : Prop :=
  exists r,
    1 <= frame_number fd <= k /\
    stream env !! Z.to_nat (frame_number fd - 1) = Some r /\
    extract_frame_data (cap_fps env) r (frame_number fd) = Ok fd.

(** The header of lines 46-58. *)
Definition header_of (env : Env) (job_id : string) : VideoInfo * JobInfo :=
  ({| vi_path := video_path; vi_total_frames := cap_frame_count env;
      vi_fps := cap_fps env; vi_width := cap_width env; vi_height := cap_height env |},
   {| ji_id := job_id; ji_model := model_path; ji_confidence := confidence |}).

(** What the job's result file holds, if it holds a result document: the
    header of the run, and frames in the order of their numbers, each
    mapped from one of the first [k] results. *)
Definition doc_sound (env : Env) (id : string) (k : Z) (s : State) : Prop :=
  forall vi ji frames,
    fs s !! location (final_json_path id) = Some (Intact (ResultsDoc vi ji frames)) ->
    (vi, ji) = header_of env id /\
    StronglySorted Z.lt (map frame_number frames) /\
    Forall (mapped_result env k) frames.

(** What is stored under every path but those of [written] is as it was in
    [s]. *)
Definition elsewhere_kept (written : list string) (s : State) {A} (r : Res A)
    (s' : State) : Prop :=
  forall p, p ∉ written -> fs s' !! p = fs s !! p.

(** The records of the results that follow the first [k], up to the first
    one the mapping refuses. *)
Fixpoint mapped_frames (fps : pyfloat) (rs : list RawResult) (k : Z) : list FrameRecord :=
  match rs with
  | [] => []
  | r :: rs =>
      match extract_frame_data fps r (k + 1) with
      | Ok fd => fd :: mapped_frames fps rs (k + 1)
      | Raise _ => []
      end
  end.

(** ** The batch variant ([main.py]) *)

(** [predict] of [main.py] keeps no result file: it registers a callback on
    the model, runs the prediction in one call and reports the frame count
    of the capture.  The callback does not await its push: it hands the
    coroutine to [asyncio.create_task], so the state also records the
    tasks created.  The event loop runs them while [predict] is suspended
    in an [await]; which of the writes then in flight the queue keeps is a
    choice of the environment. *)
Module Main.

(** What the callback reads from the predictor: [predictor.batch_i] and
    [len(predictor.dataset)]. *)
Record Predictor := mkPredictor {
  batch_i : Z;
  dataset_len : Z;
}.

Record Env := mkEnv {
  video_exists : bool;                 (* os.path.exists(video_path) *)
  model_load : option PyExn;           (* YOLO(model_path) raises *)
  cap_frame_count : Z;                 (* int(cap.get(CAP_PROP_FRAME_COUNT)) *)
  batches : list Predictor;            (* the predictor at each call of the callback *)
  predict_fault : option PyExn;        (* raised by model.predict after them *)
  push_fault : nat -> option PyExn;    (* the i-th awaited updateProgress raises *)
  race : nat -> nat;                   (* the write the queue keeps at the i-th awaited
                                          push: 0 for the awaited one, j + 1 for the
                                          task created j-th *)
}.

Record State := mkState {
  calls : list Z;                      (* values passed to awaited updateProgress *)
  progress : option Z;                 (* the progress the queue ends up with once the
                                          writes in flight have landed *)
  tasks : list Z;                      (* values of the pushes handed to create_task *)
}.

Definition init : State := {| calls := []; progress := None; tasks := [] |}.

Definition M (A : Type) : Type := State -> Res A * State.

#[global] Instance M_ret : MRet M := fun A a s => (Ok a, s).
#[global] Instance M_bind : MBind M := fun A B f m s =>
  match m s with
  | (Ok a, s') => f a s'
  | (Raise e, s') => (Raise e, s')
  end.

Definition raise {A} (e : PyExn) : M A := fun s => (Raise e, s).

Definition lift {A} (r : Res A) : M A := fun s => (r, s).

Definition try_catch {A} (m : M A) (h : PyExn -> M A) : M A := fun s =>
  match m s with
  | (Ok a, s') => (Ok a, s')
  | (Raise e, s') => h e s'
  end.

(** The dictionary [predict] returns. *)
Inductive Outcome :=
  | Success (processed_frames : Z)
  | Error (message : string).

(** Lines 11-13. *)
Definition video_path : string := "media/input.mp4".
Definition confidence : pyfloat := Fin (1 # 4).
Definition model_path : string := "src/best.pt".

Section Runner.

Context (env : Env).

(** [await job.updateProgress(p)].  While [predict] is suspended in the
    await, the event loop runs the tasks the callback created, so their
    pushes reach the queue around the awaited one (a task created earlier
    may still be in flight).  Which of these writes the queue keeps is the
    choice [race] of the environment; the push of a task that fails is lost
    without a trace. *)
Definition updateProgress (p : Z) : M unit := fun s =>
  let i := length (calls s) in
  match push_fault env i with
  | Some e =>
      (Raise e,
       {| calls := calls s ++ [p];
          progress := match race env i with
                      | O => progress s
                      | S j => match tasks s !! j with
                               | Some v => Some v
                               | None => progress s
                               end
                      end;
          tasks := tasks s |})
  | None =>
      (Ok tt,
       {| calls := calls s ++ [p];
          progress := Some (nth (race env i) (p :: tasks s) p);
          tasks := tasks s |})
  end.

(** [asyncio.create_task(job_ref.updateProgress(p))]: the coroutine is
    scheduled, it does not run before [predict] awaits. *)
Definition create_task (p : Z) : M unit := fun s =>
  (Ok tt, {| calls := calls s; progress := progress s; tasks := tasks s ++ [p] |}).

(** Lines 34-48. *)
Definition on_predict_batch_end (predictor : Predictor) : M unit :=
  let current_batch := batch_i predictor + 1 in
  let total_batches := dataset_len predictor in
  progress ← lift (calc_progress current_batch total_batches);
  create_task progress.

(** [model.predict(source=video_path, conf=confidence)]: the callback runs
    at the end of every batch; an exception it raises leaves [model.predict]. *)
Fixpoint model_predict (predictors : list Predictor) : M unit :=
  match predictors with
  | [] =>
      match predict_fault env with
      | Some e => raise e
      | None => mret tt
      end
  | predictor :: predictors =>
      on_predict_batch_end predictor;;
      model_predict predictors
  end.

(** [YOLO(model_path)] *)
Definition load_model : M unit :=
  match model_load env with
  | Some e => raise e
  | None => mret tt
  end.

(** Lines 10-69: the body of the [try]. *)
Definition predict_body (job : Job) : M Outcome :=
  if String.eqb video_path "" || negb (video_exists env) then
    updateProgress 100;;
    mret (Error ("Video file not found: " +:+ video_path))
  else
    load_model;;
    let total_frames := cap_frame_count env in
    updateProgress 0;;
    model_predict (batches env);;
    updateProgress 100;;
    mret (Success total_frames).

(** Lines 71-74. *)
Definition on_exception (job : Job) (e : PyExn) : M Outcome :=
  updateProgress 100;;
  mret (Error (str e)).

Definition predict (job : Job) : M Outcome :=
  try_catch (predict_body job) (on_exception job).

End Runner.

Definition run (env : Env) (job : Job) : Res Outcome * State := predict env job init.

(** The tasks created for the batches [ps]: the percentage of each, in
    order. *)
Definition spawned (ps : list Predictor) (l : list Z) : Prop :=
  Forall2 (fun p v => calc_progress (batch_i p + 1) (dataset_len p) = Ok v) ps l.

(** The queue ends up with the awaited 100 or with the percentage of one of
    the tasks [ts]. *)
Definition landed (ts : list Z) (pr : option Z) : Prop :=
  exists v, pr = Some v /\ (v = 100 \/ v ∈ ts).

(** [media/input.mp4] is not there. *)
Definition sc_missing_video : Env :=
  {| video_exists := false; model_load := None; cap_frame_count := 0;
     batches := []; predict_fault := None; push_fault := never;
     race := fun _ => O |}.

(** A video of 250 frames handled in four batches. *)
Definition sc_four_batches : Env :=
  {| video_exists := true; model_load := None; cap_frame_count := 250;
     batches := map (fun i => mkPredictor i 4) [0; 1; 2; 3];
     predict_fault := None; push_fault := never; race := fun _ => O |}.

(** The prediction fails after the first of four batches, and the push of
    that batch's task reaches the queue after the 100 of the [except]
    clause. *)
Definition sc_late_task : Env :=
  {| video_exists := true; model_load := None; cap_frame_count := 250;
     batches := [mkPredictor 0 4];
     predict_fault := Some (mkExn RuntimeError "CUDA out of memory");
     push_fault := never; race := fun _ => 1%nat |}.

End Main.

(** ** Properties *)

(** *** Rounding to binary64 is monotone *)

Module Float64_facts.
Import Float64.

Lemma pow2_pos (e : Z) : (0 < 2 ^ e)%Q.
Proof. apply Qpower_0_lt. reflexivity. Qed.

Lemma pow2_succ (e : Z) : (2 ^ (e + 1) == 2 * 2 ^ e)%Q.
Proof. rewrite Qpower_plus by discriminate. simpl (2 ^ 1)%Q. ring. Qed.

Lemma pow2_add (a b : Z) : (2 ^ (a + b) == 2 ^ a * 2 ^ b)%Q.
Proof. apply Qpower_plus. discriminate. Qed.

Lemma pow2_le (a b : Z) : a <= b -> (2 ^ a <= 2 ^ b)%Q.
Proof. intros H. apply Qpower_le_compat_l; [exact H | discriminate]. Qed.

Lemma pow2_inject (n : Z) : 0 <= n -> (2 ^ n == inject_Z (2 ^ n))%Q.
Proof. intros H. now rewrite Zpower_Qpower. Qed.

Lemma pow2_log2 (n : Z) :
  0 < n -> (2 ^ Z.log2 n <= inject_Z n /\ inject_Z n < 2 * 2 ^ Z.log2 n)%Q.
Proof.
  intros Hn. destruct (Z.log2_spec n Hn) as [Hlo Hhi].
  pose proof (Z.log2_nonneg n) as H0.
  rewrite <- pow2_succ, !pow2_inject by lia.
  split; [rewrite <- Zle_Qle | rewrite <- Zlt_Qlt]; lia.
Qed.

Lemma ilog2_spec (x : Q) :
  (0 < x)%Q -> (2 ^ ilog2 x <= x /\ x < 2 * 2 ^ ilog2 x)%Q.
Proof.
  intros Hx. unfold ilog2.
  set (c := Z.log2 (Qnum x) - Z.log2 (Z.pos (Qden x))).
  assert (Hn : 0 < Qnum x).
  { destruct x as [n d]. unfold Qlt in Hx. simpl in *. lia. }
  destruct (pow2_log2 _ Hn) as [An1 An2].
  destruct (pow2_log2 (Z.pos (Qden x)) eq_refl) as [Ad1 Ad2].
  assert (Hc : (2 ^ c * 2 ^ Z.log2 (Z.pos (Qden x)) == 2 ^ Z.log2 (Qnum x))%Q).
  { rewrite <- pow2_add. unfold c. now replace (_ - _ + _) with (Z.log2 (Qnum x)) by lia. }
  assert (Hxd : (x * inject_Z (Z.pos (Qden x)) == inject_Z (Qnum x))%Q).
  { destruct x as [n d]. simpl. rewrite (Qmake_Qdiv n d). field. discriminate. }
  pose proof (pow2_pos c) as Pc.
  pose proof (pow2_pos (Z.log2 (Z.pos (Qden x)))) as Pb.
  set (A := (2 ^ Z.log2 (Qnum x))%Q) in *.
  set (B := (2 ^ Z.log2 (Z.pos (Qden x)))%Q) in *.
  set (N := inject_Z (Qnum x)) in *.
  set (D := inject_Z (Z.pos (Qden x))) in *.
  destruct (Qle_bool (2 ^ c) x) eqn:E.
  - apply Qle_bool_iff in E. split; [exact E |].
    set (R := (2 ^ c)%Q) in *.
    destruct (Qlt_le_dec x (2 * R)) as [|Hge]; [assumption | exfalso].
    nra.
  - assert (E' : (x < 2 ^ c)%Q).
    { destruct (Qlt_le_dec x (2 ^ c)) as [|Hge]; [assumption |].
      apply Qle_bool_iff in Hge. congruence. }
    assert (Hs : (2 ^ c == 2 * 2 ^ (c - 1))%Q).
    { rewrite <- pow2_succ. now replace (c - 1 + 1) with c by lia. }
    pose proof (pow2_pos (c - 1)) as Pc1.
    set (P := (2 ^ (c - 1))%Q) in *. set (R := (2 ^ c)%Q) in *.
    split; [| lra].
    destruct (Qlt_le_dec x P) as [Hlt|]; [exfalso | assumption].
    nra.
Qed.


Lemma ilog2_mono (x y : Q) : (0 < x)%Q -> (x <= y)%Q -> ilog2 x <= ilog2 y.
Proof.
  intros Hx Hxy.
  destruct (ilog2_spec x Hx) as [Lx _].
  destruct (ilog2_spec y) as [_ Uy]; [lra |].
  destruct (Z_le_gt_dec (ilog2 x) (ilog2 y)) as [|Hgt]; [assumption | exfalso].
  pose proof (pow2_le (ilog2 y + 1) (ilog2 x) ltac:(lia)) as Hp.
  rewrite pow2_succ in Hp. lra.
Qed.

Lemma rne_bounds (x : Q) : Qfloor x <= rne x <= Qfloor x + 1.
Proof.
  unfold rne. destruct (_ ?= _)%Q; [destruct (Z.even _) | |]; lia.
Qed.

Lemma rne_ge (x : Q) (n : Z) : (inject_Z n <= x)%Q -> n <= rne x.
Proof.
  intros H. apply Qfloor_resp_le in H. rewrite Qfloor_Z in H.
  pose proof (rne_bounds x). lia.
Qed.

Lemma rne_le (x : Q) (n : Z) : (x <= inject_Z n)%Q -> rne x <= n.
Proof.
  intros H. pose proof (Qfloor_resp_le _ _ H) as Hf. rewrite Qfloor_Z in Hf.
  destruct (Z.eq_dec (Qfloor x) n) as [E|E].
  - unfold rne. pose proof (Qfloor_le x) as Hl. rewrite E in *.
    destruct (Qcompare_spec (x - inject_Z n) (1 # 2)); try lia; lra.
  - pose proof (rne_bounds x). lia.
Qed.

Lemma rne_mono (x y : Q) : (x <= y)%Q -> rne x <= rne y.
Proof.
  intros H. pose proof (Qfloor_resp_le _ _ H) as Hf.
  destruct (Z.eq_dec (Qfloor x) (Qfloor y)) as [E|E].
  - unfold rne. rewrite E.
    destruct (Qcompare_spec (x - inject_Z (Qfloor y)) (1 # 2));
      destruct (Qcompare_spec (y - inject_Z (Qfloor y)) (1 # 2));
      try destruct (Z.even (Qfloor y)); try lia; lra.
  - pose proof (rne_bounds x). pose proof (rne_bounds y). lia.
Qed.

Lemma fexp_ge (x : Q) : ilog2 x - 52 <= fexp x /\ -1074 <= fexp x.
Proof. unfold fexp. lia. Qed.

(** The scaled significand stays below [2^53] ... *)
Lemma scaled_lt (x : Q) :
  (0 < x)%Q -> (x < inject_Z (2 ^ 53) * 2 ^ fexp x)%Q.
Proof.
  intros Hx. destruct (ilog2_spec x Hx) as [_ U].
  pose proof (pow2_le (ilog2 x + 1) (fexp x + 53) ltac:(pose proof (fexp_ge x); lia)) as Hp.
  rewrite pow2_succ in Hp. rewrite <- pow2_inject by lia.
  rewrite <- pow2_add. rewrite (Z.add_comm 53). lra.
Qed.

(** ... and reaches [2^52] for every normal number. *)
Lemma scaled_ge (x : Q) :
  (0 < x)%Q -> -1074 < fexp x -> (inject_Z (2 ^ 52) * 2 ^ fexp x <= x)%Q.
Proof.
  intros Hx He. destruct (ilog2_spec x Hx) as [L _].
  assert (E : fexp x = ilog2 x - 52) by (unfold fexp in *; lia).
  rewrite <- pow2_inject by lia. rewrite <- pow2_add.
  now replace (52 + fexp x) with (ilog2 x) by lia.
Qed.

Lemma div_pow2 (x : Q) (e : Z) : (x / 2 ^ e * 2 ^ e == x)%Q.
Proof. field. pose proof (pow2_pos e). lra. Qed.

Lemma round_pos_le_top (x : Q) :
  (0 < x)%Q -> (round_pos x <= inject_Z (2 ^ 53) * 2 ^ fexp x)%Q.
Proof.
  intros Hx. unfold round_pos.
  apply Qmult_le_compat_r; [| apply Qlt_le_weak, pow2_pos].
  rewrite <- Zle_Qle. apply rne_le.
  apply Qle_shift_div_r; [apply pow2_pos |].
  apply Qlt_le_weak, scaled_lt, Hx.
Qed.

Lemma round_pos_ge_bot (x : Q) :
  (0 < x)%Q -> -1074 < fexp x ->
  (inject_Z (2 ^ 52) * 2 ^ fexp x <= round_pos x)%Q.
Proof.
  intros Hx He. unfold round_pos.
  apply Qmult_le_compat_r; [| apply Qlt_le_weak, pow2_pos].
  rewrite <- Zle_Qle. apply rne_ge.
  apply Qle_shift_div_l; [apply pow2_pos |].
  apply scaled_ge; assumption.
Qed.

Lemma round_pos_mono (x y : Q) :
  (0 < x)%Q -> (x <= y)%Q -> (round_pos x <= round_pos y)%Q.
Proof.
  intros Hx Hxy. assert (Hy : (0 < y)%Q) by lra.
  pose proof (ilog2_mono x y Hx Hxy) as Hl.
  assert (He : fexp x <= fexp y) by (unfold fexp; lia).
  destruct (Z.eq_dec (fexp x) (fexp y)) as [E|E].
  - unfold round_pos. rewrite E.
    apply Qmult_le_compat_r; [| apply Qlt_le_weak, pow2_pos].
    rewrite <- Zle_Qle. apply rne_mono.
    apply Qmult_le_compat_r; [exact Hxy |].
    apply Qlt_le_weak, Qinv_lt_0_compat, pow2_pos.
  - pose proof (fexp_ge x) as [_ Hm].
    eapply Qle_trans; [apply round_pos_le_top, Hx |].
    eapply Qle_trans; [| apply round_pos_ge_bot; [exact Hy | lia]].
    pose proof (pow2_le (fexp x + 1) (fexp y) ltac:(lia)) as Hp.
    rewrite pow2_succ in Hp.
    change (inject_Z (2 ^ 53)) with (2 * inject_Z (2 ^ 52))%Q.
    pose proof (pow2_pos (fexp x)). 
    assert (0 < inject_Z (2 ^ 52))%Q by reflexivity.
    nra.
Qed.

Lemma round_pos_nonneg (x : Q) : (0 < x)%Q -> (0 <= round_pos x)%Q.
Proof.
  intros Hx. unfold round_pos.
  apply Qmult_le_0_compat; [| apply Qlt_le_weak, pow2_pos].
  change 0%Q with (inject_Z 0). rewrite <- Zle_Qle. apply rne_ge.
  apply Qle_shift_div_l; [apply pow2_pos |]. change (inject_Z 0) with 0%Q. lra.
Qed.

Lemma round_nonneg (x : Q) : (0 <= x)%Q -> (0 <= round x)%Q.
Proof.
  intros Hx. unfold round.
  destruct (Qcompare_spec x 0); try lra.
  rewrite Qred_correct. now apply round_pos_nonneg.
Qed.

Lemma round_mono (x y : Q) : (0 <= x)%Q -> (x <= y)%Q -> (round x <= round y)%Q.
Proof.
  intros Hx Hxy. unfold round at 1.
  destruct (Qcompare_spec x 0); try lra.
  - apply round_nonneg. lra.
  - unfold round. destruct (Qcompare_spec y 0); try lra.
    rewrite !Qred_correct. now apply round_pos_mono.
Qed.

End Float64_facts.

(** *** Facts on the float operations and on [calc_progress] *)

Section Progress_facts.

Import Float64 Float64_facts.

Lemma of_exact_Fin (q r : Q) : of_exact q = Fin r -> r = round q.
Proof. unfold of_exact. destruct (overflows _); congruence. Qed.

Lemma of_exact_small (q b : Q) :
  (0 <= q)%Q -> (q <= b)%Q -> (round b < 2 ^ 1024)%Q -> of_exact q = Fin (round q).
Proof.
  intros H0 Hb Hr. unfold of_exact, overflows.
  destruct (Qle_bool _ _) eqn:E; [exfalso | reflexivity].
  apply Qle_bool_iff in E.
  pose proof (round_nonneg q H0) as Hn.
  pose proof (round_mono q b H0 Hb) as Hm.
  rewrite Qabs_pos in E by assumption. lra.
Qed.

Lemma Qtrunc_nonneg (q : Q) : (0 <= q)%Q -> Qtrunc q = Qfloor q.
Proof.
  intros H. unfold Qtrunc. apply Qle_bool_iff in H. now rewrite H.
Qed.

Lemma Qfloor_nonneg (q : Q) : (0 <= q)%Q -> 0 <= Qfloor q.
Proof. intros H. apply Qfloor_resp_le in H. exact H. Qed.

Lemma frac_nonneg (k t : Z) : 0 <= k -> 0 < t -> (0 <= inject_Z k / inject_Z t)%Q.
Proof.
  intros Hk Ht. apply Qle_shift_div_l.
  - change 0%Q with (inject_Z 0). rewrite <- Zlt_Qlt. exact Ht.
  - rewrite Qmult_0_l. change 0%Q with (inject_Z 0). rewrite <- Zle_Qle. exact Hk.
Qed.


Lemma frac_le_1 (k t : Z) : k <= t -> 0 < t -> (inject_Z k / inject_Z t <= 1)%Q.
Proof.
  intros Hk Ht. apply Qle_shift_div_r.
  - change 0%Q with (inject_Z 0). rewrite <- Zlt_Qlt. exact Ht.
  - rewrite Qmult_1_l. rewrite <- Zle_Qle. exact Hk.
Qed.

Lemma calc_progress_inv (k t p : Z) :
  0 <= k -> 0 <= t -> calc_progress k t = Ok p -> 0 < t /\ p = progress_value k t.
Proof.
  intros Hk Ht. unfold calc_progress, int_truediv.
  destruct (Z.eqb_spec t 0) as [->|Hne]; [discriminate |].
  assert (Hpos : 0 < t) by lia.
  destruct (of_exact (inject_Z k / inject_Z t)) as [r| |] eqn:E1; try discriminate.
  apply of_exact_Fin in E1.
  unfold mbind, Res_bind. unfold float_mul.
  destruct (of_exact (r * 100)) as [r2| |] eqn:E2; try discriminate.
  apply of_exact_Fin in E2. simpl. intros [= <-]. split; [exact Hpos |].
  unfold progress_value. subst r2 r.
  rewrite Qtrunc_nonneg; [reflexivity |].
  apply round_nonneg.
  apply Qmult_le_0_compat; [| discriminate].
  apply round_nonneg, frac_nonneg; assumption.
Qed.

Lemma progress_value_range (k t : Z) :
  0 <= k -> 0 < t -> 0 <= progress_value k t <= 100.
Proof.
  intros Hk Ht. unfold progress_value. split; [| lia].
  apply Z.min_glb; [| lia].
  apply Qfloor_nonneg, round_nonneg.
  apply Qmult_le_0_compat; [| discriminate].
  apply round_nonneg, frac_nonneg; assumption.
Qed.


Lemma frac_le_num (k t : Z) :
  0 <= k -> 0 < t -> (inject_Z k / inject_Z t <= inject_Z k)%Q.
Proof.
  intros Hk Ht. apply Qle_shift_div_r.
  - change 0%Q with (inject_Z 0). rewrite <- Zlt_Qlt. exact Ht.
  - rewrite <- inject_Z_mult, <- Zle_Qle. nia.
Qed.

Lemma round_2p1000 : (round (inject_Z (2 ^ 1000)) == inject_Z (2 ^ 1000))%Q.
Proof. vm_compute. reflexivity. Qed.

Lemma round_100_2p1000 :
  (round (inject_Z (2 ^ 1000) * 100) == inject_Z (2 ^ 1000) * 100)%Q.
Proof. vm_compute. reflexivity. Qed.

(** With fewer than [2 ^ 1000] frames behind it the computation never
    leaves the float range. *)
Lemma calc_progress_total (k t : Z) :
  0 <= k <= 2 ^ 1000 -> 0 < t -> calc_progress k t = Ok (progress_value k t).
Proof.
  intros [Hk Hmax] Ht. unfold calc_progress, int_truediv.
  destruct (Z.eqb_spec t 0) as [->|Hne]; [lia |].
  pose proof (frac_nonneg k t Hk Ht) as H0.
  assert (H1 : (inject_Z k / inject_Z t <= inject_Z (2 ^ 1000))%Q).
  { eapply Qle_trans; [apply frac_le_num; assumption |]. now rewrite <- Zle_Qle. }
  rewrite (of_exact_small _ _ H0 H1) by (rewrite round_2p1000; vm_compute; reflexivity).
  unfold mbind, Res_bind, float_mul.
  pose proof (round_nonneg _ H0) as Hr0.
  pose proof (round_mono _ _ H0 H1) as Hr1. rewrite round_2p1000 in Hr1.
  rewrite (of_exact_small _ (inject_Z (2 ^ 1000) * 100)).
  - simpl. unfold progress_value. rewrite Qtrunc_nonneg; [reflexivity |].
    apply round_nonneg. lra.
  - lra.
  - lra.
  - rewrite round_100_2p1000. vm_compute. reflexivity.
Qed.

Lemma Qopp_opp (x : Q) : (- - x)%Q = x.
Proof. destruct x as [n d]. unfold Qopp. simpl. now rewrite Z.opp_involutive. Qed.

(** Rounding is symmetric. *)
Lemma round_neg (x : Q) : (x < 0)%Q -> (round x == - round (- x))%Q.
Proof.
  intros Hx. unfold round.
  destruct (Qcompare_spec x 0) as [?|_|?]; try lra.
  destruct (Qcompare_spec (- x) 0) as [?|?|_]; try lra.
  rewrite !Qred_correct. reflexivity.
Qed.

Lemma round_abs_le (q b : Q) : (Qabs q <= b)%Q -> (Qabs (round q) <= round b)%Q.
Proof.
  intros Hb. destruct (Qlt_le_dec q 0) as [Hq|Hq].
  - rewrite Qabs_neg in Hb by lra.
    rewrite (round_neg q Hq), Qabs_opp.
    pose proof (round_nonneg (- q) ltac:(lra)) as H0.
    rewrite Qabs_pos by exact H0. apply round_mono; lra.
  - rewrite Qabs_pos in Hb by exact Hq.
    rewrite Qabs_pos by now apply round_nonneg. now apply round_mono.
Qed.

Lemma of_exact_bounded (q b : Q) :
  (Qabs q <= b)%Q -> (round b < 2 ^ 1024)%Q -> of_exact q = Fin (round q).
Proof.
  intros Hb Hr. unfold of_exact, overflows.
  destruct (Qle_bool _ _) eqn:E; [exfalso | reflexivity].
  apply Qle_bool_iff in E. pose proof (round_abs_le q b Hb). lra.
Qed.

Lemma frac_abs_le (k t : Z) :
  0 <= k -> t <> 0 -> (Qabs (inject_Z k / inject_Z t) <= inject_Z k)%Q.
Proof.
  intros Hk Ht.
  assert (K0 : (0 <= inject_Z k)%Q).
  { change 0%Q with (inject_Z 0). now rewrite <- Zle_Qle. }
  destruct (Z_lt_le_dec t 0) as [Hneg|Hpos].
  - assert (Hopp : (inject_Z k / inject_Z t == - (inject_Z k / inject_Z (- t)))%Q).
    { rewrite inject_Z_opp. field. intros H0.
      assert (H1 : (inject_Z t < 0)%Q).
      { change 0%Q with (inject_Z 0). now rewrite <- Zlt_Qlt. }
      lra. }
    rewrite Hopp, Qabs_opp.
    rewrite Qabs_pos by (apply frac_nonneg; lia). apply frac_le_num; lia.
  - rewrite Qabs_pos by (apply frac_nonneg; lia). apply frac_le_num; lia.
Qed.

(** Whatever the sign of the total, the percentage of line 141 is computed
    as long as the total is not 0. *)
Lemma calc_progress_defined (k t : Z) :
  0 <= k <= 2 ^ 1000 -> t <> 0 -> exists p, calc_progress k t = Ok p.
Proof.
  intros [Hk Hmax] Ht. unfold calc_progress, int_truediv.
  destruct (Z.eqb_spec t 0) as [->|_]; [lia |].
  assert (H1 : (Qabs (inject_Z k / inject_Z t) <= inject_Z (2 ^ 1000))%Q).
  { eapply Qle_trans; [apply frac_abs_le; assumption |]. now rewrite <- Zle_Qle. }
  rewrite (of_exact_bounded _ _ H1) by (rewrite round_2p1000; vm_compute; reflexivity).
  unfold mbind, Res_bind, float_mul.
  pose proof (round_abs_le _ _ H1) as H2. rewrite round_2p1000 in H2.
  rewrite (of_exact_bounded _ (inject_Z (2 ^ 1000) * 100)).
  - simpl. eauto.
  - rewrite Qabs_Qmult. change (Qabs 100) with 100%Q.
    apply Qmult_le_compat_r; [exact H2 | discriminate].
  - rewrite round_100_2p1000. vm_compute. reflexivity.
Qed.




Lemma round_2p1023 : (round (inject_Z (2 ^ 1023)) == inject_Z (2 ^ 1023))%Q.
Proof. vm_compute. reflexivity. Qed.

(** [float(n)] succeeds on the frame numbers a video can have. *)
Lemma float_of_int_total (n : Z) :
  0 <= n <= 2 ^ 1023 -> exists r, float_of_int n = Ok (Fin r).
Proof.
  intros [H0 H1]. unfold float_of_int.
  rewrite (of_exact_small _ (inject_Z (2 ^ 1023))).
  - eauto.
  - change 0%Q with (inject_Z 0). now rewrite <- Zle_Qle.
  - now rewrite <- Zle_Qle.
  - rewrite round_2p1023. vm_compute. reflexivity.
Qed.

Lemma float_pos_not_zero (x : pyfloat) : float_pos x = true -> is_zero x = false.
Proof.
  destruct x as [q| |]; simpl; try reflexivity.
  intros H. apply negb_true_iff in H.
  destruct (Qeq_bool q 0) eqn:E; [| reflexivity].
  apply Qeq_bool_iff in E.
  assert (Hle : (q <= 0)%Q) by (rewrite E; apply Qle_refl).
  apply Qle_bool_iff in Hle. congruence.
Qed.

Lemma calc_progress_zero_total (k : Z) :
  calc_progress k 0 = Raise (mkExn ZeroDivisionError "division by zero").
Proof. reflexivity. Qed.

(** The rounding model agrees with [SpecFloat] on the first 120 frames of
    videos of several lengths. *)
Lemma calc_progress_matches_SpecFloat :
  forallb (fun t => forallb (same_progress t) (map Pos.of_nat (seq 1 120)))
          [1; 3; 7; 24; 100; 1000; 30000]%positive = true.
Proof. vm_compute. reflexivity. Qed.

End Progress_facts.

(** *** The mapping of raw results *)

Lemma extract_detection_wf (names : option (gmap Z string)) (box : RawBox) :
  wf_box box = true -> extract_detection names box = Ok (spec_detection names box).
Proof.
  destruct box as [[[|row ?]|] [[|c ?]|] [[|[q| |] ?]|]]; try discriminate; reflexivity.
Qed.

Lemma extract_boxes_wf (names : option (gmap Z string)) (boxes : list RawBox) :
  forall acc,
    forallb wf_box boxes = true ->
    extract_boxes names boxes acc = Ok (acc ++ map (spec_detection names) boxes).
Proof.
  induction boxes as [|b boxes IH]; intros acc H; simpl.
  - now rewrite app_nil_r.
  - apply andb_true_iff in H as [Hb Hrest].
    rewrite (extract_detection_wf _ _ Hb). unfold mbind, Res_bind.
    rewrite (IH _ Hrest), <- app_assoc. reflexivity.
Qed.

Lemma extract_frame_data_wf (fps : pyfloat) (result : RawResult) (k : Z) :
  wf_result result = true -> 0 <= k <= 2 ^ 1023 ->
  exists stamp boxes,
    res_boxes result = Some boxes /\
    extract_frame_data fps result k =
      Ok {| frame_number := k; timestamp := stamp;
            detections := map (spec_detection (res_names result)) boxes |}.
Proof.
  intros Hwf Hk. unfold wf_result in Hwf. unfold extract_frame_data.
  destruct (res_boxes result) as [boxes|]; [| discriminate].
  unfold mbind at 1, Res_bind at 1.
  rewrite (extract_boxes_wf _ _ [] Hwf). unfold mbind at 1, Res_bind at 1.
  destruct (float_pos fps) eqn:Hfps.
  - destruct (float_of_int_total k Hk) as [r Hr]. rewrite Hr.
    unfold mbind at 1, Res_bind at 1. unfold float_div.
    rewrite (float_pos_not_zero _ Hfps). unfold mbind, Res_bind. eauto.
  - unfold mbind, Res_bind. eauto.
Qed.

(** *** Rules for postconditions *)

Lemma wp_ret {A} (a : A) (s : State) (Q : Res A -> State -> Prop) :
  Q (Ok a) s -> wp (mret a) s Q.
Proof. exact id. Qed.

Lemma wp_raise {A} (e : PyExn) (s : State) (Q : Res A -> State -> Prop) :
  Q (Raise e) s -> wp (raise e) s Q.
Proof. exact id. Qed.

Lemma wp_lift {A} (r : Res A) (s : State) (Q : Res A -> State -> Prop) :
  Q r s -> wp (lift r) s Q.
Proof. exact id. Qed.

Lemma wp_bind {A B} (m : M A) (f : A -> M B) (s : State) (Q : Res B -> State -> Prop) :
  wp m s (fun r s' =>
            match r with
            | Ok a => wp (f a) s' Q
            | Raise e => Q (Raise e) s'
            end) ->
  wp (m ≫= f) s Q.
Proof.
  unfold wp, mbind, M_bind. destruct (m s) as [[a|e] s']; simpl; auto.
Qed.

Lemma wp_try {A} (m : M A) (h : PyExn -> M A) (s : State) (Q : Res A -> State -> Prop) :
  wp m s (fun r s' =>
            match r with
            | Ok a => Q (Ok a) s'
            | Raise e => wp (h e) s' Q
            end) ->
  wp (try_catch m h) s Q.
Proof.
  unfold wp, try_catch. destruct (m s) as [[a|e] s']; simpl; auto.
Qed.

Lemma wp_conseq {A} (m : M A) (s : State) (P Q : Res A -> State -> Prop) :
  wp m s P -> (forall r s', P r s' -> Q r s') -> wp m s Q.
Proof. unfold wp. auto. Qed.

(** *** The file operations leave the queue alone *)

Section Runner_facts.

Context (env : Env).

Lemma fs_op_kept {A} op (s : State) :
  wp (@fs_op env A op) s (fun _ s' => queue_kept s s').
Proof.
  unfold wp, fs_op, queue_kept. destruct (op _ _); simpl. auto.
Qed.

Lemma update_json_results_kept (path : Path) (fd : FrameRecord) (s : State) :
  wp (update_json_results env path fd) s (fun r s' => r = Ok tt /\ queue_kept s s').
Proof.
  unfold update_json_results. apply wp_try, wp_bind.
  eapply wp_conseq; [apply fs_op_kept |]. intros [data|e] s1 [Hc Hp].
  - apply wp_bind, wp_lift. destruct (append_frame data fd) as [data'|e].
    + eapply wp_conseq; [apply fs_op_kept |]. intros [[]|e] s2 [Hc2 Hp2].
      * split; [reflexivity |]. split; congruence.
      * apply wp_ret. split; [reflexivity |]. split; congruence.
    + apply wp_ret. split; [reflexivity |]. split; congruence.
  - apply wp_ret. split; [reflexivity |]. split; congruence.
Qed.


(** What one push does. *)
Lemma wp_push (p : Z) (s : State) (Q : Res unit -> State -> Prop) :
  (forall r s',
      calls s' = calls s ++ [p] ->
      fs s' = fs s ->
      match r with
      | Ok _ => push_fault env (length (calls s)) = None /\ progress s' = Some p
      | Raise e => push_fault env (length (calls s)) = Some e /\ progress s' = progress s
      end ->
      Q r s') ->
  wp (updateProgress env p) s Q.
Proof.
  intros H. unfold wp, updateProgress.
  destruct (push_fault env (length (calls s))) eqn:E; simpl; apply H; simpl; auto.
Qed.

Lemma loop_pushes_nil (t k : Z) : loop_pushes t k [].
Proof. intros i p H. discriminate. Qed.

Lemma loop_pushes_cons (t k p : Z) (l : list Z) :
  calc_progress (k + 1) t = Ok p -> loop_pushes t (k + 1) l -> loop_pushes t k (p :: l).
Proof.
  intros Hp Hl [|i] q H; simpl in H.
  - injection H as <-. now rewrite Z.add_0_r.
  - apply Hl in H. rewrite <- H. f_equal. lia.
Qed.

(** The loop pushes, in order, the progress of the frames it reaches. *)
Lemma frame_loop_trace (id : string) (t : Z) (fps : pyfloat) (rs : list RawResult) :
  forall (k : Z) (s : State),
    wp (frame_loop env id t fps rs k) s
       (fun _ s' => exists l, calls s' = calls s ++ l /\ loop_pushes t k l).
Proof.
  induction rs as [|r rs IH]; intros k s; cbn [frame_loop].
  - exists []. rewrite app_nil_r. split; [| apply loop_pushes_nil].
    destruct (stream_fault env); reflexivity.
  - apply wp_bind, wp_lift.
    destruct (calc_progress (k + 1) t) as [p|e] eqn:Ep.
    2:{ exists []. rewrite app_nil_r. split; [reflexivity | apply loop_pushes_nil]. }
    apply wp_bind, wp_push. intros [[]|e] s1 Hc1 _ _.
    2:{ exists [p]. split; [exact Hc1 |].
        apply loop_pushes_cons; [exact Ep | apply loop_pushes_nil]. }
    apply wp_bind, wp_lift.
    destruct (extract_frame_data fps r (k + 1)) as [fd|e].
    2:{ exists [p]. split; [exact Hc1 |].
        apply loop_pushes_cons; [exact Ep | apply loop_pushes_nil]. }
    apply wp_bind.
    eapply wp_conseq; [apply update_json_results_kept |].
    intros r2 s2 [-> [Hc2 _]].
    eapply wp_conseq; [apply IH |].
    intros r3 s3 (l & Hc3 & Hl). exists (p :: l). split.
    + rewrite Hc3, Hc2, Hc1, <- app_assoc. reflexivity.
    + apply loop_pushes_cons; assumption.
Qed.

(** The pushes of the body, whatever fails. *)
Lemma predict_body_trace (job : Job) (s : State) :
  wp (predict_body env job) s
     (fun r s' =>
        exists l, calls s' = calls s ++ l /\ body_trace (cap_frame_count env) l /\
                  match r with
                  | Ok _ => last l = Some 100 /\ progress s' = Some 100
                  | Raise _ => True
                  end).
Proof.
  unfold predict_body. apply wp_bind.
  eapply wp_conseq; [apply fs_op_kept |]. intros [[]|e] s1 [Hc1 _].
  2:{ exists []. rewrite app_nil_r. repeat split; [exact Hc1 | constructor]. }
  destruct (String.eqb video_path "" || negb (video_exists env)).
  - apply wp_bind, wp_push. intros [[]|e] s2 Hc2 _ _.
    2:{ exists [100]. rewrite Hc2, Hc1. repeat split. constructor. }
    apply wp_bind, wp_raise.
    exists [100]. rewrite Hc2, Hc1. repeat split. constructor.
  - apply wp_bind. unfold load_model. destruct (model_load env) as [e|].
    { apply wp_raise. exists []. rewrite app_nil_r. repeat split; [exact Hc1 | constructor]. }
    apply wp_ret, wp_bind.
    eapply wp_conseq; [apply fs_op_kept |]. intros [[]|e] s2 [Hc2 _].
    2:{ exists []. rewrite app_nil_r. repeat split; [congruence | constructor]. }
    apply wp_bind, wp_push. intros [[]|e] s3 Hc3 _ _.
    2:{ exists [0]. repeat split; [congruence |].
        apply trace_loop, loop_pushes_nil. }
    apply wp_bind.
    eapply wp_conseq; [apply frame_loop_trace |].
    intros [n|e] s4 (l & Hc4 & Hl).
    2:{ exists (0 :: l). split; [| split; [now constructor | exact I]].
        rewrite Hc4, Hc3, Hc2, Hc1, <- app_assoc. reflexivity. }
    apply wp_bind, wp_push. intros [[]|e] s5 Hc5 _ Hp5.
    + apply wp_ret. exists (0 :: l ++ [100]). split; [| split; [now constructor |]].
      * rewrite Hc5, Hc4, Hc3, Hc2, Hc1, <- !app_assoc. reflexivity.
      * split; [| apply Hp5].
        change (0 :: l ++ [100]) with ((0 :: l) ++ [100]). apply last_snoc.
    + exists (0 :: l ++ [100]). split; [| split; [now constructor | exact I]].
      rewrite Hc5, Hc4, Hc3, Hc2, Hc1, <- !app_assoc. reflexivity.
Qed.

End Runner_facts.

(** *** Paths *)

Lemma append_assoc (a b c : string) : (a +:+ b) +:+ c = a +:+ (b +:+ c).
Proof.
  induction a as [|x a IH]; [reflexivity |].
  change (String x ((a +:+ b) +:+ c) = String x (a +:+ (b +:+ c))). now rewrite IH.
Qed.

Lemma append_inv_head (a x y : string) : a +:+ x = a +:+ y -> x = y.
Proof. apply (inj (String.app a)). Qed.

Lemma split_slash_cons (s : string) : exists x xs, split_slash s = x :: xs.
Proof.
  induction s as [|c r (x & xs & IH)]; [now exists "", [] |]. cbn [split_slash].
  destruct (Ascii.eqb c "/"); [eauto |]. rewrite IH. eauto.
Qed.

Lemma split_slash_app (a b : string) :
  split_slash (a +:+ "/" +:+ b) = split_slash a ++ split_slash b.
Proof.
  induction a as [|c r IH]; [reflexivity |].
  change (String c r +:+ "/" +:+ b) with (String c (r +:+ "/" +:+ b)).
  cbn [split_slash]. rewrite IH.
  destruct (Ascii.eqb c "/"); [reflexivity |].
  now destruct (split_slash_cons r) as (x & xs & ->).
Qed.

(** The error record lies in the job's directory. *)
Lemma error_json_path_parts (id : string) :
  error_json_path id = output_dir id ++ ["error.json"].
Proof.
  unfold error_json_path, output_dir, Path_of.
  change "/error.json" with ("/" +:+ "error.json").
  rewrite <- append_assoc, split_slash_app, List.filter_app. reflexivity.
Qed.

Lemma resolve_snoc (p : Path) (name : string) :
  name <> ".." ->
  forall stack, resolve stack (p ++ [name]) = resolve stack p ++ [name].
Proof.
  intros Hn. apply String.eqb_neq in Hn.
  induction p as [|c p IH]; intros stack; cbn [resolve app].
  - now rewrite Hn.
  - destruct (String.eqb c ".."); [| apply IH].
    destruct stack as [|x rest]; [apply IH |].
    destruct (String.eqb x ".."); apply IH.
Qed.

Lemma path_str_snoc (p : Path) (name : string) :
  path_str (p ++ [name]) = match p with
                           | [] => name
                           | _ => path_str p +:+ "/" +:+ name
                           end.
Proof.
  destruct p as [|c cs]; [reflexivity |]. cbn [path_str app].
  now rewrite fold_left_app.
Qed.

(** Two files of one directory are the same only if their names are. *)
Lemma location_snoc_inj (p : Path) (a b : string) :
  a <> ".." -> b <> ".." -> location (p ++ [a]) = location (p ++ [b]) -> a = b.
Proof.
  intros Ha Hb. unfold location. rewrite !resolve_snoc, !path_str_snoc by assumption.
  destruct (resolve [] p); [trivial |].
  intros H. now apply append_inv_head, append_inv_head in H.
Qed.

(** The result document and the error record are different files. *)
Lemma result_path_not_error_path (id : string) :
  location (error_json_path id) <> location (final_json_path id).
Proof.
  rewrite error_json_path_parts. unfold final_json_path. intros H.
  apply location_snoc_inj in H; discriminate.
Qed.

(** The paths of some job ids, as [pathlib] writes them and as the file
    system resolves them, and [os.path.dirname] on some paths. *)
Lemma paths_of_some_ids :
  path_str (final_json_path "42") = "temp_results/42/results.json" /\
  path_str (final_json_path "42/") = "temp_results/42/results.json" /\
  path_str (final_json_path "a//b/./c") = "temp_results/a/b/c/results.json" /\
  path_str (final_json_path "") = "temp_results/results.json" /\
  path_str (final_json_path "7/../42") = "temp_results/7/../42/results.json" /\
  location (final_json_path "7/../42") = "temp_results/42/results.json" /\
  location (error_json_path "7/../42") = "temp_results/42/error.json" /\
  location (final_json_path "..") = "results.json" /\
  dirname (path_str (error_json_path "42")) = "temp_results/42" /\
  dirname "/error.json" = "/" /\ dirname "a//b.json" = "a" /\
  dirname "error.json" = "" /\ dirname "a/b/" = "a/b".
Proof. repeat split; vm_compute; reflexivity. Qed.

(** *** The [except] clause *)

Section Handler_facts.

Context (env : Env).

(** The guarded write of the error record never raises and touches no
    other file. *)
Lemma error_write_spec (job : Job) (msg : string) (s : State) :
  wp (try_catch
        (mkdir env (dirname (path_str (error_json_path (job_id job))));;
         write_json env (error_json_path (job_id job)) (ErrorDoc msg None))
        (fun _ => mret tt)) s
     (fun r s' =>
        r = Ok tt /\ queue_kept s s' /\
        fs s' !! location (final_json_path (job_id job)) = fs s !! location (final_json_path (job_id job)) /\
        (io_fault env (io_ops s) = None -> io_fault env (S (io_ops s)) = None ->
         fs s' !! location (error_json_path (job_id job)) = Some (Intact (ErrorDoc msg None)))).
Proof.
  pose proof (result_path_not_error_path (job_id job)) as Hne.
  unfold wp, try_catch, mbind, M_bind, mkdir, write_json, fs_op, queue_kept, mret, M_ret.
  destruct (io_fault env (io_ops s)) as [f0|]; simpl.
  { repeat split; auto. discriminate. }
  destruct (io_fault env (S (io_ops s))) as [[e1|e1]|]; simpl;
    repeat split; auto; try discriminate.
  - now rewrite lookup_insert_ne.
  - now rewrite lookup_insert_ne.
  - intros _ _. now rewrite lookup_insert_eq.
Qed.

Lemma on_exception_spec (job : Job) (e : PyExn) (s : State) :
  wp (on_exception env job e) s
     (fun r s' =>
        calls s' = calls s ++ [100] /\
        fs s' !! location (final_json_path (job_id job)) = fs s !! location (final_json_path (job_id job)) /\
        match push_fault env (length (calls s)) with
        | Some e' => r = Raise e' /\ progress s' = progress s
        | None =>
            r = Ok (Error (str e)) /\ progress s' = Some 100 /\
            (io_fault env (io_ops s) = None -> io_fault env (S (io_ops s)) = None ->
             fs s' !! location (error_json_path (job_id job)) = Some (Intact (ErrorDoc (str e) None)))
        end).
Proof.
  unfold on_exception. apply wp_bind.
  unfold wp at 1, updateProgress.
  destruct (push_fault env (length (calls s))) as [e'|]; simpl.
  { auto. }
  apply wp_bind.
  eapply wp_conseq; [apply error_write_spec |].
  intros r s1 (-> & [Hc Hp] & Hres & Herr). apply wp_ret.
  simpl in *. repeat split; auto.
Qed.

(** How [predict] ends, from how its body ends. *)
Lemma predict_spec (job : Job) (s : State) (Q : Res Outcome -> State -> Prop) :
  wp (predict_body env job) s
     (fun r s1 =>
        match r with
        | Ok o => Q (Ok o) s1
        | Raise e => wp (on_exception env job e) s1 Q
        end) ->
  wp (predict env job) s Q.
Proof. apply wp_try. Qed.

End Handler_facts.

(** *** Sorted traces *)



Lemma loop_pushes_value (t k : Z) (l : list Z) (i : nat) (p : Z) :
  0 <= t -> 0 <= k -> loop_pushes t k l -> l !! i = Some p ->
  0 < t /\ p = progress_value (k + 1 + Z.of_nat i) t.
Proof.
  intros Ht Hk Hl Hi. apply Hl in Hi. apply calc_progress_inv in Hi; [exact Hi | lia | lia].
Qed.

Lemma loop_pushes_range (t k : Z) (l : list Z) :
  0 <= t -> 0 <= k -> loop_pushes t k l -> Forall (fun p => 0 <= p <= 100) l.
Proof.
  intros Ht Hk Hl. apply Forall_lookup. intros i p Hi.
  destruct (loop_pushes_value t k l i p Ht Hk Hl Hi) as [Hpos ->].
  apply progress_value_range; lia.
Qed.






Lemma body_trace_range (t : Z) (l : list Z) :
  0 <= t -> body_trace t l -> Forall (fun p => 0 <= p <= 100) l.
Proof.
  intros Ht [| |l' Hl|l' Hl].
  - constructor.
  - repeat constructor; lia.
  - constructor; [lia |]. now apply (loop_pushes_range t 0).
  - constructor; [lia |]. apply Forall_app. split.
    + now apply (loop_pushes_range t 0).
    + repeat constructor; lia.
Qed.




(** *** Progress reporting *)




(** *** Delivery of the pushes and the frames behind them *)

Lemma extract_frame_data_number (fps : pyfloat) (r : RawResult) (k : Z) (fd : FrameRecord) :
  extract_frame_data fps r k = Ok fd -> frame_number fd = k.
Proof.
  unfold extract_frame_data, mbind, Res_bind.
  destruct (res_boxes r); [| discriminate].
  destruct (extract_boxes _ _ _); [| discriminate].
  destruct (if float_pos fps then _ else _); [| discriminate].
  now intros [= <-].
Qed.

Section Aftermath_facts.

Context (env : Env) (id : string).

Lemma frames_below_mono (s : State) (b b' : Z) :
  b <= b' -> frames_below s id b -> frames_below s id b'.
Proof.
  intros Hb H vi ji frames Hf. eapply Forall_impl; [exact (H vi ji frames Hf) |].
  simpl. lia.
Qed.

Lemma frames_below_same (s s' : State) (b : Z) :
  fs s' !! location (final_json_path id) = fs s !! location (final_json_path id) ->
  frames_below s id b -> frames_below s' id b.
Proof. intros Hf H vi ji frames Hl. rewrite Hf in Hl. eauto. Qed.

(** Writing [c] somewhere keeps the bound if [c] itself respects it. *)
Lemma frames_below_insert (s s' : State) (path : string) (c : FileContent) (b : Z) :
  fs s' = <[path := c]> (fs s) ->
  (path = location (final_json_path id) ->
   forall vi ji frames, c = Intact (ResultsDoc vi ji frames) ->
                        Forall (fun f => frame_number f < b) frames) ->
  frames_below s id b -> frames_below s' id b.
Proof.
  intros Hf Hc H vi ji frames Hl. rewrite Hf in Hl.
  destruct (decide (path = location (final_json_path id))) as [Heq|Hne].
  - subst path. rewrite lookup_insert_eq in Hl. injection Hl as ->. eauto.
  - rewrite lookup_insert_ne in Hl by exact Hne. eauto.
Qed.

Lemma settled_broken (s : State) : settled env id s -> broken env id s.
Proof.
  intros [Hok Hfr]. split; [| split].
  - intros i Hi. apply Hok. lia.
  - exact Hfr.
  - intros i Hi Hne. exfalso. apply Hne, Hok. lia.
Qed.

(** A computation that leaves the queue and the bound on the frames. *)
Lemma aftermath_kept {A} (m : M A) (s : State) :
  wp m s (fun _ s' => queue_kept s s' /\
                      forall b, frames_below s id b -> frames_below s' id b) ->
  wp m s (aftermath env id s).
Proof.
  unfold wp. destruct (m s) as [r s1]. simpl. intros [[Hc _] Hfr] [Hok Hb].
  assert (Hs : settled env id s1).
  { split; [| rewrite Hc; now apply Hfr].
    intros i Hi. rewrite Hc in Hi. now apply Hok. }
  destruct r; [exact Hs | now apply settled_broken].
Qed.

Lemma aftermath_push (p : Z) (s : State) : wp (updateProgress env p) s (aftermath env id s).
Proof.
  apply wp_push. intros [[]|e] s1 Hc Hfs [Hf _] [Hok Hb].
  - split.
    + intros i Hi. rewrite Hc, length_app in Hi. simpl in Hi.
      destruct (Nat.eq_dec i (length (calls s))) as [->|]; [exact Hf | apply Hok; lia].
    + rewrite Hc, length_app. simpl.
      eapply frames_below_mono; [| eapply frames_below_same; [| exact Hb]]; [lia |].
      now rewrite Hfs.
  - assert (Hb1 : frames_below s1 id (Z.of_nat (length (calls s)))).
    { eapply frames_below_same; [| exact Hb]. now rewrite Hfs. }
    split; [| split].
    + intros i Hi. rewrite Hc, length_app in Hi. simpl in Hi. apply Hok. lia.
    + rewrite Hc, length_app. simpl. eapply frames_below_mono; [| exact Hb1]. lia.
    + intros i Hi _. rewrite Hc, length_app in Hi. simpl in Hi.
      replace i with (length (calls s)) by lia. exact Hb1.
Qed.

Lemma aftermath_mkdir (path : string) (s : State) :
  wp (mkdir env path) s (aftermath env id s).
Proof.
  apply aftermath_kept. unfold wp, mkdir, fs_op, queue_kept.
  destruct (io_fault env (io_ops s)); simpl; auto.
Qed.

(** The header is written without frames. *)
Lemma aftermath_write_header (path : Path) (vi : VideoInfo) (ji : JobInfo) (s : State) :
  wp (write_json env path (ResultsDoc vi ji [])) s (aftermath env id s).
Proof.
  apply aftermath_kept. unfold wp, write_json, fs_op, queue_kept.
  destruct (io_fault env (io_ops s)) as [[e|e]|]; simpl; (split; [auto |]); intros b Hb.
  - exact Hb.
  - eapply frames_below_insert; [reflexivity | | exact Hb]. discriminate.
  - eapply frames_below_insert; [reflexivity | | exact Hb].
    intros _ ? ? ? [= _ _ <-]. constructor.
Qed.

(** An append keeps every bound above the number of its frame. *)
Lemma update_json_results_frames (path : Path) (fd : FrameRecord) (s : State) :
  wp (update_json_results env path fd) s
     (fun r s' =>
        r = Ok tt /\ queue_kept s s' /\
        forall b, frame_number fd < b -> frames_below s id b -> frames_below s' id b).
Proof.
  unfold wp, update_json_results, try_catch, mbind, M_bind, read_json, write_json,
    lift, fs_op, queue_kept, mret, M_ret.
  destruct (io_fault env (io_ops s)) as [f0|]; simpl.
  { auto. }
  destruct (fs s !! location path) as [[doc|]|] eqn:Hl; simpl; auto.
  destruct doc as [vi ji frames|msg st]; simpl; auto.
  destruct (io_fault env (S (io_ops s))) as [[e|e]|]; simpl;
    (split; [reflexivity |]); (split; [auto |]); intros b Hfd Hb.
  - exact Hb.
  - eapply frames_below_insert; [reflexivity | | exact Hb]. discriminate.
  - eapply frames_below_insert; [reflexivity | | exact Hb].
    intros Hp vi' ji' frames' [= <- <- <-]. rewrite Hp in Hl.
    apply Forall_app. split; [| repeat constructor; exact Hfd].
    exact (Hb vi ji frames Hl).
Qed.

Lemma wp_and {A} (m : M A) (s : State) (P Q : Res A -> State -> Prop) :
  wp m s P -> wp m s Q -> wp m s (fun r s' => P r s' /\ Q r s').
Proof. unfold wp. auto. Qed.

Lemma push_calls (p : Z) (s : State) :
  wp (updateProgress env p) s (fun _ s' => calls s' = calls s ++ [p]).
Proof. apply wp_push. auto. Qed.

Lemma ending_frame_loop (t : Z) (fps : pyfloat) (rs : list RawResult) :
  forall (k : Z) (s : State),
    settled env id s -> Z.of_nat (length (calls s)) = k + 1 ->
    wp (frame_loop env id t fps rs k) s (ending env id).
Proof.
  induction rs as [|r rs IH]; intros k s Hs Hlen; cbn [frame_loop].
  - destruct (stream_fault env); [apply wp_raise, settled_broken, Hs | apply wp_ret, Hs].
  - apply wp_bind, wp_lift.
    destruct (calc_progress (k + 1) t) as [p|e]; [| apply settled_broken, Hs].
    apply wp_bind.
    eapply wp_conseq; [apply wp_and; [apply aftermath_push | apply push_calls] |].
    intros [[]|e] s1 [Ha Hc]; specialize (Ha Hs); [| exact Ha].
    apply wp_bind, wp_lift.
    destruct (extract_frame_data fps r (k + 1)) as [fd|e] eqn:Efd;
      [| apply settled_broken, Ha].
    apply extract_frame_data_number in Efd.
    apply wp_bind.
    eapply wp_conseq; [apply update_json_results_frames |].
    intros r2 s2 (-> & [Hc2 _] & Hfr).
    assert (Hlen1 : Z.of_nat (length (calls s1)) = k + 2).
    { rewrite Hc, length_app. simpl. lia. }
    apply IH.
    + destruct Ha as [Hok Hb]. split.
      * intros i Hi. rewrite Hc2 in Hi. now apply Hok.
      * rewrite Hc2. apply Hfr; [lia | exact Hb].
    + rewrite Hc2. lia.
Qed.

End Aftermath_facts.

(** The body of [predict], started before any push. *)
Lemma ending_predict_body (env : Env) (job : Job) (s : State) :
  settled env (job_id job) s -> calls s = [] ->
  wp (predict_body env job) s (ending env (job_id job)).
Proof.
  intros Hs Hc. unfold predict_body.
  apply wp_bind.
  eapply wp_conseq; [apply wp_and; [apply aftermath_mkdir | apply fs_op_kept] |].
  intros [[]|e] s1 [Ha [Hc1 _]]; specialize (Ha Hs); [| exact Ha].
  destruct (String.eqb video_path "" || negb (video_exists env)).
  - apply wp_bind.
    eapply wp_conseq; [apply aftermath_push |].
    intros [[]|e] s2 Ha2; specialize (Ha2 Ha); [| exact Ha2].
    apply wp_bind, wp_raise, settled_broken, Ha2.
  - apply wp_bind. unfold load_model.
    destruct (model_load env); [apply wp_raise, settled_broken, Ha | apply wp_ret].
    apply wp_bind.
    eapply wp_conseq; [apply wp_and; [apply aftermath_write_header | apply fs_op_kept] |].
    intros [[]|e] s2 [Ha2 [Hc2 _]]; specialize (Ha2 Ha); [| exact Ha2].
    apply wp_bind.
    eapply wp_conseq; [apply wp_and; [apply aftermath_push | apply push_calls] |].
    intros [[]|e] s3 [Ha3 Hc3]; specialize (Ha3 Ha2); [| exact Ha3].
    apply wp_bind.
    eapply wp_conseq.
    { apply (ending_frame_loop env (job_id job) _ _ _ 0 s3 Ha3).
      rewrite Hc3, Hc2, Hc1, Hc. reflexivity. }
    intros [n|e] s4 Ha4; [| exact Ha4].
    apply wp_bind.
    eapply wp_conseq; [apply aftermath_push |].
    intros [[]|e] s5 Ha5; specialize (Ha5 Ha4); [| exact Ha5].
    apply wp_ret, Ha5.
Qed.

Lemma settled_init (env : Env) (id : string) : settled env id init.
Proof.
  split.
  - intros i Hi. simpl in Hi. lia.
  - intros vi ji frames Hl. discriminate.
Qed.

(** *** The last push *)

(** C1, as stated, fails: the broker goes away after the first push.  The
    push of the first frame raises, so does the push of 100 of the [except]
    clause; its exception leaves [predict] and the queue keeps progress 0. *)
Lemma C1_lost_push_leaves_progress_below_100 :
  (run sc_broker_lost job_a).1 = Raise broker_down /\
  calls (run sc_broker_lost job_a).2 = [0; 50; 100] /\
  progress (run sc_broker_lost job_a).2 = Some 0.
Proof. repeat split; vm_compute; reflexivity. Qed.

(** C1, amended: whichever way a run ends (rejected input, exception
    anywhere in the body, normal completion), the last value passed to
    [updateProgress] is 100.  When that last push is delivered the queue
    holds 100 and [predict] returns a result.  When it raises, it is the
    push of the [except] clause: its exception leaves [predict] and the
    queue keeps the progress it had when the body was left. *)
Theorem C1_last_push_is_100 (env : Env) (job : Job) :
  last (calls (run env job).2) = Some 100 /\
  match push_fault env (length (calls (run env job).2) - 1) with
  | None =>
      progress (run env job).2 = Some 100 /\ exists o, (run env job).1 = Ok o
  | Some e =>
      (run env job).1 = Raise e /\
      exists e0 s1,
        predict_body env job init = (Raise e0, s1) /\
        progress (run env job).2 = progress s1
  end.
Proof.
  pose proof (predict_body_trace env job init) as Htr.
  pose proof (ending_predict_body env job init (settled_init env _) eq_refl) as Hend.
  unfold run, predict, try_catch, wp in *.
  destruct (predict_body env job init) as [[o|e0] s1] eqn:Hb; simpl in Htr, Hend.
  - destruct Htr as (l & Hc & _ & Hl & Hp). destruct Hend as [Hok _]. simpl.
    rewrite Hc, Hl. split; [reflexivity |].
    assert (Hlen : (0 < length l)%nat) by (destruct l; [discriminate | simpl; lia]).
    rewrite (Hok (length l - 1)%nat) by (rewrite Hc; lia). eauto.
  - pose proof (on_exception_spec env job e0 s1) as H. unfold wp in H.
    destruct (on_exception env job e0 s1) as [r s2]. simpl in *.
    destruct H as (Hc2 & _ & H2). rewrite Hc2, last_snoc, length_app. simpl.
    replace (length (calls s1) + 1 - 1)%nat with (length (calls s1)) by lia.
    split; [reflexivity |].
    destruct (push_fault env (length (calls s1))).
    + destruct H2 as [-> Hp]. eauto.
    + destruct H2 as (-> & Hp & _). eauto.
Qed.

(** *** Runs in which the sink and the queue work *)

Section Quiet_facts.

Context (env : Env).
Hypothesis Hpush : forall i, push_fault env i = None.
Hypothesis Hio : forall i, io_fault env i = None.

Lemma mkdir_quiet (path : string) (s : State) :
  wp (mkdir env path) s (fun r s' => r = Ok tt /\ fs s' = fs s).
Proof. unfold wp, mkdir, fs_op. rewrite Hio. simpl. auto. Qed.

Lemma write_json_quiet (path : Path) (doc : Json) (s : State) :
  wp (write_json env path doc) s
     (fun r s' => r = Ok tt /\ fs s' = <[location path := Intact doc]> (fs s)).
Proof. unfold wp, write_json, fs_op. rewrite Hio. simpl. auto. Qed.

Lemma push_quiet (p : Z) (s : State) :
  wp (updateProgress env p) s (fun r s' => r = Ok tt /\ fs s' = fs s).
Proof. unfold wp, updateProgress. rewrite Hpush. simpl. auto. Qed.

(** An append on an intact result document adds the frame at its end. *)
Lemma update_json_results_quiet (path : Path) (fd : FrameRecord)
    (vi : VideoInfo) (ji : JobInfo) (frs : list FrameRecord) (s : State) :
  fs s !! location path = Some (Intact (ResultsDoc vi ji frs)) ->
  wp (update_json_results env path fd) s
     (fun r s' =>
        r = Ok tt /\ fs s' = <[location path := Intact (ResultsDoc vi ji (frs ++ [fd]))]> (fs s)).
Proof.
  intros Hf.
  unfold wp, update_json_results, try_catch, mbind, M_bind, read_json, write_json,
    lift, fs_op.
  rewrite Hio. simpl. rewrite Hf. simpl. rewrite Hio. simpl. auto.
Qed.

Lemma frame_loop_quiet (id : string) (t : Z) (fps : pyfloat) (vi : VideoInfo)
    (ji : JobInfo) (rs : list RawResult) :
  forall (k : Z) (frs : list FrameRecord) (s : State),
    0 <= k -> k + Z.of_nat (length rs) <= 2 ^ 1000 -> rs = [] \/ t <> 0 ->
    Forall (fun r => wf_result r = true) rs ->
    fs s !! location (final_json_path id) = Some (Intact (ResultsDoc vi ji frs)) ->
    wp (frame_loop env id t fps rs k) s
       (fun r s' =>
          r = match stream_fault env with
              | Some e => Raise e
              | None => Ok (k + Z.of_nat (length rs))
              end /\
          exists new,
            fs s' = <[location (final_json_path id) := Intact (ResultsDoc vi ji (frs ++ new))]> (fs s) /\
            map frame_number new = seqZ (k + 1) (Z.of_nat (length rs))).
Proof.
  induction rs as [|r rs IH]; intros k frs s Hk Hlen Ht Hwf Hf; cbn [frame_loop].
  - split.
    + destruct (stream_fault env); unfold wp; simpl; [reflexivity |].
      now rewrite Z.add_0_r.
    + exists []. rewrite app_nil_r. split; [| reflexivity].
      rewrite insert_id; [| exact Hf]. destruct (stream_fault env); reflexivity.
  - apply Forall_cons in Hwf as [Hr Hrs]. cbn [length] in Hlen |- *.
    destruct Ht as [|Ht]; [discriminate |].
    assert (2 ^ 1000 <= 2 ^ 1023) by (apply Z.pow_le_mono_r; lia).
    apply wp_bind, wp_lift.
    destruct (calc_progress_defined (k + 1) t ltac:(lia) Ht) as [p ->].
    apply wp_bind. eapply wp_conseq; [apply push_quiet |]. intros ? s1 [-> Hf1].
    apply wp_bind, wp_lift.
    destruct (extract_frame_data_wf fps r (k + 1) Hr ltac:(lia)) as (stamp & boxes & _ & ->).
    set (fd := {| frame_number := k + 1; timestamp := stamp; detections := _ |}).
    apply wp_bind.
    eapply wp_conseq; [apply (update_json_results_quiet _ fd vi ji frs); congruence |].
    intros ? s2 [-> Hf2].
    eapply wp_conseq.
    { apply (IH (k + 1) (frs ++ [fd]) s2); [lia | lia | now right | exact Hrs |].
      rewrite Hf2. apply lookup_insert_eq. }
    intros r3 s3 [-> (new & Hf3 & Hnew)]. split.
    + destruct (stream_fault env); [reflexivity |]. f_equal. lia.
    + exists (fd :: new). split.
      * rewrite Hf3, Hf2, Hf1, insert_insert_eq, <- app_assoc. reflexivity.
      * rewrite (seqZ_cons (k + 1)) by lia. cbn [map frame_number fd]. f_equal.
        rewrite Hnew. f_equal; lia.
Qed.

(** The body of [predict] when moreover the video is there, the model loads
    and the detector's results are well formed. *)
Lemma predict_body_quiet (job : Job) (s : State) :
  video_exists env = true -> model_load env = None ->
  Forall (fun r => wf_result r = true) (stream env) ->
  Z.of_nat (length (stream env)) <= 2 ^ 1000 ->
  stream env = [] \/ cap_frame_count env <> 0 ->
  wp (predict_body env job) s
     (fun r s' =>
        r = match stream_fault env with
            | Some e => Raise e
            | None => Ok (Success (Z.of_nat (length (stream env))) (cap_frame_count env)
                            (path_str (final_json_path (job_id job))))
            end /\
        exists vi ji frames,
          fs s' = <[location (final_json_path (job_id job)) := Intact (ResultsDoc vi ji frames)]> (fs s) /\
          map frame_number frames = seqZ 1 (Z.of_nat (length (stream env)))).
Proof.
  intros Hv Hm Hwf Hlen Ht. unfold predict_body.
  apply wp_bind. eapply wp_conseq; [apply mkdir_quiet |]. intros ? s1 [-> Hf1].
  rewrite Hv. cbn [negb orb String.eqb video_path Ascii.eqb].
  change (String.eqb video_path "") with false. cbn [orb].
  apply wp_bind. unfold load_model. rewrite Hm. apply wp_ret.
  apply wp_bind. eapply wp_conseq; [apply write_json_quiet |]. intros ? s2 [-> Hf2].
  apply wp_bind. eapply wp_conseq; [apply push_quiet |]. intros ? s3 [-> Hf3].
  apply wp_bind.
  eapply wp_conseq.
  { eapply (frame_loop_quiet _ _ _ _ _ _ 0 [] s3); [lia | lia | exact Ht | exact Hwf |].
    rewrite Hf3, Hf2. apply lookup_insert_eq. }
  intros r4 s4 [-> (new & Hf4 & Hnew)].
  assert (Hfs : fs s4 = <[location (final_json_path (job_id job)) :=
                           Intact (ResultsDoc
                             {| vi_path := video_path;
                                vi_total_frames := cap_frame_count env;
                                vi_fps := cap_fps env; vi_width := cap_width env;
                                vi_height := cap_height env |}
                             {| ji_id := job_id job; ji_model := model_path;
                                ji_confidence := confidence |} new)]> (fs s)).
  { rewrite Hf4, Hf3, Hf2, Hf1, insert_insert_eq. reflexivity. }
  destruct (stream_fault env) as [e|].
  - split; [reflexivity |]. eauto.
  - apply wp_bind. eapply wp_conseq; [apply push_quiet |]. intros ? s5 [-> Hf5].
    apply wp_ret. split; [reflexivity |]. rewrite Hf5. eauto.
Qed.

End Quiet_facts.

(** *** Two paths that always end in the [except] clause *)

Lemma wp_any {A} (m : M A) (s : State) (Q : Res A -> State -> Prop) :
  (forall r s', Q r s') -> wp m s Q.
Proof. intros H. apply H. Qed.

Section Failing_paths.

Context (env : Env).

(** With a reported total of 0, the first result the stream yields raises. *)
Lemma zero_total_body_raises (job : Job) (s : State) :
  cap_frame_count env = 0 -> stream env <> [] ->
  wp (predict_body env job) s (fun r _ => forall o, r <> Ok o).
Proof.
  intros Ht Hs. unfold predict_body.
  apply wp_bind, wp_any. intros [[]|e] s1; [| discriminate].
  destruct (String.eqb video_path "" || negb (video_exists env)).
  - apply wp_bind, wp_any. intros [[]|e] s2; [| discriminate].
    apply wp_bind, wp_raise. discriminate.
  - apply wp_bind. unfold load_model.
    destruct (model_load env); [apply wp_raise; discriminate | apply wp_ret].
    apply wp_bind, wp_any. intros [[]|e] s2; [| discriminate].
    apply wp_bind, wp_any. intros [[]|e] s3; [| discriminate].
    apply wp_bind. rewrite Ht.
    destruct (stream env) as [|r rs]; [contradiction |].
    cbn [frame_loop]. apply wp_bind, wp_lift.
    rewrite calc_progress_zero_total. discriminate.
Qed.

Lemma zero_total_run_never_succeeds (job : Job) :
  cap_frame_count env = 0 -> stream env <> [] ->
  forall n t path, (run env job).1 <> Ok (Success n t path).
Proof.
  intros Ht Hs n t path. unfold run.
  change (wp (predict env job) init (fun r _ => r <> Ok (Success n t path))).
  apply predict_spec.
  eapply wp_conseq; [apply (zero_total_body_raises job init Ht Hs) |].
  intros [o|e] s1 H; [now destruct (H o) |].
  eapply wp_conseq; [apply on_exception_spec |].
  intros r s2 (_ & _ & H2).
  destruct (push_fault env (length (calls s1))); destruct H2 as [-> _]; discriminate.
Qed.

(** With the video missing, the directory created and the broker reachable,
    the run returns the message of the [UnboundLocalError], whatever the
    job. *)
Lemma missing_video_run (job : Job) :
  video_exists env = false -> io_fault env 0 = None ->
  push_fault env 0 = None -> push_fault env 1 = None ->
  (run env job).1 =
    Ok (Error "cannot access local variable 'save_error_json' where it is not associated with a value").
Proof.
  intros Hv Hio Hp0 Hp1.
  assert (Hb : exists e s1,
             predict_body env job init = (Raise e, s1) /\ calls s1 = [100] /\
             str e = "cannot access local variable 'save_error_json' where it is not associated with a value").
  { unfold predict_body, mbind, M_bind, mkdir, fs_op. simpl. rewrite Hio, Hv. simpl.
    unfold updateProgress. simpl. rewrite Hp0. simpl. eauto. }
  destruct Hb as (e & s1 & Hb & Hc & He). unfold run.
  change (wp (predict env job) init (fun r _ => r =
    Ok (Error "cannot access local variable 'save_error_json' where it is not associated with a value"))).
  apply predict_spec. unfold wp at 1. rewrite Hb. simpl.
  eapply wp_conseq; [apply on_exception_spec |].
  intros r s2 (_ & _ & H). rewrite Hc in H. simpl in H. rewrite Hp1 in H.
  destruct H as [-> _]. now rewrite He.
Qed.

End Failing_paths.

(** *** The progress formula *)

(** C3 (a defect of the code): line 141 divides by [total_frames] without a
    guard.  With a source that reports 0 frames and delivers one, the first
    frame raises [ZeroDivisionError]: the run ends in an error, the pushes are
    0 and 100, no frame is persisted.  With a positive total the float
    computation can fall one short of [floor(100 * k / total)]: frame 29 of
    100 pushes 28. *)
Theorem C3_zero_total_raises :
  calc_progress 1 0 = Raise (mkExn ZeroDivisionError "division by zero") /\
  (run sc_zero_total job_a).1 = Ok (Error "division by zero") /\
  calls (run sc_zero_total job_a).2 = [0; 100] /\
  persisted_frames (run sc_zero_total job_a).2 job_a = Some [] /\
  calc_progress 29 100 = Ok 28 /\
  calls (run sc_hundred job_a).2 !! 29%nat = Some 28 /\
  Z.min 100 (100 * 29 / 100) = 29.
Proof. vm_compute. repeat split. Qed.

(** *** The inputs of a run *)

Lemma predict_reads_only_the_id (env : Env) (j1 j2 : Job) :
  job_id j1 = job_id j2 -> predict env j1 = predict env j2.
Proof.
  intros H. unfold predict, predict_body, on_exception. now rewrite H.
Qed.

(** C4 (a defect of the code): lines 16-18 assign constants under the
    comment "Extract parameters from job data".  Two jobs with different
    [data] run identically, and the header records the constant video path,
    model and confidence. *)
Theorem C4_job_data_is_not_read :
  job_data job_a <> job_data job_b /\
  run sc_calm job_a = run sc_calm job_b /\
  persisted_header (run sc_calm job_a).2 job_a =
    Some ({| vi_path := "media/input.mp4"; vi_total_frames := 3; vi_fps := Fin 25;
             vi_width := 1280; vi_height := 720 |},
          {| ji_id := "42"; ji_model := "src/best.pt"; ji_confidence := Fin (1 # 4) |}).
Proof.
  split; [discriminate |]. split.
  - unfold run. now rewrite (predict_reads_only_the_id sc_calm job_a job_b eq_refl).
  - vm_compute. reflexivity.
Qed.

(** *** Faults in the loop *)



Lemma Quiet_scenario (present : bool) (total : Z) (results : list RawResult)
    (sfault : option PyExn) :
  present = true -> forallb wf_result results = true ->
  Quiet (scenario present total results sfault never never).
Proof.
  intros -> Hwf. constructor; try reflexivity. simpl.
  apply Forall_forall. intros r Hr. rewrite forallb_forall in Hwf.
  apply Hwf, list_elem_of_In, Hr.
Qed.


(** *** The rejected input *)

(** C6 (a defect of the code): line 31 calls [save_error_json] before the
    [def] of line 112 has bound it.  For a missing video the call raises
    [UnboundLocalError]; the handler pushes 100 again, writes the error
    record and returns an error whose message is that of the
    [UnboundLocalError]: it does not contain the video path. *)
Theorem C6_missing_video_message :
  (run sc_missing_video job_a).1 =
    Ok (Error "cannot access local variable 'save_error_json' where it is not associated with a value") /\
  contains "cannot access local variable 'save_error_json' where it is not associated with a value"
           video_path = false /\
  contains ("Video file not found: " +:+ video_path) video_path = true /\
  calls (run sc_missing_video job_a).2 = [100; 100] /\
  persisted_error (run sc_missing_video job_a).2 job_a =
    Some "cannot access local variable 'save_error_json' where it is not associated with a value".
Proof. vm_compute. repeat split. Qed.

(** *** The mapping of detections *)

(** C7, as stated, fails: a box whose [conf] is present but empty makes
    [extract_frame_data] raise [IndexError]. *)
Lemma C7_hollow_box_raises :
  extract_frame_data (Fin 25) hollow_result 1 =
    Raise (mkExn IndexError "index 0 is out of bounds for axis 0 with size 0").
Proof. reflexivity. Qed.

(** C7, amended: on a result that carries its boxes, each box having every
    attribute either absent or well formed, and for a frame number a float
    can hold, the mapping returns the frame record of the specification:
    an absent [xyxy] gives the empty bbox, an absent [conf] 0.0, an absent
    [cls] -1, and a class without a name "unknown". *)
Theorem C7_wellformed_mapping_is_total (fps : pyfloat) (result : RawResult) (k : Z) :
  wf_result result = true -> 0 <= k <= 2 ^ 1023 ->
  exists stamp boxes,
    res_boxes result = Some boxes /\
    extract_frame_data fps result k =
      Ok {| frame_number := k; timestamp := stamp;
            detections := map (spec_detection (res_names result)) boxes |} /\
    Forall (fun b =>
              let d := spec_detection (res_names result) b in
              (box_xyxy b = None -> bbox d = []) /\
              (box_conf b = None -> det_confidence d = Fin 0) /\
              (box_cls b = None -> class_id d = -1) /\
              ((forall names, res_names result = Some names -> names !! class_id d = None) ->
               class_name d = "unknown")) boxes.
Proof.
  intros Hwf Hk.
  destruct (extract_frame_data_wf fps result k Hwf Hk) as (stamp & boxes & Hb & He).
  exists stamp, boxes. split; [exact Hb |]. split; [exact He |].
  apply Forall_forall. intros b _. unfold spec_detection. cbn.
  repeat split.
  - now intros ->.
  - now intros ->.
  - now intros ->.
  - intros Hn. destruct (res_names result) as [names|]; [| reflexivity].
    now rewrite (Hn names eq_refl).
Qed.

(** A frame with a bare box and a complete one. *)
Lemma C7_witness :
  exists stamp,
    extract_frame_data (Fin 25) mixed_result 7 =
      Ok {| frame_number := 7; timestamp := stamp;
            detections :=
              [ {| bbox := []; det_confidence := Fin 0; class_id := -1;
                   class_name := "unknown" |};
                {| bbox := [Fin 10; Fin 20; Fin 110; Fin 220];
                   det_confidence := Fin (7 # 8); class_id := 0;
                   class_name := "person" |} ] |}.
Proof.
  destruct (C7_wellformed_mapping_is_total (Fin 25) mixed_result 7)
    as (stamp & boxes & Hb & He & _).
  - reflexivity.
  - vm_compute. split; discriminate.
  - exists stamp. injection Hb as <-. exact He.
Defined.

(** *** The complete run *)

(** C8, as stated, fails: nothing fails, the capture reports 2 frames and
    the detector yields 3 results; the run returns [processed_frames = 3]
    with [total_frames = 2] and leaves the frames 1, 2, 3. *)
Lemma C8_processed_differs_from_total :
  Quiet sc_short_count /\ stream_fault sc_short_count = None /\
  (run sc_short_count job_a).1 = Ok (Success 3 2 "temp_results/42/results.json") /\
  map frame_number <$> persisted_frames (run sc_short_count job_a).2 job_a
    = Some [1; 2; 3].
Proof.
  split; [apply Quiet_scenario; reflexivity |]. split; [reflexivity |].
  split; vm_compute; reflexivity.
Qed.

(** C8, amended: a run in which nothing fails, the detector yielding [n]
    results, returns a success with [processed_frames = n], with
    [total_frames] the count the capture reported (any number but 0, unless
    no result came) and with the location of the result document, and
    leaves [n] frame records numbered 1, 2, ..., [n] in that order in the
    result document.  The two counts of the outcome are equal only when
    the capture's count is [n]. *)
Theorem C8_complete_run (env : Env) (job : Job) :
  Quiet env -> stream_fault env = None ->
  stream env = [] \/ cap_frame_count env <> 0 ->
  Z.of_nat (length (stream env)) <= 2 ^ 1000 ->
  (run env job).1 =
    Ok (Success (Z.of_nat (length (stream env))) (cap_frame_count env)
          (path_str (final_json_path (job_id job)))) /\
  exists frames,
    persisted_frames (run env job).2 job = Some frames /\
    length frames = length (stream env) /\
    map frame_number frames = seqZ 1 (Z.of_nat (length (stream env))).
Proof.
  intros [Hv Hm Hp Hio Hwf] Hs Ht Hmax. unfold run.
  change (wp (predict env job) init (fun r s =>
    r = Ok (Success (Z.of_nat (length (stream env))) (cap_frame_count env)
              (path_str (final_json_path (job_id job)))) /\
    exists frames, persisted_frames s job = Some frames /\
      length frames = length (stream env) /\
      map frame_number frames = seqZ 1 (Z.of_nat (length (stream env))))).
  apply predict_spec.
  eapply wp_conseq;
    [apply (predict_body_quiet env Hp Hio job init Hv Hm Hwf Hmax Ht) |].
  rewrite Hs. intros r s1 [-> (vi & ji & frames & Hfs & Hnum)].
  split; [reflexivity |].
  exists frames. split; [| split].
  - unfold persisted_frames. rewrite Hfs, lookup_insert_eq. reflexivity.
  - apply (f_equal length) in Hnum. rewrite length_map, length_seqZ in Hnum. lia.
  - exact Hnum.
Qed.

(** Three frames, counted as three by the capture. *)
Lemma C8_witness :
  (run sc_calm job_a).1 = Ok (Success 3 3 "temp_results/42/results.json") /\
  exists frames,
    persisted_frames (run sc_calm job_a).2 job_a = Some frames /\
    length frames = 3%nat /\
    map frame_number frames = [1; 2; 3].
Proof.
  apply (C8_complete_run sc_calm job_a).
  - apply Quiet_scenario; reflexivity.
  - reflexivity.
  - right. vm_compute. discriminate.
  - vm_compute. discriminate.
Defined.

(** *** Failing pushes *)

(** C9, as stated, fails: the push of the first frame's progress raises, the
    loop is left at once (none of the two frames is persisted) and the run
    ends in an error. *)
Lemma C9_push_fault_aborts_the_loop :
  push_fault sc_push_fault 1 = Some broker_down /\
  length (stream sc_push_fault) = 2%nat /\
  (run sc_push_fault job_a).1 = Ok (Error "Connection refused") /\
  calls (run sc_push_fault job_a).2 = [0; 50; 100] /\
  persisted_frames (run sc_push_fault job_a).2 job_a = Some [].
Proof. vm_compute. repeat split. Qed.

(** C9, amended: a push that raises ends the processing.  It is the last
    push of the run, or is followed by the handler's push of 100 alone; the
    run does not return [Success]; and no frame is persisted from the one
    whose push failed on (frame [k] is pushed at position [k]). *)
Theorem C9_push_fault_is_fatal (env : Env) (job : Job) (i : nat) (e : PyExn) :
  (i < length (calls (run env job).2))%nat -> push_fault env i = Some e ->
  (length (calls (run env job).2) <= i + 2)%nat /\
  (forall n t path, (run env job).1 <> Ok (Success n t path)) /\
  forall frames,
    persisted_frames (run env job).2 job = Some frames ->
    Forall (fun f => frame_number f < Z.of_nat i) frames.
Proof.
  unfold run.
  change (wp (predict env job) init (fun r s =>
    (i < length (calls s))%nat -> push_fault env i = Some e ->
    (length (calls s) <= i + 2)%nat /\
    (forall n t path, r <> Ok (Success n t path)) /\
    forall frames, persisted_frames s job = Some frames ->
                   Forall (fun f => frame_number f < Z.of_nat i) frames)).
  apply predict_spec.
  eapply wp_conseq;
    [apply (ending_predict_body env job init (settled_init _ _) eq_refl) |].
  intros [o|e0] s1 H.
  - destruct H as [Hok _]. intros Hi He. rewrite (Hok i Hi) in He. discriminate.
  - destruct H as (Hbl & Hfr & Hlast).
    eapply wp_conseq; [apply on_exception_spec |].
    intros r s2 (Hc & Hres & H) Hi He. rewrite Hc, length_app in *. simpl in Hi |- *.
    assert (Hle : (length (calls s1) <= S i)%nat).
    { destruct (le_lt_dec (length (calls s1)) (S i)) as [|Hlt]; [assumption |].
      rewrite (Hbl i Hlt) in He. discriminate. }
    split; [lia |]. split.
    + intros n t path ->. destruct (push_fault env (length (calls s1)));
        destruct H as [H _]; discriminate.
    + intros frames Hp. unfold persisted_frames in Hp. rewrite Hres in Hp.
      destruct (fs s1 !! location (final_json_path (job_id job))) as [[[vi ji fr|]|]|] eqn:El;
        try discriminate.
      injection Hp as <-.
      destruct (Nat.eq_dec i (length (calls s1))) as [->|Hne].
      * exact (Hfr vi ji fr El).
      * apply (Hlast i ltac:(lia) ltac:(congruence) vi ji fr El).
Qed.

Lemma C9_witness :
  (length (calls (run sc_push_fault job_a).2) <= 1 + 2)%nat /\
  (forall n t path, (run sc_push_fault job_a).1 <> Ok (Success n t path)) /\
  forall frames,
    persisted_frames (run sc_push_fault job_a).2 job_a = Some frames ->
    Forall (fun f => frame_number f < 1) frames.
Proof.
  apply (C9_push_fault_is_fatal sc_push_fault job_a 1 broker_down).
  - vm_compute. lia.
  - reflexivity.
Defined.

(** *** The outer boundary *)

(** C10, as stated, fails: with the broker unreachable the push of 100 in
    the [except] clause raises and the exception leaves [predict]. *)
Lemma C10_handler_push_escapes :
  (predict_body sc_broker_down job_a init).1 = Raise broker_down /\
  (run sc_broker_down job_a).1 = Raise broker_down /\
  ~ (exists msg, (run sc_broker_down job_a).1 = Ok (Error msg)).
Proof.
  split; [reflexivity |]. split; [reflexivity |].
  intros [msg H]. vm_compute in H. discriminate.
Qed.

(** C10, amended: when the body of [predict] raises [e], [predict] returns
    [Error (str e)] if the handler's push of 100 is delivered, whatever
    happens to the write of the error record; if that push raises, its
    exception leaves [predict]. *)
Theorem C10_exception_becomes_error (env : Env) (job : Job) (e : PyExn) (s1 : State) :
  predict_body env job init = (Raise e, s1) ->
  (run env job).1 =
    match push_fault env (length (calls s1)) with
    | None => Ok (Error (str e))
    | Some e' => Raise e'
    end.
Proof.
  intros Hb. unfold run.
  change (wp (predict env job) init (fun r _ =>
    r = match push_fault env (length (calls s1)) with
        | None => Ok (Error (str e))
        | Some e' => Raise e'
        end)).
  apply predict_spec. unfold wp at 1. rewrite Hb. simpl.
  eapply wp_conseq; [apply on_exception_spec |].
  intros r s2 (_ & _ & H). destruct (push_fault env (length (calls s1))); apply H.
Qed.

(** No file operation succeeds: the first [mkdir] raises, the error record
    cannot be written, and [predict] still returns the error. *)
Lemma C10_witness :
  (run sc_disk_dead job_a).1 = Ok (Error "[Errno 5] Input/output error") /\
  persisted_error (run sc_disk_dead job_a).2 job_a = None.
Proof.
  split; [| reflexivity].
  apply (C10_exception_becomes_error sc_disk_dead job_a disk_error
           (predict_body sc_disk_dead job_a init).2).
  reflexivity.
Defined.

(** ** Further properties of the code *)

Section Accuracy_facts.
Import Float64 Float64_facts.

Lemma rne_half (x : Q) :
  (inject_Z (rne x) - x <= 1 # 2)%Q /\ (x - inject_Z (rne x) <= 1 # 2)%Q.
Proof.
  unfold rne. pose proof (Qfloor_le x) as Hl. pose proof (Qlt_floor x) as Hu.
  rewrite inject_Z_plus in Hu. change (inject_Z 1) with 1%Q in Hu.
  destruct (Qcompare_spec (x - inject_Z (Qfloor x)) (1 # 2)) as [E|E|E].
  - destruct (Z.even _); [| rewrite inject_Z_plus; change (inject_Z 1) with 1%Q]; lra.
  - lra.
  - rewrite inject_Z_plus; change (inject_Z 1) with 1%Q. lra.
Qed.

Lemma pow2_lt_inv (a b : Z) : (2 ^ a < 2 ^ b)%Q -> a < b.
Proof.
  intros H. destruct (Z_lt_le_dec a b) as [|Hle]; [assumption | exfalso].
  pose proof (pow2_le b a Hle). lra.
Qed.

(** In the normal range a rounding moves its argument by at most half a
    unit in the last place. *)
Lemma round_error (x : Q) :
  (2 ^ (-1022) <= x)%Q ->
  (round x - x <= x * 2 ^ (-53))%Q /\ (x - round x <= x * 2 ^ (-53))%Q.
Proof.
  intros Hx. pose proof (pow2_pos (-1022)) as Hp.
  assert (H0 : (0 < x)%Q) by lra.
  destruct (ilog2_spec x H0) as [L U].
  assert (Hl : -1022 <= ilog2 x).
  { rewrite <- pow2_succ in U.
    assert (-1022 < ilog2 x + 1) by (apply pow2_lt_inv; lra). lia. }
  assert (E : fexp x = ilog2 x - 52) by (unfold fexp; lia).
  unfold round. destruct (Qcompare_spec x 0) as [?|?|_]; try lra.
  rewrite Qred_correct. unfold round_pos. rewrite E.
  set (e := ilog2 x - 52).
  destruct (rne_half (x / 2 ^ e)) as [A B].
  pose proof (pow2_pos e) as Pe.
  assert (Hx' : (x == x / 2 ^ e * 2 ^ e)%Q) by (now rewrite div_pow2).
  assert (Hh : (2 ^ e * (1 # 2) <= x * 2 ^ (-53))%Q).
  { assert (H1 : (2 ^ e * (1 # 2) == 2 ^ ilog2 x * 2 ^ (-53))%Q).
    { rewrite <- pow2_add. replace (ilog2 x + -53) with (e + -1) by (unfold e; lia).
      rewrite pow2_add. reflexivity. }
    rewrite H1. apply Qmult_le_compat_r; [exact L | apply Qlt_le_weak, pow2_pos]. }
  set (y := (x / 2 ^ e)%Q) in *. set (n := inject_Z (rne y)) in *.
  split; nra.
Qed.

Lemma round_0 (x : Q) : (x == 0)%Q -> round x = 0%Q.
Proof. intros H. unfold round. destruct (Qcompare_spec x 0); try lra; reflexivity. Qed.

(** The quotient and the product of line 141, for a quotient between
    [2 ^ -45] and 1: the two roundings move the result by less than
    [2 ^ -45]. *)
Lemma two_roundings (x : Q) :
  (1 # 35184372088832 <= x)%Q -> (x <= 1)%Q ->
  (100 * x - (1 # 35184372088832) < round (round x * 100))%Q /\
  (round (round x * 100) < 100 * x + (1 # 35184372088832))%Q.
Proof.
  intros Hlo Hhi.
  assert (Hd : (2 ^ (-53) == 1 # 9007199254740992)%Q) by reflexivity.
  assert (Hm : (2 ^ (-1022) <= 1 # 70368744177664)%Q) by (vm_compute; discriminate).
  assert (H45 : (1 # 35184372088832 == 2 * (1 # 70368744177664))%Q) by reflexivity.
  destruct (round_error x) as [A1 A2]; [lra |].
  rewrite Hd in A1, A2.
  set (r1 := round x) in *.
  assert (Hr1 : (1 # 70368744177664 <= r1 * 100)%Q) by nra.
  destruct (round_error (r1 * 100)) as [B1 B2]; [lra |].
  rewrite Hd in B1, B2.
  set (r2 := round (r1 * 100)) in *.
  split; nra.
Qed.

Lemma round_1 : (round 1 == 1)%Q.
Proof. vm_compute. reflexivity. Qed.

Lemma round_100 : (round 100 == 100)%Q.
Proof. vm_compute. reflexivity. Qed.

(** From the last frame on, the value is 100. *)
Lemma progress_value_full (k t : Z) : 0 < t -> t <= k -> progress_value k t = 100.
Proof.
  intros Ht Hk. unfold progress_value. apply Z.min_r.
  assert (H1 : (1 <= inject_Z k / inject_Z t)%Q).
  { apply Qle_shift_div_l.
    - change 0%Q with (inject_Z 0). now rewrite <- Zlt_Qlt.
    - rewrite Qmult_1_l. now rewrite <- Zle_Qle. }
  pose proof (round_mono 1 _ ltac:(lra) H1) as H2. rewrite round_1 in H2.
  pose proof (round_mono 100 (round (inject_Z k / inject_Z t) * 100) ltac:(lra) ltac:(lra)) as H3.
  rewrite round_100 in H3.
  apply Qfloor_resp_le in H3. exact H3.
Qed.

Lemma progress_value_0 (t : Z) : 0 < t -> progress_value 0 t = 0.
Proof.
  intros Ht. unfold progress_value.
  rewrite (round_0 (inject_Z 0 / inject_Z t)) by (unfold Qdiv; ring).
  rewrite (round_0 (0 * 100)) by ring. reflexivity.
Qed.

Lemma Qfloor_between (q : Q) (m : Z) :
  (inject_Z m <= q)%Q -> (q < inject_Z m + 1)%Q -> Qfloor q = m.
Proof.
  intros H1 H2.
  pose proof (Qfloor_le q) as Hl. pose proof (Qlt_floor q) as Hu.
  rewrite inject_Z_plus in Hu. change (inject_Z 1) with 1%Q in Hu.
  assert (A : (inject_Z (Qfloor q) < inject_Z (m + 1))%Q).
  { rewrite inject_Z_plus. change (inject_Z 1) with 1%Q. lra. }
  assert (B : (inject_Z m < inject_Z (Qfloor q + 1))%Q).
  { rewrite inject_Z_plus. change (inject_Z 1) with 1%Q. lra. }
  rewrite <- Zlt_Qlt in A, B. lia.
Qed.

(** Before the last frame of a video of at most [2 ^ 45] frames. *)
Lemma progress_value_partial (k t : Z) :
  0 < k -> k < t -> t <= 2 ^ 45 ->
  (100 * k / t - 1 <= progress_value k t <= 100 * k / t) /\
  ((100 * k) mod t <> 0 -> progress_value k t = 100 * k / t).
Proof.
  intros Hk Hkt Ht.
  set (m := 100 * k / t). set (r := (100 * k) mod t).
  assert (Hdiv : 100 * k = t * m + r) by (apply Z.div_mod; lia).
  assert (Hr : 0 <= r < t) by (apply Z.mod_pos_bound; lia).
  assert (Hm : 0 <= m <= 99).
  { split; [apply Z.div_pos; lia |].
    assert (m < 100) by (apply Z.div_lt_upper_bound; lia). lia. }
  set (x := (inject_Z k / inject_Z t)%Q).
  assert (Tpos : (0 < inject_Z t)%Q).
  { change 0%Q with (inject_Z 0). rewrite <- Zlt_Qlt. lia. }
  assert (Tmax : (inject_Z t <= 35184372088832)%Q).
  { change 35184372088832%Q with (inject_Z (2 ^ 45)). now rewrite <- Zle_Qle. }
  assert (Kpos : (1 <= inject_Z k)%Q).
  { change 1%Q with (inject_Z 1). rewrite <- Zle_Qle. lia. }
  assert (Hxt : (x * inject_Z t == inject_Z k)%Q).
  { unfold x. field. lra. }
  assert (Hu : (/ inject_Z t * inject_Z t == 1)%Q) by (field; lra).
  assert (Hupos : (0 < / inject_Z t)%Q) by now apply Qinv_lt_0_compat.
  set (u := (/ inject_Z t)%Q) in *.
  assert (Hulo : (1 # 35184372088832 <= u)%Q) by nra.
  assert (Hxlo : (1 # 35184372088832 <= x)%Q) by nra.
  assert (Hxhi : (x <= 1)%Q).
  { assert (inject_Z k <= inject_Z t)%Q by (rewrite <- Zle_Qle; lia). nra. }
  destruct (two_roundings x Hxlo Hxhi) as [Lo Hi].
  fold x in Lo, Hi. 
  assert (HE : (100 * x == inject_Z m + inject_Z r * u)%Q).
  { assert (H1 : (100 * inject_Z k == inject_Z t * inject_Z m + inject_Z r)%Q).
    { change 100%Q with (inject_Z 100).
      rewrite <- !inject_Z_mult, <- inject_Z_plus. now rewrite Hdiv. }
    transitivity (100 * inject_Z k * u)%Q; [unfold x, Qdiv; fold u; ring |].
    rewrite H1.
    transitivity (inject_Z m * (u * inject_Z t) + inject_Z r * u)%Q; [ring |].
    rewrite Hu. ring. }
  assert (Rlo : (0 <= inject_Z r)%Q).
  { change 0%Q with (inject_Z 0). rewrite <- Zle_Qle. lia. }
  assert (Rhi : (inject_Z r + 1 <= inject_Z t)%Q).
  { change 1%Q with (inject_Z 1). rewrite <- inject_Z_plus, <- Zle_Qle. lia. }
  set (r2 := round (round x * 100)) in *.
  assert (Hp : progress_value k t = Z.min (Qfloor r2) 100) by reflexivity.
  rewrite Hp. clear Hp.
  assert (Hfl : Qfloor r2 = m \/ (r = 0 /\ Qfloor r2 = m - 1)).
  { destruct (Z.eq_dec r 0) as [E|E].
    - rewrite E in HE. change (inject_Z 0) with 0%Q in HE.
      destruct (Qlt_le_dec r2 (inject_Z m)) as [Hlt|Hge].
      + right. split; [exact E |].
        assert (Hm1 : (inject_Z (m - 1) + 1 == inject_Z m)%Q).
        { change 1%Q with (inject_Z 1). rewrite <- inject_Z_plus.
          now replace (m - 1 + 1) with m by lia. }
        apply Qfloor_between; lra.
      + left. apply Qfloor_between; lra.
    - left. assert (R1 : (1 <= inject_Z r)%Q).
      { change 1%Q with (inject_Z 1). rewrite <- Zle_Qle. lia. }
      apply Qfloor_between; nra. }
  destruct Hfl as [->|[E ->]].
  - split; [lia |]. intros _. lia.
  - split; [lia |]. intros Hn. contradiction.
Qed.

End Accuracy_facts.

(** *** The reported percentages *)

(** X1: every value passed to [updateProgress] during a run lies between 0
    and 100, whatever fails, for a source that reports a non-negative frame
    count. *)
Theorem progress_values_within_0_100 (env : Env) (job : Job) :
  0 <= cap_frame_count env ->
  Forall (fun p => 0 <= p <= 100) (calls (run env job).2).
Proof.
  intros Ht. unfold run.
  change (wp (predict env job) init (fun _ s => Forall (fun p => 0 <= p <= 100) (calls s))).
  apply predict_spec.
  eapply wp_conseq; [apply predict_body_trace |].
  intros [o|e] s1 (l & Hc & Htr & _); simpl in Hc;
    pose proof (body_trace_range _ _ Ht Htr) as Hr.
  - now rewrite Hc.
  - eapply wp_conseq; [apply on_exception_spec |].
    intros r s2 (Hc2 & _). rewrite Hc2, Hc. apply Forall_app. split; [exact Hr |].
    repeat constructor; lia.
Qed.

Lemma progress_values_within_0_100_witness :
  0 <= cap_frame_count sc_push_fault /\
  Forall (fun p => 0 <= p <= 100) (calls (run sc_push_fault job_a).2).
Proof.
  split; [vm_compute; discriminate |].
  apply (progress_values_within_0_100 sc_push_fault job_a). vm_compute. discriminate.
Defined.

(** X2: for a video of at most [2 ^ 45] frames the percentage computed in
    floating point for frame [k] is the exact one,
    [min(100, floor(100 * k / total))], or one below it; it can be one below
    only when [total] divides [100 * k], and it is 100 exactly from the
    frame whose number reaches [total] on. *)
Theorem calc_progress_accuracy (k t : Z) :
  0 <= k <= 2 ^ 1000 -> 0 < t <= 2 ^ 45 ->
  exists p,
    calc_progress k t = Ok p /\
    Z.min 100 (100 * k / t) - 1 <= p <= Z.min 100 (100 * k / t) /\
    ((100 * k) mod t <> 0 -> p = Z.min 100 (100 * k / t)) /\
    (p = 100 <-> t <= k).
Proof.
  intros Hk [Ht Hmax]. exists (progress_value k t).
  split; [apply calc_progress_total; assumption |].
  destruct (Z_le_gt_dec t k) as [Hge|Hlt].
  - rewrite (progress_value_full k t Ht Hge).
    assert (100 <= 100 * k / t) by (apply Z.div_le_lower_bound; lia).
    rewrite Z.min_l by lia. repeat split; lia.
  - assert (Hm : 100 * k / t < 100) by (apply Z.div_lt_upper_bound; lia).
    rewrite Z.min_r by lia.
    destruct (Z.eq_dec k 0) as [->|Hk0].
    + rewrite progress_value_0 by exact Ht. rewrite Z.mul_0_r, Z.div_0_l by lia.
      repeat split; lia.
    + destruct (progress_value_partial k t ltac:(lia) ltac:(lia) Hmax) as [Hb He].
      repeat split; try lia; exact He.
Qed.

(** Frame 29 of 100: the exact percentage is 29, and 28 is pushed. *)
Lemma calc_progress_accuracy_witness :
  exists p,
    calc_progress 29 100 = Ok p /\
    Z.min 100 (100 * 29 / 100) - 1 <= p <= Z.min 100 (100 * 29 / 100) /\
    ((100 * 29) mod 100 <> 0 -> p = Z.min 100 (100 * 29 / 100)) /\
    (p = 100 <-> 100 <= 29).
Proof.
  apply (calc_progress_accuracy 29 100); split; try lia; vm_compute; discriminate.
Defined.

(** *** Time stamps (line 91) *)

Section Timestamp_facts.

Import Float64 Float64_facts.

Lemma float_of_int_value (n : Z) (x : pyfloat) :
  float_of_int n = Ok x -> x = Fin (round (inject_Z n)).
Proof.
  unfold float_of_int. destruct (of_exact _) as [r| |] eqn:E; try discriminate.
  apply of_exact_Fin in E. now intros [= <-]; subst.
Qed.

Lemma extract_frame_data_stamp (fps : pyfloat) (r : RawResult) (k : Z) (fd : FrameRecord) :
  extract_frame_data fps r k = Ok fd ->
  (if float_pos fps then f ← float_of_int k; float_div f fps else Ok (Fin 0))
    = Ok (timestamp fd).
Proof.
  unfold extract_frame_data. unfold mbind at 1 2, Res_bind at 1 2.
  destruct (res_boxes r); [| discriminate].
  destruct (extract_boxes _ _ _); [| discriminate].
  destruct (if float_pos fps then _ else _) as [st|]; [| discriminate].
  now intros [= <-].
Qed.

Lemma float_le_of_exact (q q' : Q) :
  (0 <= q)%Q -> (q <= q')%Q -> float_le (of_exact q) (of_exact q') = true.
Proof.
  intros H0 Hq. unfold of_exact, overflows.
  pose proof (round_nonneg q H0) as R0.
  pose proof (round_mono q q' H0 Hq) as Rm.
  assert (N : forall r, (0 <= r)%Q -> is_neg r = false).
  { intros r Hr. unfold is_neg. apply Qle_bool_iff in Hr. now rewrite Hr. }
  rewrite !Qabs_pos by lra.
  destruct (Qle_bool _ (round q)) eqn:E1; destruct (Qle_bool _ (round q')) eqn:E2; simpl.
  - rewrite !N by lra. reflexivity.
  - apply Qle_bool_iff in E1.
    assert (E : Qle_bool (2 ^ 1024) (round q') = true) by (apply Qle_bool_iff; lra).
    congruence.
  - rewrite N by lra. reflexivity.
  - now apply Qle_bool_iff.
Qed.

Lemma stamp_order (fps : pyfloat) (k k' : Z) (x x' : pyfloat) :
  0 <= k <= k' ->
  (if float_pos fps then f ← float_of_int k; float_div f fps else Ok (Fin 0)) = Ok x ->
  (if float_pos fps then f ← float_of_int k'; float_div f fps else Ok (Fin 0)) = Ok x' ->
  float_le (Fin 0) x = true /\ float_le x x' = true.
Proof.
  intros [Hk Hkk]. destruct (float_pos fps) eqn:Hp.
  - unfold mbind, Res_bind.
    destruct (float_of_int k) as [a|] eqn:Ea; [| discriminate].
    destruct (float_of_int k') as [a'|] eqn:Ea'; [| discriminate].
    apply float_of_int_value in Ea, Ea'. subst a a'.
    unfold float_div. rewrite (float_pos_not_zero _ Hp).
    assert (K0 : (0 <= inject_Z k)%Q).
    { change 0%Q with (inject_Z 0). now rewrite <- Zle_Qle. }
    assert (KK : (inject_Z k <= inject_Z k')%Q) by now rewrite <- Zle_Qle.
    pose proof (round_nonneg _ K0) as R0.
    pose proof (round_mono _ _ K0 KK) as Rm.
    destruct fps as [f|s|]; [| | discriminate].
    + simpl in Hp. apply negb_true_iff in Hp.
      assert (Hf : (0 < f)%Q).
      { destruct (Qlt_le_dec 0 f) as [|Hle]; [assumption |].
        apply Qle_bool_iff in Hle. congruence. }
      assert (Hi : (0 < / f)%Q) by now apply Qinv_lt_0_compat.
      intros [= <-] [= <-].
      assert (Q0 : (0 <= round (inject_Z k) / f)%Q) by (unfold Qdiv; nra).
      assert (Q1 : (round (inject_Z k) / f <= round (inject_Z k') / f)%Q)
        by (unfold Qdiv; nra).
      split; [| now apply float_le_of_exact].
      assert (Z0 : of_exact 0 = Fin 0) by reflexivity.
      rewrite <- Z0. apply float_le_of_exact; lra.
    + intros [= <-] [= <-]. split; reflexivity.
  - intros [= <-] [= <-]. split; reflexivity.
Qed.

End Timestamp_facts.

(** X3: when the capture reports no frame rate ([fps] is 0, negative or not
    a number) the time stamp of every frame is 0: the frame number is
    neither converted nor divided, whatever its size. *)
Theorem timestamp_is_zero_without_fps (fps : pyfloat) (result : RawResult) (k : Z) :
  float_pos fps = false -> wf_result result = true ->
  exists boxes,
    res_boxes result = Some boxes /\
    extract_frame_data fps result k =
      Ok {| frame_number := k; timestamp := Fin 0;
            detections := map (spec_detection (res_names result)) boxes |}.
Proof.
  intros Hf Hwf. unfold wf_result in Hwf. unfold extract_frame_data.
  destruct (res_boxes result) as [boxes|]; [| discriminate].
  exists boxes. split; [reflexivity |].
  unfold mbind at 1, Res_bind at 1.
  rewrite (extract_boxes_wf _ _ [] Hwf). rewrite Hf. reflexivity.
Qed.

Lemma timestamp_is_zero_without_fps_witness :
  exists boxes,
    res_boxes person_result = Some boxes /\
    extract_frame_data (Fin 0) person_result (2 ^ 2000) =
      Ok {| frame_number := 2 ^ 2000; timestamp := Fin 0;
            detections := map (spec_detection (res_names person_result)) boxes |}.
Proof.
  apply (timestamp_is_zero_without_fps (Fin 0) person_result (2 ^ 2000)); reflexivity.
Defined.

(** X4: the time stamps the mapping gives are never negative and never go
    down from a frame to a later one, for every frame rate the capture can
    report. *)
Theorem timestamps_never_go_down (fps : pyfloat) (r r' : RawResult) (k k' : Z)
    (fd fd' : FrameRecord) :
  0 <= k <= k' ->
  extract_frame_data fps r k = Ok fd ->
  extract_frame_data fps r' k' = Ok fd' ->
  float_le (Fin 0) (timestamp fd) = true /\
  float_le (timestamp fd) (timestamp fd') = true.
Proof.
  intros Hk H1 H2. apply extract_frame_data_stamp in H1, H2.
  exact (stamp_order fps k k' _ _ Hk H1 H2).
Qed.

(** Frames 3 and 7 at 25 frames per second: 0.12 and 0.28. *)
Lemma timestamps_never_go_down_witness :
  float_le (Fin 0) (Fin (1080863910568919 # 9007199254740992)) = true /\
  float_le (Fin (1080863910568919 # 9007199254740992))
           (Fin (1261007895663739 # 4503599627370496)) = true.
Proof.
  apply (timestamps_never_go_down (Fin 25) empty_result empty_result 3 7
           {| frame_number := 3; timestamp := Fin (1080863910568919 # 9007199254740992);
              detections := [] |}
           {| frame_number := 7; timestamp := Fin (1261007895663739 # 4503599627370496);
              detections := [] |});
    [lia | vm_compute; reflexivity | vm_compute; reflexivity].
Defined.

(** *** Malformed results *)

Lemma extract_detection_malformed (names : option (gmap Z string)) (box : RawBox) :
  wf_box box = false ->
  exists e, extract_detection names box = Raise e /\ mapping_error (exn_class e) = true.
Proof.
  destruct box as [[[|row ?]|] [[|c ?]|] [[|[q| |] ?]|]]; try discriminate;
    intros _; eexists; split; reflexivity.
Qed.

Lemma extract_boxes_malformed (names : option (gmap Z string)) (boxes : list RawBox) :
  forall acc,
    forallb wf_box boxes = false ->
    exists e, extract_boxes names boxes acc = Raise e /\ mapping_error (exn_class e) = true.
Proof.
  induction boxes as [|b boxes IH]; intros acc H; [discriminate |].
  cbn [forallb] in H. cbn [extract_boxes].
  destruct (wf_box b) eqn:Hb.
  - rewrite (extract_detection_wf _ _ Hb). apply IH. exact H.
  - destruct (extract_detection_malformed names b Hb) as (e & -> & He). eauto.
Qed.

Lemma extract_frame_data_malformed (fps : pyfloat) (result : RawResult) (k : Z) :
  wf_result result = false ->
  exists e,
    extract_frame_data fps result k = Raise e /\ mapping_error (exn_class e) = true.
Proof.
  unfold wf_result, extract_frame_data. intros H.
  destruct (res_boxes result) as [boxes|].
  - destruct (extract_boxes_malformed (res_names result) boxes [] H) as (e & He & Hc).
    exists e. unfold mbind at 1 2, Res_bind at 1 2. now rewrite He.
  - eexists. split; reflexivity.
Qed.

(** A result the mapping accepts is well formed. *)
Lemma extract_frame_data_Ok_wf (fps : pyfloat) (result : RawResult) (k : Z)
    (fd : FrameRecord) :
  extract_frame_data fps result k = Ok fd -> wf_result result = true.
Proof.
  intros H. destruct (wf_result result) eqn:E; [reflexivity |].
  destruct (extract_frame_data_malformed fps result k E) as (e & He & _). congruence.
Qed.

(** X5: a result that is not well formed is never mapped: when [boxes] is
    [None], or one box has an attribute that is present but empty or a class
    that is not a finite number, [extract_frame_data] raises
    ([AttributeError], [IndexError], [OverflowError] or [ValueError]) for
    every frame rate and frame number; no detection of the frame is
    returned. *)
Theorem malformed_result_is_never_mapped (fps : pyfloat) (result : RawResult) (k : Z) :
  wf_result result = false ->
  exists e,
    extract_frame_data fps result k = Raise e /\ mapping_error (exn_class e) = true.
Proof. apply extract_frame_data_malformed. Qed.

Lemma malformed_result_is_never_mapped_witness :
  exists e,
    extract_frame_data (Fin 25) hollow_result 1 = Raise e /\
    mapping_error (exn_class e) = true.
Proof.
  apply (malformed_result_is_never_mapped (Fin 25) hollow_result 1). reflexivity.
Defined.

(** *** The result document under appends (lines 96-109) *)

Lemma update_json_results_effect (env : Env) (path : Path) (fd : FrameRecord)
    (s : State) :
  (forall p, p <> location path ->
             fs (update_json_results env path fd s).2 !! p = fs s !! p) /\
  match fs s !! location path with
  | Some (Intact (ResultsDoc vi ji frames)) =>
      fs (update_json_results env path fd s).2 !! location path
        = Some (Intact (ResultsDoc vi ji frames)) \/
      fs (update_json_results env path fd s).2 !! location path
        = Some (Intact (ResultsDoc vi ji (frames ++ [fd]))) \/
      fs (update_json_results env path fd s).2 !! location path = Some Torn
  | _ => fs (update_json_results env path fd s).2 = fs s
  end.
Proof.
  unfold update_json_results, try_catch, mbind, M_bind, read_json, write_json,
    lift, fs_op, mret, M_ret.
  destruct (io_fault env (io_ops s)) as [f0|]; simpl.
  { split; [reflexivity |]. destruct (fs s !! location path) as [[[]|]|]; auto. }
  destruct (fs s !! location path) as [[doc|]|] eqn:Hl; simpl; [| auto | auto].
  destruct doc as [vi ji frames|msg st]; simpl; [| auto].
  destruct (io_fault env (S (io_ops s))) as [[e|e]|]; simpl.
  - auto.
  - split; [intros p Hp; now apply lookup_insert_ne |].
    right; right. apply lookup_insert_eq.
  - split; [intros p Hp; now apply lookup_insert_ne |].
    right; left. apply lookup_insert_eq.
Qed.

(** X6: an append changes no other file and never creates the result file;
    on a result document it keeps the header and the frames already stored,
    putting the new frame after them, unless the write fails: then the
    document is as it was (the file could not be opened) or the file is left
    torn (it was opened, and so truncated, before [json.dump] raised).  On
    an error record, a torn file or a missing file it changes nothing. *)
Theorem append_keeps_what_is_stored (env : Env) (path : Path) (fd : FrameRecord)
    (s : State) :
  (forall p, p <> location path ->
             fs (update_json_results env path fd s).2 !! p = fs s !! p) /\
  match fs s !! location path with
  | Some (Intact (ResultsDoc vi ji frames)) =>
      fs (update_json_results env path fd s).2 !! location path
        = Some (Intact (ResultsDoc vi ji frames)) \/
      fs (update_json_results env path fd s).2 !! location path
        = Some (Intact (ResultsDoc vi ji (frames ++ [fd]))) \/
      fs (update_json_results env path fd s).2 !! location path = Some Torn
  | _ => fs (update_json_results env path fd s).2 = fs s
  end.
Proof. apply update_json_results_effect. Qed.

Section Sink_facts.

Context (env : Env).

Lemma append_needs_a_document (path : Path) (fd : FrameRecord) (s : State) :
  (forall vi ji frames, fs s !! location path <> Some (Intact (ResultsDoc vi ji frames))) ->
  fs (update_json_results env path fd s).2 = fs s.
Proof.
  intros H. destruct (update_json_results_effect env path fd s) as [_ Hm].
  destruct (fs s !! location path) as [[[vi ji frames|]|]|] eqn:E; try exact Hm.
  now destruct (H vi ji frames).
Qed.

Lemma updateProgress_fs (p : Z) (s : State) : fs (updateProgress env p s).2 = fs s.
Proof. unfold updateProgress. now destruct (push_fault env _). Qed.

End Sink_facts.

(** X7: the frame loop never creates or repairs the result document: when
    the file is missing, torn or holds an error record, no file is changed
    while the loop runs, however many frames it handles. *)
Theorem frame_loop_needs_a_document (env : Env) (id : string) (t : Z) (fps : pyfloat)
    (rs : list RawResult) (k : Z) (s : State) :
  (forall vi ji frames,
      fs s !! location (final_json_path id) <> Some (Intact (ResultsDoc vi ji frames))) ->
  fs (frame_loop env id t fps rs k s).2 = fs s.
Proof.
  revert k s. induction rs as [|r rs IH]; intros k s H; cbn [frame_loop].
  - now destruct (stream_fault env).
  - unfold mbind at 1, M_bind at 1, lift at 1.
    destruct (calc_progress (k + 1) t) as [p|e]; [| reflexivity].
    unfold mbind at 1, M_bind at 1.
    pose proof (updateProgress_fs env p s) as Hp.
    destruct (updateProgress env p s) as [[[]|e] s1]; simpl in Hp; [| exact Hp].
    unfold mbind at 1, M_bind at 1, lift at 1.
    destruct (extract_frame_data fps r (k + 1)) as [fd|e]; [| exact Hp].
    unfold mbind at 1, M_bind at 1.
    assert (H1 : forall vi ji frames,
               fs s1 !! location (final_json_path id) <> Some (Intact (ResultsDoc vi ji frames))).
    { intros vi ji frames. rewrite Hp. apply H. }
    pose proof (append_needs_a_document env _ fd s1 H1) as Ha.
    pose proof (update_json_results_kept env (final_json_path id) fd s1) as Hk.
    unfold wp in Hk.
    destruct (update_json_results env (final_json_path id) fd s1) as [r2 s2].
    simpl in Ha, Hk. destruct Hk as [-> _].
    rewrite IH; [congruence |].
    intros vi ji frames. rewrite Ha. apply H1.
Qed.

(** A loop over two frames started on a torn file. *)
Lemma frame_loop_needs_a_document_witness :
  fs (frame_loop sc_calm "42" 2 (Fin 25) [person_result; empty_result] 0
        {| fs := {[ location (final_json_path "42") := Torn ]}; calls := [0];
           progress := Some 0; io_ops := 2 |}).2
  = fs {| fs := {[ location (final_json_path "42") := Torn ]}; calls := [0];
          progress := Some 0; io_ops := 2 |}.
Proof.
  apply (frame_loop_needs_a_document sc_calm "42" 2 (Fin 25)
           [person_result; empty_result] 0
           {| fs := {[ location (final_json_path "42") := Torn ]}; calls := [0];
              progress := Some 0; io_ops := 2 |}).
  intros vi ji frames. simpl. rewrite lookup_singleton_eq. discriminate.
Defined.

(** *** The result document of a run, whatever fails *)

Section Document_facts.

Context (env : Env) (id : string).

(** A result document found after an append was there before it, with the
    same header and the same frames but possibly the last. *)
Lemma append_origin (path : Path) (fd : FrameRecord) (s : State)
    (vi : VideoInfo) (ji : JobInfo) (frames' : list FrameRecord) :
  fs (update_json_results env path fd s).2 !! location path
    = Some (Intact (ResultsDoc vi ji frames')) ->
  exists frames,
    fs s !! location path = Some (Intact (ResultsDoc vi ji frames)) /\
    (frames' = frames \/ frames' = frames ++ [fd]).
Proof.
  destruct (update_json_results_effect env path fd s) as [_ Hm].
  destruct (fs s !! location path) as [[[vi0 ji0 frames|msg st]|]|] eqn:E;
    try (rewrite Hm, E; discriminate).
  intros H. destruct Hm as [Hm|[Hm|Hm]]; rewrite Hm in H; [| | discriminate];
    injection H as <- <- <-; eauto.
Qed.

Lemma mapped_result_mono (k k' : Z) (fd : FrameRecord) :
  k <= k' -> mapped_result env k fd -> mapped_result env k' fd.
Proof. intros Hk (r & Hn & Hr). exists r. split; [lia | exact Hr]. Qed.

Lemma doc_sound_mono (k k' : Z) (s : State) :
  k <= k' -> doc_sound env id k s -> doc_sound env id k' s.
Proof.
  intros Hk H vi ji frames Hl. destruct (H vi ji frames Hl) as (Hh & Hs & Hf).
  repeat split; [exact Hh | exact Hs |].
  eapply Forall_impl; [exact Hf |]. intros fd. now apply mapped_result_mono.
Qed.

Lemma doc_sound_same (k : Z) (s s' : State) :
  fs s' !! location (final_json_path id) = fs s !! location (final_json_path id) ->
  doc_sound env id k s -> doc_sound env id k s'.
Proof. intros Hf H vi ji frames Hl. rewrite Hf in Hl. eauto. Qed.

Lemma sorted_snoc (l : list Z) (n : Z) :
  StronglySorted Z.lt l -> Forall (fun x => x < n) l -> StronglySorted Z.lt (l ++ [n]).
Proof.
  intros Hs Hb. apply StronglySorted_app; repeat split; [| exact Hs | repeat constructor].
  intros x1 x2 H1 H2. apply list_elem_of_singleton in H2 as ->.
  rewrite Forall_forall in Hb. now apply Hb.
Qed.

(** The loop on the results that follow the first [k]. *)
Lemma frame_loop_doc_sound (t : Z) (rs : list RawResult) :
  forall (pre : list RawResult) (s : State),
    stream env = pre ++ rs ->
    doc_sound env id (Z.of_nat (length pre)) s ->
    doc_sound env id (Z.of_nat (length (stream env)))
      (frame_loop env id t (cap_fps env) rs (Z.of_nat (length pre)) s).2.
Proof.
  induction rs as [|r rs IH]; intros pre s Hst Hs; cbn [frame_loop].
  - apply (doc_sound_mono (Z.of_nat (length pre))).
    + rewrite Hst, length_app. lia.
    + now destruct (stream_fault env).
  - assert (Hlen : Z.of_nat (length pre) <= Z.of_nat (length (stream env))).
    { rewrite Hst, length_app. lia. }
    set (k := Z.of_nat (length pre)) in *.
    unfold mbind at 1, M_bind at 1, lift at 1.
    destruct (calc_progress (k + 1) t) as [p|e];
      [| now apply (doc_sound_mono k)].
    unfold mbind at 1, M_bind at 1.
    pose proof (updateProgress_fs env p s) as Hp.
    destruct (updateProgress env p s) as [[[]|e] s1]; simpl in Hp;
      [| apply (doc_sound_mono k); [exact Hlen |];
         apply (doc_sound_same k s); [simpl; now rewrite Hp | exact Hs]].
    assert (Hs1 : doc_sound env id k s1).
    { apply (doc_sound_same k s); [simpl; now rewrite Hp | exact Hs]. }
    unfold mbind at 1, M_bind at 1, lift at 1.
    destruct (extract_frame_data (cap_fps env) r (k + 1)) as [fd|e] eqn:Efd;
      [| now apply (doc_sound_mono k)].
    pose proof (extract_frame_data_number _ _ _ _ Efd) as Hn.
    unfold mbind at 1, M_bind at 1.
    pose proof (update_json_results_kept env (final_json_path id) fd s1) as Hk.
    unfold wp in Hk.
    pose proof (append_origin (final_json_path id) fd s1) as Ho.
    destruct (update_json_results env (final_json_path id) fd s1) as [r2 s2].
    simpl in Hk, Ho. destruct Hk as [-> _].
    replace (k + 1) with (Z.of_nat (length (pre ++ [r]))) 
      by (rewrite length_app; simpl; lia).
    apply IH; [now rewrite <- app_assoc |].
    rewrite length_app. simpl length. 
    replace (Z.of_nat (length pre + 1)) with (k + 1) by lia.
    intros vi ji frames' Hl.
    destruct (Ho vi ji frames' Hl) as (frames & Hl1 & Hfr).
    destruct (Hs1 vi ji frames Hl1) as (Hh & Hsort & Hmap).
    assert (Hmap1 : Forall (mapped_result env (k + 1)) frames).
    { eapply Forall_impl; [exact Hmap |]. intros x. apply mapped_result_mono. lia. }
    destruct Hfr as [->| ->]; [now repeat split |].
    repeat split; [exact Hh | |].
    + rewrite map_app. simpl. apply sorted_snoc; [exact Hsort |].
      apply Forall_map. eapply Forall_impl; [exact Hmap |].
      intros x (_ & Hx & _). simpl. lia.
    + apply Forall_app. split; [exact Hmap1 |]. repeat constructor.
      exists r. rewrite Hn. split; [lia |]. split; [| exact Efd].
      replace (Z.to_nat (k + 1 - 1)) with (length pre) by lia.
      rewrite Hst. apply list_lookup_middle. reflexivity.
Qed.

End Document_facts.

Lemma doc_sound_absent (env : Env) (id : string) (k : Z) (s : State) :
  (forall vi ji frames,
      fs s !! location (final_json_path id) <> Some (Intact (ResultsDoc vi ji frames))) ->
  doc_sound env id k s.
Proof. intros H vi ji frames Hl. now destruct (H vi ji frames). Qed.

(** Started on any files: the body leaves the job's result file as it
    found it, or holding what this run put there. *)
Lemma predict_body_doc_kept_or_sound (env : Env) (job : Job) (s : State) :
  wp (predict_body env job) s
     (fun _ s' =>
        fs s' !! location (final_json_path (job_id job))
          = fs s !! location (final_json_path (job_id job)) \/
        doc_sound env (job_id job) (Z.of_nat (length (stream env))) s').
Proof.
  unfold predict_body.
  assert (Hup : forall s0, doc_sound env (job_id job) 0 s0 ->
                  doc_sound env (job_id job) (Z.of_nat (length (stream env))) s0).
  { intros s0 H. apply (doc_sound_mono env _ 0); [lia | exact H]. }
  assert (Hpush : forall p s0 (Q : Res unit -> State -> Prop),
             (forall r s1, fs s1 = fs s0 -> Q r s1) -> wp (updateProgress env p) s0 Q).
  { intros p s0 Q H. apply wp_push. intros r s1 _ Hf _. now apply H. }
  apply wp_bind.
  assert (Hmk : wp (mkdir env (path_str (output_dir (job_id job)))) s (fun _ s1 => fs s1 = fs s)).
  { unfold wp, mkdir, fs_op. now destruct (io_fault env (io_ops s)). }
  eapply wp_conseq; [exact Hmk |]. intros r1 s1 Hf1.
  destruct r1 as [[]|e]; [| left; now rewrite Hf1].
  destruct (String.eqb video_path "" || negb (video_exists env)).
  - apply wp_bind, Hpush. intros r2 s2 Hf2.
    destruct r2 as [[]|e]; [| left; now rewrite Hf2, Hf1].
    apply wp_bind, wp_raise. left. now rewrite Hf2, Hf1.
  - apply wp_bind. unfold load_model.
    destruct (model_load env); [apply wp_raise; left; now rewrite Hf1 |].
    apply wp_ret. apply wp_bind.
    set (doc := ResultsDoc _ _ []).
    assert (Hw : wp (write_json env (final_json_path (job_id job)) doc) s1
                   (fun r s2 =>
                      match r with
                      | Ok _ => doc_sound env (job_id job) 0 s2
                      | Raise _ => fs s2 = fs s1 \/ doc_sound env (job_id job) 0 s2
                      end)).
    { unfold wp, write_json, fs_op.
      destruct (io_fault env (io_ops s1)) as [[e|e]|]; simpl.
      - left. reflexivity.
      - right. apply doc_sound_absent. intros vi ji frames. simpl.
        rewrite lookup_insert_eq. discriminate.
      - intros vi ji frames. simpl. rewrite lookup_insert_eq.
        intros [= <- <- <-]. repeat split; constructor. }
    eapply wp_conseq; [exact Hw |]. intros r2 s2 Hs2.
    destruct r2 as [[]|e];
      [| destruct Hs2 as [Hk|Hs2]; [left; now rewrite Hk, Hf1 | right; now apply Hup]].
    apply wp_bind, Hpush. intros r3 s3 Hf3.
    assert (Hs3 : doc_sound env (job_id job) 0 s3).
    { apply (doc_sound_same env _ 0 s2); [now rewrite Hf3 | exact Hs2]. }
    destruct r3 as [[]|e]; [| right; now apply Hup].
    apply wp_bind.
    assert (Hl : fs (frame_loop env (job_id job) (cap_frame_count env) (cap_fps env)
                       (stream env) 0 s3).2 !! location (final_json_path (job_id job))
                   = fs s !! location (final_json_path (job_id job)) \/
                 doc_sound env (job_id job) (Z.of_nat (length (stream env)))
                   (frame_loop env (job_id job) (cap_frame_count env) (cap_fps env)
                      (stream env) 0 s3).2).
    { right.
      exact (frame_loop_doc_sound env (job_id job) (cap_frame_count env)
               (stream env) [] s3 eq_refl Hs3). }
    eapply (wp_conseq _ _ (fun _ s4 =>
              fs s4 !! location (final_json_path (job_id job))
                = fs s !! location (final_json_path (job_id job)) \/
              doc_sound env (job_id job) (Z.of_nat (length (stream env))) s4));
      [exact Hl |].
    clear Hl. intros r4 s4 Hl.
    destruct r4 as [n|e]; [| exact Hl].
    apply wp_bind, Hpush. intros r5 s5 Hf5.
    assert (Hs5 : fs s5 !! location (final_json_path (job_id job))
                    = fs s !! location (final_json_path (job_id job)) \/
                  doc_sound env (job_id job) (Z.of_nat (length (stream env))) s5).
    { destruct Hl as [Hk|Hl]; [left; now rewrite Hf5 |].
      right. eapply doc_sound_same; [| exact Hl]. now rewrite Hf5. }
    destruct r5 as [[]|e]; [apply wp_ret |]; exact Hs5.
Qed.

Lemma predict_doc_kept_or_sound (env : Env) (job : Job) (s : State) :
  fs (predict env job s).2 !! location (final_json_path (job_id job))
    = fs s !! location (final_json_path (job_id job)) \/
  doc_sound env (job_id job) (Z.of_nat (length (stream env))) (predict env job s).2.
Proof.
  change (wp (predict env job) s (fun _ s' =>
    fs s' !! location (final_json_path (job_id job))
      = fs s !! location (final_json_path (job_id job)) \/
    doc_sound env (job_id job) (Z.of_nat (length (stream env))) s')).
  apply predict_spec.
  eapply wp_conseq; [apply predict_body_doc_kept_or_sound |].
  intros [o|e] s1 Hs; [exact Hs |].
  eapply wp_conseq; [apply on_exception_spec |].
  intros r s2 (_ & Hf & _). destruct Hs as [Hk|Hs].
  - left. now rewrite Hf.
  - right. eapply doc_sound_same; [exact Hf | exact Hs].
Qed.

(** X8: whatever fails during a run and whatever the files hold when it
    starts, a result document found in the job's result file afterwards is
    the file as it was before the run (the header write of lines 63-64 was
    not reached, or failed before it touched the file), or it carries the
    header this run computed: the fixed video path, the frame count, rate
    and size the capture reported, the job's id, the fixed model path and
    confidence.  No append alters it.  On a start without a result
    document only the second case is left. *)
Theorem persisted_header_is_the_metadata (env : Env) (job : Job) (s : State)
    (vi : VideoInfo) (ji : JobInfo) :
  persisted_header (predict env job s).2 job = Some (vi, ji) ->
  (fs (predict env job s).2 !! location (final_json_path (job_id job))
     = fs s !! location (final_json_path (job_id job)) /\
   persisted_header s job = Some (vi, ji)) \/
  (vi = {| vi_path := "media/input.mp4"; vi_total_frames := cap_frame_count env;
           vi_fps := cap_fps env; vi_width := cap_width env;
           vi_height := cap_height env |} /\
   ji = {| ji_id := job_id job; ji_model := "src/best.pt";
           ji_confidence := Fin (1 # 4) |}).
Proof.
  intros H. destruct (predict_doc_kept_or_sound env job s) as [Hk|Hs].
  - left. split; [exact Hk |]. unfold persisted_header in *. now rewrite <- Hk.
  - right. unfold persisted_header in H.
    destruct (fs (predict env job s).2 !! location (final_json_path (job_id job)))
      as [[[vi0 ji0 frames|]|]|] eqn:E; try discriminate.
    injection H as -> ->.
    destruct (Hs vi ji frames E) as (Hh & _).
    unfold header_of in Hh. now injection Hh as -> ->.
Qed.

(** X9: whatever fails during a run and whatever the files hold when it
    starts, the frames found in the job's result document afterwards are
    those of the file as it was before the run (the run never wrote its
    header), or they are in the strict order of their numbers (none twice,
    none out of order), each the record the mapping gives for the result
    the detector yielded at that number.  Frames of this run can be
    missing (an append that failed is skipped), never wrong.  On a start
    without a result document only the second case is left. *)
Theorem persisted_frames_are_mapped_results (env : Env) (job : Job) (s : State)
    (frames : list FrameRecord) :
  persisted_frames (predict env job s).2 job = Some frames ->
  (fs (predict env job s).2 !! location (final_json_path (job_id job))
     = fs s !! location (final_json_path (job_id job)) /\
   persisted_frames s job = Some frames) \/
  (StronglySorted Z.lt (map frame_number frames) /\
   Forall (fun fd =>
             exists r,
               1 <= frame_number fd <= Z.of_nat (length (stream env)) /\
               stream env !! Z.to_nat (frame_number fd - 1) = Some r /\
               extract_frame_data (cap_fps env) r (frame_number fd) = Ok fd)
          frames).
Proof.
  intros H. destruct (predict_doc_kept_or_sound env job s) as [Hk|Hs].
  - left. split; [exact Hk |]. unfold persisted_frames in *. now rewrite <- Hk.
  - right. unfold persisted_frames in H.
    destruct (fs (predict env job s).2 !! location (final_json_path (job_id job)))
      as [[[vi ji frames0|]|]|] eqn:E; try discriminate.
    injection H as ->.
    destruct (Hs vi ji frames E) as (_ & Hsort & Hf).
    split; [exact Hsort | exact Hf].
Qed.

(** A job delivered again: the second run, on a capture of two frames,
    replaces the header the first run wrote for three. *)
Lemma persisted_header_is_the_metadata_witness :
  (fs (predict sc_sink_fault job_a (run sc_calm job_a).2).2
     !! location (final_json_path (job_id job_a))
   = fs (run sc_calm job_a).2 !! location (final_json_path (job_id job_a)) /\
   persisted_header (run sc_calm job_a).2 job_a
   = Some ({| vi_path := "media/input.mp4"; vi_total_frames := 2; vi_fps := Fin 25;
              vi_width := 1280; vi_height := 720 |},
           {| ji_id := "42"; ji_model := "src/best.pt";
              ji_confidence := Fin (1 # 4) |})) \/
  ({| vi_path := "media/input.mp4"; vi_total_frames := 2; vi_fps := Fin 25;
      vi_width := 1280; vi_height := 720 |}
   = {| vi_path := "media/input.mp4"; vi_total_frames := cap_frame_count sc_sink_fault;
        vi_fps := cap_fps sc_sink_fault; vi_width := cap_width sc_sink_fault;
        vi_height := cap_height sc_sink_fault |} /\
   {| ji_id := "42"; ji_model := "src/best.pt"; ji_confidence := Fin (1 # 4) |}
   = {| ji_id := job_id job_a; ji_model := "src/best.pt"; ji_confidence := Fin (1 # 4) |}).
Proof.
  refine (persisted_header_is_the_metadata sc_sink_fault job_a (run sc_calm job_a).2 _ _ _).
  vm_compute. reflexivity.
Defined.

(** The run whose first append fails, on no files: only frame 2 is stored. *)
Lemma persisted_frames_are_mapped_results_witness :
  exists frames,
    map frame_number frames = [2] /\
    ((fs (predict sc_sink_fault job_a init).2 !! location (final_json_path (job_id job_a))
      = fs init !! location (final_json_path (job_id job_a)) /\
      persisted_frames init job_a = Some frames) \/
     (StronglySorted Z.lt (map frame_number frames) /\
      Forall (fun fd =>
                exists r,
                  1 <= frame_number fd <= Z.of_nat (length (stream sc_sink_fault)) /\
                  stream sc_sink_fault !! Z.to_nat (frame_number fd - 1) = Some r /\
                  extract_frame_data (cap_fps sc_sink_fault) r (frame_number fd) = Ok fd)
             frames)).
Proof.
  destruct (persisted_frames (predict sc_sink_fault job_a init).2 job_a)
    as [frames|] eqn:E.
  - exists frames. split.
    + revert E. vm_compute. now intros [= <-].
    + exact (persisted_frames_are_mapped_results sc_sink_fault job_a init frames E).
  - exfalso. revert E. vm_compute. discriminate.
Defined.

(** The first case is met: a job delivered again whose model fails to load
    leaves the document of the earlier run, header (three frames) and
    frames, where the capture of this run reports two frames. *)
Lemma failed_load_leaves_the_earlier_document :
  cap_frame_count sc_model_missing = 2 /\
  vi_total_frames <$> (fst <$> persisted_header
                                 (predict sc_model_missing job_a (run sc_calm job_a).2).2 job_a)
    = Some 3 /\
  map frame_number <$> persisted_frames
                         (predict sc_model_missing job_a (run sc_calm job_a).2).2 job_a
    = Some [1; 2; 3].
Proof. repeat split; vm_compute; reflexivity. Qed.

(** *** The files a run touches *)

Section Elsewhere_facts.

Context (env : Env) (written : list string).

Lemma elsewhere_bind {A B} (m : M A) (f : A -> M B) (s : State) :
  wp m s (elsewhere_kept written s) ->
  (forall a s1, wp (f a) s1 (elsewhere_kept written s1)) ->
  wp (m ≫= f) s (elsewhere_kept written s).
Proof.
  unfold wp, mbind, M_bind. intros Hm Hf.
  destruct (m s) as [[a|e] s1]; simpl in *; [| exact Hm].
  intros p Hp. rewrite (Hf a s1 p Hp). now apply Hm.
Qed.

Lemma elsewhere_try {A} (m : M A) (h : PyExn -> M A) (s : State) :
  wp m s (elsewhere_kept written s) ->
  (forall e s1, wp (h e) s1 (elsewhere_kept written s1)) ->
  wp (try_catch m h) s (elsewhere_kept written s).
Proof.
  unfold wp, try_catch. intros Hm Hh.
  destruct (m s) as [[a|e] s1]; simpl in *; [exact Hm |].
  intros p Hp. rewrite (Hh e s1 p Hp). now apply Hm.
Qed.

Lemma elsewhere_same {A} (m : M A) (s : State) :
  fs (m s).2 = fs s -> wp m s (elsewhere_kept written s).
Proof. unfold wp. intros H p _. now rewrite H. Qed.

Lemma elsewhere_ret {A} (a : A) (s : State) : wp (mret a) s (elsewhere_kept written s).
Proof. now apply elsewhere_same. Qed.

Lemma elsewhere_raise {A} (e : PyExn) (s : State) :
  wp (@raise A e) s (elsewhere_kept written s).
Proof. now apply elsewhere_same. Qed.

Lemma elsewhere_lift {A} (r : Res A) (s : State) :
  wp (lift r) s (elsewhere_kept written s).
Proof. now apply elsewhere_same. Qed.

Lemma elsewhere_push (p : Z) (s : State) :
  wp (updateProgress env p) s (elsewhere_kept written s).
Proof. apply elsewhere_same, updateProgress_fs. Qed.

Lemma elsewhere_mkdir (path : string) (s : State) :
  wp (mkdir env path) s (elsewhere_kept written s).
Proof.
  apply elsewhere_same. unfold mkdir, fs_op. now destruct (io_fault env (io_ops s)).
Qed.

Lemma elsewhere_write (path : Path) (doc : Json) (s : State) :
  location path ∈ written -> wp (write_json env path doc) s (elsewhere_kept written s).
Proof.
  intros Hp. unfold wp, write_json, fs_op.
  destruct (io_fault env (io_ops s)) as [[e|e]|]; simpl; intros p Hn;
    [reflexivity | |]; apply lookup_insert_ne; congruence.
Qed.

Lemma elsewhere_append (path : Path) (fd : FrameRecord) (s : State) :
  location path ∈ written -> wp (update_json_results env path fd) s (elsewhere_kept written s).
Proof.
  unfold wp. intros Hp p Hn.
  apply (update_json_results_effect env path fd s). congruence.
Qed.

Lemma elsewhere_frame_loop (id : string) (t : Z) (fps : pyfloat) (rs : list RawResult) :
  location (final_json_path id) ∈ written ->
  forall (k : Z) (s : State),
    wp (frame_loop env id t fps rs k) s (elsewhere_kept written s).
Proof.
  intros Hw. induction rs as [|r rs IH]; intros k s; cbn [frame_loop].
  - destruct (stream_fault env); [apply elsewhere_raise | apply elsewhere_ret].
  - apply elsewhere_bind; [apply elsewhere_lift | intros p s1].
    apply elsewhere_bind; [apply elsewhere_push | intros [] s2].
    apply elsewhere_bind; [apply elsewhere_lift | intros fd s3].
    apply elsewhere_bind; [now apply elsewhere_append | intros [] s4].
    apply IH.
Qed.

(** The body of [predict] writes to the result document only. *)
Lemma elsewhere_predict_body (job : Job) (s : State) :
  location (final_json_path (job_id job)) ∈ written ->
  wp (predict_body env job) s (elsewhere_kept written s).
Proof.
  intros Hw. unfold predict_body.
  apply elsewhere_bind; [apply elsewhere_mkdir | intros [] s1].
  destruct (String.eqb video_path "" || negb (video_exists env)).
  - apply elsewhere_bind; [apply elsewhere_push | intros [] s2].
    apply elsewhere_same. reflexivity.
  - apply elsewhere_bind; [| intros [] s2].
    { unfold load_model.
      destruct (model_load env); [apply elsewhere_raise | apply elsewhere_ret]. }
    apply elsewhere_bind; [now apply elsewhere_write | intros [] s3].
    apply elsewhere_bind; [apply elsewhere_push | intros [] s4].
    apply elsewhere_bind; [now apply elsewhere_frame_loop | intros n s5].
    apply elsewhere_bind; [apply elsewhere_push | intros [] s6].
    apply elsewhere_ret.
Qed.

End Elsewhere_facts.

Lemma elsewhere_predict (env : Env) (job : Job) (s : State) :
  wp (predict env job) s
     (elsewhere_kept [location (final_json_path (job_id job));
                      location (error_json_path (job_id job))] s).
Proof.
  unfold predict. apply elsewhere_try.
  - apply elsewhere_predict_body. apply list_elem_of_here.
  - intros e s1. unfold on_exception.
    apply elsewhere_bind; [apply elsewhere_push | intros [] s2].
    apply elsewhere_bind; [| intros [] s3; apply elsewhere_ret].
    apply elsewhere_try; [| intros e' s3; apply elsewhere_ret].
    apply elsewhere_bind; [apply elsewhere_mkdir | intros [] s3].
    apply elsewhere_write. apply list_elem_of_further, list_elem_of_here.
Qed.

(** X10: a run of [predict] writes at two locations only, those its
    result path and its error path lead to once [pathlib] has normalised
    them and the file system has resolved their [..] parts: what is stored
    at any other location is after the run what it was before, from any
    state and whatever fails.  (For the id [7/../42] the two locations are
    the files of job 42.) *)
Theorem predict_touches_only_its_two_files (env : Env) (job : Job) (s : State)
    (p : string) :
  p <> location (final_json_path (job_id job)) ->
  p <> location (error_json_path (job_id job)) ->
  fs (predict env job s).2 !! p = fs s !! p.
Proof.
  intros H1 H2. apply (elsewhere_predict env job s).
  intros H. apply elem_of_cons in H as [->|H]; [now apply H1 |].
  apply list_elem_of_singleton in H as ->. now apply H2.
Qed.

(** The results of job 7 are still there after the job of id [7/../42] ran
    and failed. *)
Lemma predict_touches_only_its_two_files_witness :
  fs (predict sc_detector_throws job_dotted
        {| fs := {[ "temp_results/7/results.json" := Torn ]}; calls := [];
           progress := None; io_ops := 0 |}).2 !! "temp_results/7/results.json"
  = fs {| fs := {[ "temp_results/7/results.json" := Torn ]}; calls := [];
          progress := None; io_ops := 0 |} !! "temp_results/7/results.json".
Proof.
  apply (predict_touches_only_its_two_files sc_detector_throws job_dotted
           {| fs := {[ "temp_results/7/results.json" := Torn ]}; calls := [];
              progress := None; io_ops := 0 |} "temp_results/7/results.json");
    vm_compute; discriminate.
Defined.

(** The run of the job of id [7/../42] replaces the result document of
    job 42, and returns the path as [pathlib] writes it. *)
Lemma dotted_id_replaces_the_other_document :
  (predict sc_calm job_dotted (run sc_sink_fault job_a).2).1
    = Ok (Success 3 3 "temp_results/7/../42/results.json") /\
  map frame_number <$> persisted_frames (run sc_sink_fault job_a).2 job_a
    = Some [2] /\
  map frame_number <$> persisted_frames
                         (predict sc_calm job_dotted (run sc_sink_fault job_a).2).2 job_a
    = Some [1; 2; 3] /\
  (ji_id ∘ snd) <$> persisted_header
                      (predict sc_calm job_dotted (run sc_sink_fault job_a).2).2 job_a
    = Some "7/../42".
Proof. repeat split; vm_compute; reflexivity. Qed.

(** *** The error record of [save_error_json] (lines 112-121) *)

Lemma save_error_json_effect (env : Env) (path : Path) (msg : string) (s : State) :
  io_fault env (io_ops s) = None -> io_fault env (S (io_ops s)) = None ->
  save_error_json env path msg s =
    (Ok tt, {| fs := <[location path := Intact (ErrorDoc msg (Some (now env)))]> (fs s);
               calls := calls s; progress := progress s;
               io_ops := S (S (io_ops s)) |}).
Proof.
  intros H0 H1. unfold save_error_json, mbind, M_bind, mkdir, write_json, fs_op.
  rewrite H0. simpl. rewrite H1. reflexivity.
Qed.

(** X11: when its two file operations succeed, [save_error_json] replaces
    whatever the path held, frames included, by the error record with the
    message and the time of the call, and leaves the queue alone; from then
    on an append to that path changes nothing, so an error record is never
    mixed with frames. *)
Theorem save_error_json_replaces_the_document (env : Env) (path : Path) (msg : string)
    (s : State) :
  io_fault env (io_ops s) = None -> io_fault env (S (io_ops s)) = None ->
  (save_error_json env path msg s).1 = Ok tt /\
  fs (save_error_json env path msg s).2
    = <[location path := Intact (ErrorDoc msg (Some (now env)))]> (fs s) /\
  queue_kept s (save_error_json env path msg s).2 /\
  forall fd,
    fs (update_json_results env path fd (save_error_json env path msg s).2).2
    = fs (save_error_json env path msg s).2.
Proof.
  intros H0 H1. rewrite (save_error_json_effect env path msg s H0 H1). simpl.
  repeat split. intros fd. apply append_needs_a_document.
  intros vi ji frames. simpl. rewrite lookup_insert_eq. discriminate.
Qed.

Lemma save_error_json_replaces_the_document_witness :
  (save_error_json sc_calm (final_json_path "42") "stop"
     (run sc_calm job_a).2).1 = Ok tt /\
  fs (save_error_json sc_calm (final_json_path "42") "stop"
        (run sc_calm job_a).2).2
    = <[location (final_json_path "42") := Intact (ErrorDoc "stop" (Some (now sc_calm)))]>
        (fs (run sc_calm job_a).2) /\
  queue_kept (run sc_calm job_a).2
    (save_error_json sc_calm (final_json_path "42") "stop"
       (run sc_calm job_a).2).2 /\
  forall fd,
    fs (update_json_results sc_calm (final_json_path "42") fd
          (save_error_json sc_calm (final_json_path "42") "stop"
             (run sc_calm job_a).2).2).2
    = fs (save_error_json sc_calm (final_json_path "42") "stop"
            (run sc_calm job_a).2).2.
Proof.
  apply (save_error_json_replaces_the_document sc_calm (final_json_path "42")
           "stop" (run sc_calm job_a).2); reflexivity.
Defined.

(** *** What a [Success] outcome says *)

Section Success_facts.

Context (env : Env).

Lemma frame_loop_returns (id : string) (t : Z) (fps : pyfloat) (rs : list RawResult) :
  forall (k : Z) (s : State),
    wp (frame_loop env id t fps rs k) s
       (fun r s' =>
          forall n, r = Ok n ->
            n = k + Z.of_nat (length rs) /\
            stream_fault env = None /\
            (rs = [] \/ t <> 0) /\
            Forall (fun r => wf_result r = true) rs /\
            length (calls s') = (length (calls s) + length rs)%nat).
Proof.
  induction rs as [|r rs IH]; intros k s; cbn [frame_loop].
  - destruct (stream_fault env); unfold wp; simpl; intros n [= <-].
    repeat split; [lia | now left | constructor | lia].
  - apply wp_bind, wp_lift.
    destruct (calc_progress (k + 1) t) as [p|e] eqn:Ep; [| discriminate].
    assert (Ht : t <> 0).
    { intros ->. now rewrite calc_progress_zero_total in Ep. }
    apply wp_bind.
    eapply wp_conseq; [apply push_calls |]. intros [[]|e] s1 Hc; [| discriminate].
    apply wp_bind, wp_lift.
    destruct (extract_frame_data fps r (k + 1)) as [fd|e] eqn:Efd; [| discriminate].
    apply extract_frame_data_Ok_wf in Efd.
    apply wp_bind.
    eapply wp_conseq; [apply update_json_results_kept |].
    intros r2 s2 [-> [Hc2 _]].
    eapply wp_conseq; [apply IH |].
    intros r3 s3 H n Hn. destruct (H n Hn) as (-> & Hsf & _ & Hwf & Hlen).
    cbn [length]. repeat split.
    + lia.
    + exact Hsf.
    + now right.
    + now constructor.
    + rewrite Hlen, Hc2, Hc, length_app. simpl. lia.
Qed.

Lemma predict_body_returns (job : Job) (s : State) :
  wp (predict_body env job) s
     (fun r s' =>
        forall o, r = Ok o ->
          o = Success (Z.of_nat (length (stream env))) (cap_frame_count env)
                (path_str (final_json_path (job_id job))) /\
          video_exists env = true /\
          stream_fault env = None /\
          (stream env = [] \/ cap_frame_count env <> 0) /\
          Forall (fun r => wf_result r = true) (stream env) /\
          length (calls s') = (length (calls s) + length (stream env) + 2)%nat).
Proof.
  unfold predict_body.
  apply wp_bind. eapply wp_conseq; [apply fs_op_kept |].
  intros [[]|e] s1 [Hc1 _]; [| discriminate].
  destruct (video_exists env) eqn:Hv.
  - change (String.eqb video_path "" || negb true) with false. cbv iota.
    apply wp_bind. unfold load_model.
    destruct (model_load env); [apply wp_raise; discriminate | apply wp_ret].
    apply wp_bind. eapply wp_conseq; [apply fs_op_kept |].
    intros [[]|e] s2 [Hc2 _]; [| discriminate].
    apply wp_bind. eapply wp_conseq; [apply push_calls |].
    intros [[]|e] s3 Hc3; [| discriminate].
    apply wp_bind. eapply wp_conseq; [apply frame_loop_returns |].
    intros [n|e] s4 H; [| discriminate].
    destruct (H n eq_refl) as (-> & Hsf & Ht & Hwf & Hlen).
    apply wp_bind. eapply wp_conseq; [apply push_calls |].
    intros [[]|e] s5 Hc5; [| discriminate].
    apply wp_ret. intros o [= <-]. repeat split; try assumption.
    rewrite Hc5, length_app, Hlen, Hc3, length_app, Hc2, Hc1. simpl. lia.
  - change (String.eqb video_path "" || negb false) with true. cbv iota.
    apply wp_bind, wp_any. intros [[]|e] s2; [| discriminate].
    apply wp_bind, wp_raise. discriminate.
Qed.

End Success_facts.

(** X12: [predict] returns a success only when the video was there, the
    stream of results ended without a fault and every result was well
    formed; the outcome then carries the number of results the detector
    yielded as [processed_frames] (it can differ from [total_frames], the
    count the capture reported, which is not 0 unless no result came), and
    [updateProgress] was called once per result besides the initial 0 and
    the final 100. *)
Theorem success_reports_the_results_handled (env : Env) (job : Job) (n t : Z)
    (path : string) :
  (run env job).1 = Ok (Success n t path) ->
  n = Z.of_nat (length (stream env)) /\
  t = cap_frame_count env /\
  path = path_str (final_json_path (job_id job)) /\
  video_exists env = true /\
  stream_fault env = None /\
  (stream env = [] \/ cap_frame_count env <> 0) /\
  Forall (fun r => wf_result r = true) (stream env) /\
  length (calls (run env job).2) = (length (stream env) + 2)%nat.
Proof.
  unfold run.
  change (wp (predict env job) init
            (fun r s' =>
               r = Ok (Success n t path) ->
               n = Z.of_nat (length (stream env)) /\
               t = cap_frame_count env /\
               path = path_str (final_json_path (job_id job)) /\
               video_exists env = true /\
               stream_fault env = None /\
               (stream env = [] \/ cap_frame_count env <> 0) /\
               Forall (fun r => wf_result r = true) (stream env) /\
               length (calls s') = (length (stream env) + 2)%nat)).
  apply predict_spec.
  eapply wp_conseq; [apply predict_body_returns |].
  intros [o|e] s1 H.
  - intros [= ->]. destruct (H _ eq_refl) as (Ho & Hv & Hsf & Ht & Hwf & Hlen).
    injection Ho as -> -> ->. simpl in Hlen. repeat split; assumption.
  - eapply wp_conseq; [apply on_exception_spec |].
    intros r s2 (_ & _ & H2).
    destruct (push_fault env (length (calls s1))); destruct H2 as [-> _]; discriminate.
Qed.

(** Three results from a video reported to have two frames. *)
Lemma success_reports_the_results_handled_witness :
  3 = Z.of_nat (length (stream (scenario true 2 [empty_result; person_result; empty_result]
                                  None never never))) /\
  2 = cap_frame_count (scenario true 2 [empty_result; person_result; empty_result]
                         None never never) /\
  "temp_results/42/results.json" = path_str (final_json_path (job_id job_a)) /\
  video_exists (scenario true 2 [empty_result; person_result; empty_result]
                  None never never) = true /\
  stream_fault (scenario true 2 [empty_result; person_result; empty_result]
                  None never never) = None /\
  (stream (scenario true 2 [empty_result; person_result; empty_result]
             None never never) = [] \/
   cap_frame_count (scenario true 2 [empty_result; person_result; empty_result]
                      None never never) <> 0) /\
  Forall (fun r => wf_result r = true)
         (stream (scenario true 2 [empty_result; person_result; empty_result]
                    None never never)) /\
  length (calls (run (scenario true 2 [empty_result; person_result; empty_result]
                        None never never) job_a).2)
  = (length (stream (scenario true 2 [empty_result; person_result; empty_result]
                       None never never)) + 2)%nat.
Proof.
  apply (success_reports_the_results_handled
           (scenario true 2 [empty_result; person_result; empty_result] None never never)
           job_a 3 2 "temp_results/42/results.json").
  vm_compute. reflexivity.
Defined.

(** *** The document of a run in which nothing outside fails *)

Section Rerun_facts.

Context (env : Env).
Hypothesis Hpush : forall i, push_fault env i = None.
Hypothesis Hio : forall i, io_fault env i = None.

Lemma frame_loop_quiet_frames (id : string) (t : Z) (fps : pyfloat) (vi : VideoInfo)
    (ji : JobInfo) (rs : list RawResult) :
  forall (k : Z) (frs : list FrameRecord) (s : State),
    0 <= k -> k + Z.of_nat (length rs) <= 2 ^ 1000 -> rs = [] \/ 0 < t ->
    Forall (fun r => wf_result r = true) rs ->
    fs s !! location (final_json_path id) = Some (Intact (ResultsDoc vi ji frs)) ->
    wp (frame_loop env id t fps rs k) s
       (fun r s' =>
          r = match stream_fault env with
              | Some e => Raise e
              | None => Ok (k + Z.of_nat (length rs))
              end /\
          fs s' = <[location (final_json_path id) :=
                      Intact (ResultsDoc vi ji (frs ++ mapped_frames fps rs k))]> (fs s)).
Proof.
  induction rs as [|r rs IH]; intros k frs s Hk Hlen Ht Hwf Hf; cbn [frame_loop].
  - split.
    + destruct (stream_fault env); unfold wp; simpl; [reflexivity |].
      now rewrite Z.add_0_r.
    + cbn [mapped_frames]. rewrite app_nil_r.
      rewrite insert_id; [| exact Hf]. destruct (stream_fault env); reflexivity.
  - apply Forall_cons in Hwf as [Hr Hrs]. cbn [length] in Hlen |- *.
    destruct Ht as [|Ht]; [discriminate |].
    assert (2 ^ 1000 <= 2 ^ 1023) by (apply Z.pow_le_mono_r; lia).
    apply wp_bind, wp_lift. rewrite calc_progress_total by lia.
    apply wp_bind. eapply wp_conseq; [apply (push_quiet env Hpush) |].
    intros ? s1 [-> Hf1].
    apply wp_bind, wp_lift. cbn [mapped_frames].
    destruct (extract_frame_data_wf fps r (k + 1) Hr ltac:(lia)) as (stamp & boxes & _ & ->).
    set (fd := {| frame_number := k + 1; timestamp := stamp; detections := _ |}).
    apply wp_bind.
    eapply wp_conseq;
      [apply (update_json_results_quiet env Hio _ fd vi ji frs); congruence |].
    intros ? s2 [-> Hf2].
    eapply wp_conseq.
    { apply (IH (k + 1) (frs ++ [fd]) s2); [lia | lia | now right | exact Hrs |].
      rewrite Hf2. apply lookup_insert_eq. }
    intros r3 s3 [-> Hf3]. split.
    + destruct (stream_fault env); [reflexivity |]. f_equal. lia.
    + rewrite Hf3, Hf2, Hf1, insert_insert_eq, <- app_assoc. reflexivity.
Qed.

Lemma predict_body_quiet_frames (job : Job) (s : State) :
  video_exists env = true -> model_load env = None ->
  Forall (fun r => wf_result r = true) (stream env) ->
  Z.of_nat (length (stream env)) <= 2 ^ 1000 ->
  stream env = [] \/ 0 < cap_frame_count env ->
  wp (predict_body env job) s
     (fun r s' =>
        r = match stream_fault env with
            | Some e => Raise e
            | None => Ok (Success (Z.of_nat (length (stream env))) (cap_frame_count env)
                            (path_str (final_json_path (job_id job))))
            end /\
        fs s' !! location (final_json_path (job_id job))
          = Some (Intact (ResultsDoc (header_of env (job_id job)).1
                            (header_of env (job_id job)).2
                            (mapped_frames (cap_fps env) (stream env) 0)))).
Proof.
  intros Hv Hm Hwf Hlen Ht. unfold predict_body.
  apply wp_bind. eapply wp_conseq; [apply (mkdir_quiet env Hio) |].
  intros ? s1 [-> Hf1].
  rewrite Hv. change (String.eqb video_path "" || negb true) with false. cbv iota.
  apply wp_bind. unfold load_model. rewrite Hm. apply wp_ret.
  apply wp_bind. eapply wp_conseq; [apply (write_json_quiet env Hio) |].
  intros ? s2 [-> Hf2].
  apply wp_bind. eapply wp_conseq; [apply (push_quiet env Hpush) |].
  intros ? s3 [-> Hf3].
  apply wp_bind.
  eapply wp_conseq.
  { eapply (frame_loop_quiet_frames _ _ _ _ _ _ 0 [] s3);
      [lia | lia | exact Ht | exact Hwf |].
    rewrite Hf3, Hf2. apply lookup_insert_eq. }
  intros r4 s4 [-> Hf4]. cbn [app] in Hf4.
  destruct (stream_fault env) as [e|].
  - split; [reflexivity |]. rewrite Hf4. apply lookup_insert_eq.
  - apply wp_bind. eapply wp_conseq; [apply (push_quiet env Hpush) |].
    intros ? s5 [-> Hf5].
    apply wp_ret. split; [reflexivity |]. rewrite Hf5, Hf4. apply lookup_insert_eq.
Qed.

Lemma predict_quiet_frames (job : Job) (s : State) :
  video_exists env = true -> model_load env = None ->
  Forall (fun r => wf_result r = true) (stream env) ->
  Z.of_nat (length (stream env)) <= 2 ^ 1000 ->
  stream env = [] \/ 0 < cap_frame_count env ->
  (predict env job s).1
    = Ok match stream_fault env with
         | Some e => Error (str e)
         | None => Success (Z.of_nat (length (stream env))) (cap_frame_count env)
                     (path_str (final_json_path (job_id job)))
         end /\
  fs (predict env job s).2 !! location (final_json_path (job_id job))
    = Some (Intact (ResultsDoc (header_of env (job_id job)).1
                      (header_of env (job_id job)).2
                      (mapped_frames (cap_fps env) (stream env) 0))).
Proof.
  intros Hv Hm Hwf Hlen Ht.
  change (wp (predict env job) s
            (fun r s' =>
               r = Ok match stream_fault env with
                      | Some e => Error (str e)
                      | None => Success (Z.of_nat (length (stream env)))
                                  (cap_frame_count env) (path_str (final_json_path (job_id job)))
                      end /\
               fs s' !! location (final_json_path (job_id job))
                 = Some (Intact (ResultsDoc (header_of env (job_id job)).1
                                   (header_of env (job_id job)).2
                                   (mapped_frames (cap_fps env) (stream env) 0))))).
  apply predict_spec.
  eapply wp_conseq; [apply (predict_body_quiet_frames job s Hv Hm Hwf Hlen Ht) |].
  intros r s1 [-> Hf]. destruct (stream_fault env) as [e|].
  - eapply wp_conseq; [apply on_exception_spec |].
    intros r s2 (_ & Hf2 & H2). rewrite Hpush in H2. destruct H2 as (-> & _).
    split; [reflexivity |]. now rewrite Hf2.
  - split; [reflexivity | exact Hf].
Qed.

End Rerun_facts.

(** X13: when nothing outside the runner fails (the file operations and
    the pushes work, the results are well formed) the job's result document
    holds, at the end of the run, the header and the record of every result
    the detector yielded, in order, whatever the job's directory held when
    the run started: reprocessing a job replaces the document of an earlier
    run and returns what a first run returns. *)
Theorem rerun_replaces_the_document (env : Env) (job : Job) (s : State) :
  Quiet env ->
  stream env = [] \/ 0 < cap_frame_count env ->
  Z.of_nat (length (stream env)) <= 2 ^ 1000 ->
  (predict env job s).1 = (run env job).1 /\
  fs (predict env job s).2 !! location (final_json_path (job_id job))
    = fs (run env job).2 !! location (final_json_path (job_id job)) /\
  persisted_frames (predict env job s).2 job
    = Some (mapped_frames (cap_fps env) (stream env) 0).
Proof.
  intros [Hv Hm Hpush Hio Hwf] Ht Hlen.
  destruct (predict_quiet_frames env Hpush Hio job s Hv Hm Hwf Hlen Ht) as [H1 H2].
  destruct (predict_quiet_frames env Hpush Hio job init Hv Hm Hwf Hlen Ht) as [H3 H4].
  unfold run. rewrite H1, H3, H4. repeat split; [exact H2 |].
  unfold persisted_frames. now rewrite H2.
Qed.

(** The three frames of the calm run, restarted on the state it left. *)
Lemma rerun_replaces_the_document_witness :
  (predict sc_calm job_a (run sc_calm job_a).2).1 = (run sc_calm job_a).1 /\
  fs (predict sc_calm job_a (run sc_calm job_a).2).2 !! location (final_json_path (job_id job_a))
    = fs (run sc_calm job_a).2 !! location (final_json_path (job_id job_a)) /\
  persisted_frames (predict sc_calm job_a (run sc_calm job_a).2).2 job_a
    = Some (mapped_frames (cap_fps sc_calm) (stream sc_calm) 0).
Proof.
  apply (rerun_replaces_the_document sc_calm job_a (run sc_calm job_a).2).
  - now apply Quiet_scenario.
  - right. reflexivity.
  - vm_compute. discriminate.
Defined.

(** *** The error record of a run *)

Lemma on_exception_push_fault (env : Env) (job : Job) (e e' : PyExn) (s : State) :
  push_fault env (length (calls s)) = Some e' ->
  (on_exception env job e s).1 = Raise e' /\ fs (on_exception env job e s).2 = fs s.
Proof.
  intros H. unfold on_exception, mbind, M_bind, updateProgress. now rewrite H.
Qed.

(** X14: the error record follows the outcome.  When [predict] returns an
    error and the file operations work, [error.json] holds that very
    message, and no time stamp; when [predict] returns a success, or the
    push of the [except] clause throws, a run that started without an error
    record leaves none. *)
Theorem error_record_follows_the_outcome (env : Env) (job : Job) :
  match (run env job).1 with
  | Ok (Error msg) =>
      (forall i, io_fault env i = None) ->
      fs (run env job).2 !! location (error_json_path (job_id job))
        = Some (Intact (ErrorDoc msg None))
  | _ => fs (run env job).2 !! location (error_json_path (job_id job)) = None
  end.
Proof.
  unfold run.
  change (wp (predict env job) init
            (fun r s' =>
               match r with
               | Ok (Error msg) =>
                   (forall i, io_fault env i = None) ->
                   fs s' !! location (error_json_path (job_id job))
                     = Some (Intact (ErrorDoc msg None))
               | _ => fs s' !! location (error_json_path (job_id job)) = None
               end)).
  apply predict_spec.
  eapply wp_conseq.
  { apply wp_and;
      [apply (elsewhere_predict_body env [location (final_json_path (job_id job))] job init),
         list_elem_of_here
      | apply (predict_body_returns env job init)]. }
  intros r s1 [Hk Hr].
  assert (He : fs s1 !! location (error_json_path (job_id job)) = None).
  { rewrite (Hk (location (error_json_path (job_id job)))); [reflexivity |].
    intros H. apply list_elem_of_singleton in H.
    now apply result_path_not_error_path in H. }
  destruct r as [o|e].
  - destruct (Hr o eq_refl) as [-> _]. exact He.
  - unfold wp.
    destruct (push_fault env (length (calls s1))) as [e'|] eqn:Hp.
    + destruct (on_exception_push_fault env job e e' s1 Hp) as [-> ->]. exact He.
    + pose proof (on_exception_spec env job e s1) as H. unfold wp in H.
      rewrite Hp in H. destruct H as (_ & _ & -> & _ & H).
      intros Hio. apply H; apply Hio.
Qed.

(** *** The batch variant ([main.py]) *)

Module Main_facts.
Import Main.

Section Callbacks.

Context (env : Main.Env).

(** The callbacks leave the awaited pushes alone and create one task per
    batch, up to the first batch whose percentage cannot be computed. *)
Lemma model_predict_spec (ps : list Predictor) :
  forall s : Main.State,
    Main.calls (model_predict env ps s).2 = Main.calls s /\
    Main.progress (model_predict env ps s).2 = Main.progress s /\
    exists done l,
      done `prefix_of` ps /\ spawned done l /\
      Main.tasks (model_predict env ps s).2 = Main.tasks s ++ l /\
      ((model_predict env ps s).1 = Ok tt -> done = ps /\ predict_fault env = None).
Proof.
  induction ps as [|p ps IH]; intros s; cbn [model_predict].
  - split; [| split].
    + now destruct (predict_fault env).
    + now destruct (predict_fault env).
    + exists [], []. split; [apply prefix_nil |]. split; [constructor |]. split.
      * rewrite app_nil_r. now destruct (predict_fault env).
      * destruct (predict_fault env); [discriminate | split; reflexivity].
  - unfold mbind, M_bind, on_predict_batch_end, Main.lift, create_task.
    destruct (calc_progress (batch_i p + 1) (dataset_len p)) as [v|e] eqn:E; simpl.
    + set (s1 := {| Main.calls := _; Main.progress := _; Main.tasks := _ |}).
      destruct (IH s1) as (Hc & Hp & done & l & Hpre & Hsp & Ht & Hok).
      split; [exact Hc | split; [exact Hp |]].
      exists (p :: done), (v :: l).
      split; [now apply prefix_cons |]. split; [now constructor |]. split.
      * rewrite Ht. simpl. now rewrite <- app_assoc.
      * intros H. destruct (Hok H) as [-> Hf]. split; [reflexivity | exact Hf].
    + split; [reflexivity | split; [reflexivity |]].
      exists [], []. split; [apply prefix_nil |]. split; [constructor |]. split.
      * now rewrite app_nil_r.
      * discriminate.
Qed.

End Callbacks.

Lemma nth_race (n : nat) (p : Z) (l : list Z) :
  nth n (p :: l) p = p \/ nth n (p :: l) p ∈ l.
Proof.
  destruct n as [|n]; [now left |]. simpl.
  destruct (nth_in_or_default n l p) as [H|H]; [right | now left].
  now apply list_elem_of_In.
Qed.

Section Pushes.

Context (env : Main.Env).

Lemma awaited_push_spec (s : Main.State) :
  Main.calls (updateProgress env 100 s).2 = Main.calls s ++ [100] /\
  Main.tasks (updateProgress env 100 s).2 = Main.tasks s /\
  match Main.push_fault env (length (Main.calls s)) with
  | None => (updateProgress env 100 s).1 = Ok tt /\
            landed (Main.tasks s) (Main.progress (updateProgress env 100 s).2)
  | Some e => (updateProgress env 100 s).1 = Raise e
  end.
Proof.
  unfold updateProgress. cbv zeta.
  destruct (Main.push_fault env (length (Main.calls s))); simpl; [auto |].
  repeat split. eexists. split; [reflexivity | apply nth_race].
Qed.

Lemma handler_push_spec (job : Job) (e : PyExn) (s : Main.State) :
  Main.calls (on_exception env job e s).2 = Main.calls s ++ [100] /\
  Main.tasks (on_exception env job e s).2 = Main.tasks s /\
  match Main.push_fault env (length (Main.calls s)) with
  | None => (on_exception env job e s).1 = Ok (Main.Error (str e)) /\
            landed (Main.tasks s) (Main.progress (on_exception env job e s).2)
  | Some e' => (on_exception env job e s).1 = Raise e'
  end.
Proof.
  unfold on_exception, mbind, M_bind.
  pose proof (awaited_push_spec s) as (Hc & Ht & H).
  destruct (updateProgress env 100 s) as [r s1]. simpl in *.
  destruct (Main.push_fault env (length (Main.calls s))).
  - subst r. auto.
  - destruct H as [-> Hl]. simpl. auto.
Qed.

End Pushes.

(** The run, path by path. *)
Lemma run_cases (env : Main.Env) (job : Job) :
  (Main.video_exists env = false /\
   Main.tasks (Main.run env job).2 = [] /\
   match Main.push_fault env 0 with
   | None =>
       Main.run env job =
         (Ok (Main.Error "Video file not found: media/input.mp4"),
          {| Main.calls := [100]; Main.progress := Some 100; Main.tasks := [] |})
   | Some e =>
       Main.calls (Main.run env job).2 = [100; 100] /\
       match Main.push_fault env 1 with
       | None => (Main.run env job).1 = Ok (Main.Error (str e)) /\
                 Main.progress (Main.run env job).2 = Some 100
       | Some e' => (Main.run env job).1 = Raise e'
       end
   end) \/
  (Main.video_exists env = true /\
   exists done,
     done `prefix_of` batches env /\
     spawned done (Main.tasks (Main.run env job).2) /\
     ((exists raised,
          (raised = [] \/ raised = [0] \/ raised = [0; 100]) /\
          Main.calls (Main.run env job).2 = raised ++ [100] /\
          match Main.push_fault env (length raised) with
          | None => (exists e, (Main.run env job).1 = Ok (Main.Error (str e))) /\
                    landed (Main.tasks (Main.run env job).2)
                      (Main.progress (Main.run env job).2)
          | Some e' => (Main.run env job).1 = Raise e'
          end) \/
      (Main.run env job).1 = Ok (Main.Success (Main.cap_frame_count env)) /\
      Main.calls (Main.run env job).2 = [0; 100] /\
      landed (Main.tasks (Main.run env job).2) (Main.progress (Main.run env job).2) /\
      Main.push_fault env 0 = None /\ Main.push_fault env 1 = None /\
      Main.predict_fault env = None /\ Main.model_load env = None /\
      done = batches env)).
Proof.
  assert (Hh : forall (e : PyExn) (s : Main.State) (done : list Predictor) (raised : list Z),
             Main.calls s = raised -> spawned done (Main.tasks s) ->
             let R := on_exception env job e s in
             spawned done (Main.tasks R.2) /\
             Main.calls R.2 = raised ++ [100] /\
             match Main.push_fault env (length raised) with
             | None => (exists e, R.1 = Ok (Main.Error (str e))) /\
                       landed (Main.tasks R.2) (Main.progress R.2)
             | Some e' => R.1 = Raise e'
             end).
  { intros e s done raised Hc Hsp R. subst R raised.
    destruct (handler_push_spec env job e s) as (Hc' & Ht & H).
    rewrite Ht. split; [exact Hsp |]. split; [exact Hc' |].
    destruct (Main.push_fault env (length (Main.calls s))); [exact H |].
    destruct H as [H1 H2]. eauto. }
  remember (Main.run env job) as R eqn:HR.
  unfold Main.run, Main.predict, Main.try_catch, Main.predict_body in HR.
  assert (H00 : forall p, updateProgress env p Main.init =
                 match Main.push_fault env 0 with
                 | Some e => (Raise e, {| Main.calls := [p]; Main.progress := None;
                                          Main.tasks := [] |})
                 | None => (Ok tt, {| Main.calls := [p]; Main.progress := Some p;
                                      Main.tasks := [] |})
                 end).
  { intros p. unfold updateProgress. simpl.
    destruct (Main.push_fault env 0); now destruct (race env 0) as [|[|j]]. }
  destruct (Main.video_exists env) eqn:Hv.
  - right. split; [reflexivity |].
    change (String.eqb Main.video_path "" || negb true) with false in HR.
    unfold mbind, M_bind, load_model, mret, M_ret in HR. cbv beta iota in HR.
    destruct (Main.model_load env) as [e|] eqn:Hm.
    { unfold Main.raise in HR. cbv beta iota in HR. subst R. exists [].
      destruct (Hh e Main.init [] [] eq_refl ltac:(constructor)) as (H1 & H2 & H3).
      split; [apply prefix_nil |]. split; [exact H1 |]. left. exists []. auto. }
    cbv beta iota in HR. rewrite H00 in HR.
    destruct (Main.push_fault env 0) as [e0|] eqn:H0.
    { cbv beta iota in HR. subst R. exists [].
      destruct (Hh e0 {| Main.calls := [0]; Main.progress := None; Main.tasks := [] |}
                  [] [0] eq_refl ltac:(constructor)) as (H1 & H2 & H3).
      split; [apply prefix_nil |]. split; [exact H1 |]. left. exists [0]. auto. }
    cbv beta iota in HR.
    set (s1 := {| Main.calls := [0]; Main.progress := Some 0; Main.tasks := [] |}) in HR.
    destruct (model_predict_spec env (batches env) s1)
      as (Hc & Hp & done & l & Hpre & Hsp & Ht & Hok).
    exists done. split; [exact Hpre |].
    destruct (model_predict env (batches env) s1) as [[[]|e] s2];
      simpl in Hc, Hp, Ht, Hok; cbv beta iota in HR.
    + destruct (Hok eq_refl) as [-> Hpf].
      destruct (awaited_push_spec env s2) as (Hc3 & Ht3 & H3).
      rewrite Hc in Hc3, H3. simpl in Hc3, H3.
      destruct (updateProgress env 100 s2) as [r3 s3]. simpl in Hc3, Ht3, H3.
      destruct (Main.push_fault env 1) as [e1|] eqn:H1.
      * subst r3. cbv beta iota in HR. subst R.
        destruct (Hh e1 s3 (batches env) [0; 100] Hc3 ltac:(now rewrite Ht3, Ht))
          as (G1 & G2 & G3).
        split; [exact G1 |]. left. exists [0; 100]. auto.
      * destruct H3 as [-> Hl]. cbv beta iota in HR. subst R. simpl.
        rewrite Ht3, Ht. split; [exact Hsp |].
        right. rewrite <- Ht. repeat split; assumption.
    + subst R. destruct (Hh e s2 done [0] Hc ltac:(now rewrite Ht)) as (G1 & G2 & G3).
      split; [exact G1 |]. left. exists [0]. auto.
  - left. split; [reflexivity |].
    change (String.eqb Main.video_path "" || negb false) with true in HR.
    unfold mbind, M_bind, mret, M_ret in HR. cbv beta iota in HR.
    rewrite H00 in HR.
    destruct (Main.push_fault env 0) as [e0|] eqn:H0; cbv beta iota in HR; subst R;
      [| split; reflexivity].
    destruct (handler_push_spec env job e0
                {| Main.calls := [100]; Main.progress := None; Main.tasks := [] |})
      as (Hc & Ht & H).
    simpl in Hc, Ht, H. split; [exact Ht |]. split; [exact Hc |].
    destruct (Main.push_fault env 1); [exact H |].
    destruct H as [Ho (v & Hv' & [->|Hin])]; [auto |].
    now apply elem_of_nil in Hin.
Qed.

End Main_facts.

(** X15: in [main.py], when the video is missing and the push is delivered,
    [predict] awaits one push of 100, creates no task and returns the error
    whose message names the path. *)
Theorem main_missing_video_names_the_path (env : Main.Env) (job : Job) :
  Main.video_exists env = false -> Main.push_fault env 0 = None ->
  Main.run env job =
    (Ok (Main.Error "Video file not found: media/input.mp4"),
     {| Main.calls := [100]; Main.progress := Some 100; Main.tasks := [] |}) /\
  contains "Video file not found: media/input.mp4" Main.video_path = true.
Proof.
  intros Hv H0. split; [| reflexivity].
  destruct (Main_facts.run_cases env job) as [(_ & _ & H)|[Hv' _]]; [| congruence].
  now rewrite H0 in H.
Qed.

Lemma main_missing_video_names_the_path_witness :
  Main.run Main.sc_missing_video job_a =
    (Ok (Main.Error "Video file not found: media/input.mp4"),
     {| Main.calls := [100]; Main.progress := Some 100; Main.tasks := [] |}) /\
  contains "Video file not found: media/input.mp4" Main.video_path = true.
Proof.
  apply (main_missing_video_names_the_path Main.sc_missing_video job_a); reflexivity.
Defined.

(** X16: in [main.py], whatever fails, the pushes [predict] awaits are 100
    alone, 0 then 100, or one of these followed by the 100 of the [except]
    clause: the last one is always 100; when it is delivered [predict]
    returns, when it fails its exception leaves [predict].  The percentages
    of the batches are never among the awaited pushes: the callback only
    creates tasks, whose pushes race with the awaited ones.  So even when
    the last awaited push is delivered the queue ends up with 100 or with
    the percentage of one of the tasks: after a prediction that fails behind
    its first batch of four it can hold 25. *)
Theorem main_awaited_pushes (env : Main.Env) (job : Job) :
  (Main.calls (Main.run env job).2 = [100] \/
   Main.calls (Main.run env job).2 = [100; 100] \/
   Main.calls (Main.run env job).2 = [0; 100] \/
   Main.calls (Main.run env job).2 = [0; 100; 100]) /\
  last (Main.calls (Main.run env job).2) = Some 100 /\
  match Main.push_fault env (length (Main.calls (Main.run env job).2) - 1) with
  | None => (exists o, (Main.run env job).1 = Ok o) /\
            Main.landed (Main.tasks (Main.run env job).2)
              (Main.progress (Main.run env job).2)
  | Some e => (Main.run env job).1 = Raise e
  end /\
  Main.run Main.sc_late_task job =
    (Ok (Main.Error "CUDA out of memory"),
     {| Main.calls := [0; 100]; Main.progress := Some 25; Main.tasks := [25] |}).
Proof.
  assert (Hl : forall ts, Main.landed ts (Some 100)).
  { intros ts. exists 100. auto. }
  repeat apply conj; [| | | reflexivity];
    destruct (Main_facts.run_cases env job)
      as [(_ & Ht & H)|(_ & done & _ & _ & [H|H])].
  - destruct (Main.push_fault env 0); [destruct H as [-> _] | rewrite H]; auto.
  - destruct H as (raised & [->|[->| ->]] & -> & _); auto.
  - destruct H as (_ & -> & _). auto.
  - destruct (Main.push_fault env 0); [destruct H as [-> _] | rewrite H]; reflexivity.
  - destruct H as (raised & _ & -> & _). apply last_snoc.
  - destruct H as (_ & -> & _). reflexivity.
  - destruct (Main.push_fault env 0) eqn:H0.
    + destruct H as [Hc H]. rewrite Hc. simpl.
      destruct (Main.push_fault env 1); [exact H |].
      destruct H as [Ho Hp]. rewrite Hp. eauto.
    + rewrite H. simpl. rewrite H0. eauto.
  - destruct H as (raised & _ & Hc & H). rewrite Hc, length_app. simpl.
    replace (length raised + 1 - 1)%nat with (length raised) by lia.
    destruct (Main.push_fault env (length raised)); [exact H |].
    destruct H as [[e He] Hp]. eauto.
  - destruct H as (Ho & Hc & Hp & _ & H1 & _). rewrite Hc. simpl. rewrite H1. eauto.
Qed.

(** X17: in [main.py] a success reports as [processed_frames] the frame
    count the capture gave before the prediction started, whatever the
    number of batches; it is returned only when the video was there and
    [model.predict] ended without an exception, after exactly two awaited
    pushes, 0 and 100, and one task per batch, each carrying
    [min(int((batch_i + 1) / len(dataset) * 100), 100)] of its batch, in
    the order of the batches. *)
Theorem main_success_reports_the_capture_count (env : Main.Env) (job : Job) (n : Z) :
  (Main.run env job).1 = Ok (Main.Success n) ->
  n = Main.cap_frame_count env /\
  Main.video_exists env = true /\
  Main.predict_fault env = None /\
  Main.calls (Main.run env job).2 = [0; 100] /\
  Main.spawned (Main.batches env) (Main.tasks (Main.run env job).2).
Proof.
  intros Hs.
  destruct (Main_facts.run_cases env job)
    as [(_ & _ & H)|(Hv & done & _ & Hsp & [H|H])].
  - destruct (Main.push_fault env 0).
    + destruct H as [_ H]. destruct (Main.push_fault env 1); [| destruct H]; congruence.
    + rewrite H in Hs. discriminate.
  - destruct H as (raised & _ & _ & H).
    destruct (Main.push_fault env (length raised)); [congruence |].
    destruct H as [[e He] _]. congruence.
  - destruct H as (Ho & Hc & _ & _ & _ & Hf & _ & ->).
    rewrite Ho in Hs. injection Hs as <-. repeat split; assumption.
Qed.

(** Four batches of a video of 250 frames: the tasks carry 25, 50, 75 and
    100. *)
Lemma main_success_reports_the_capture_count_witness :
  250 = Main.cap_frame_count Main.sc_four_batches /\
  Main.video_exists Main.sc_four_batches = true /\
  Main.predict_fault Main.sc_four_batches = None /\
  Main.calls (Main.run Main.sc_four_batches job_a).2 = [0; 100] /\
  Main.spawned (Main.batches Main.sc_four_batches)
    (Main.tasks (Main.run Main.sc_four_batches job_a).2).
Proof.
  apply (main_success_reports_the_capture_count Main.sc_four_batches job_a 250).
  vm_compute. reflexivity.
Defined.

(** X18: in [main.py], whatever fails, the tasks created during a run are
    those of the first batches, one per batch and in their order, each with
    the percentage the callback computes for its batch; the first batch for
    which the computation raises ends the prediction.  When every batch has
    a non-negative index and a non-empty dataset the percentages lie
    between 0 and 100. *)
Theorem main_tasks_follow_the_batches (env : Main.Env) (job : Job) :
  exists done,
    done `prefix_of` Main.batches env /\
    Main.spawned done (Main.tasks (Main.run env job).2) /\
    (Forall (fun p => 0 <= Main.batch_i p /\ 0 < Main.dataset_len p) (Main.batches env) ->
     Forall (fun v => 0 <= v <= 100) (Main.tasks (Main.run env job).2)).
Proof.
  assert (H : exists done,
             done `prefix_of` Main.batches env /\
             Main.spawned done (Main.tasks (Main.run env job).2)).
  { destruct (Main_facts.run_cases env job) as [(_ & -> & _)|(_ & done & Hp & Hs & _)].
    - exists []. split; [apply prefix_nil | constructor].
    - eauto. }
  destruct H as (done & Hp & Hs). exists done. split; [exact Hp |]. split; [exact Hs |].
  intros Hb.
  assert (Hd : Forall (fun p => 0 <= Main.batch_i p /\ 0 < Main.dataset_len p) done).
  { destruct Hp as [k Hk]. rewrite Hk in Hb. now apply Forall_app in Hb. }
  clear Hp Hb. induction Hs as [|p v ps vs Hv _ IH]; [constructor |].
  apply Forall_cons in Hd as [[Hi Hn] Hd]. constructor; [| now apply IH].
  apply calc_progress_inv in Hv as [_ ->]; [| lia | lia].
  apply progress_value_range; lia.
Qed.
